(** * GPU listing standardizer: a shallow embedding of [src/data/standardizer.py]

    The development follows the Python module top to bottom: the string
    primitives the module relies on ([str.lower], [str.strip], [str.title],
    [in]), the fragment of [re] its pattern catalog uses, the catalog itself,
    and then the methods of [GPUDataStandardizer].  The callers of the
    standardizer follow: [GPUScraper.standardize_data] and
    [GPUScraper.remove_duplicates] of [src/main.py], and the scrapers' filter
    [BaseScraper.is_gpu_listing].

    Modelling conventions.
    - A Python [str] is a [list ascii] (the UTF-8 bytes of the text).  Character
      classes, case mapping and word boundaries are the ASCII ones, so the
      model is exact for texts over ASCII plus the pound sign, which is the
      alphabet of the pattern catalog.
    - A Python [float] is an exact rational: the module only builds floats
      from decimal literals and compares them with integer bounds.
    - Code that can raise returns in the error monad [res].
    - The values of a listing are [None], booleans, integers, floats, strings
      and lists; statements that depend on the type of a field say so in a
      hypothesis. *)

From Stdlib Require Import String Ascii NArith ZArith QArith Lia Bool Relations List.
Import ListNotations.
Close Scope Q_scope.

Set Warnings "-register-all".

(** ** Texts *)

Abbreviation text := (list ascii).

Definition lit (s : string) : list ascii := list_ascii_of_string s.
Coercion lit : string >-> list.

Open Scope string_scope.
Open Scope list_scope.

Module Str.

Definition code (c : ascii) : N := N_of_ascii c.

Definition between (lo hi : N) (c : ascii) : bool :=
  ((lo <=? code c) && (code c <=? hi))%N.

Definition is_upper : ascii -> bool := between 65 90.
Definition is_lower : ascii -> bool := between 97 122.
Definition is_digit : ascii -> bool := between 48 57.

(** [str.isspace] on the ASCII range: TAB..CR, FS..US and the blank. *)
Definition is_space (c : ascii) : bool :=
  between 9 13 c || between 28 32 c.

(** A word character of [\b]: a letter, a digit or the underscore. *)
Definition is_word (c : ascii) : bool :=
  is_upper c || is_lower c || is_digit c || (code c =? 95)%N.

Definition lower_char (c : ascii) : ascii :=
  if is_upper c then ascii_of_N (code c + 32) else c.

Definition upper_char (c : ascii) : ascii :=
  if is_lower c then ascii_of_N (code c - 32) else c.

Definition lower (t : text) : text := map lower_char t.
Definition upper (t : text) : text := map upper_char t.

Fixpoint lstrip (t : text) : text :=
  match t with
  | [] => []
  | c :: t' => if is_space c then lstrip t' else t
  end.

Fixpoint rstrip (t : text) : text :=
  match t with
  | [] => []
  | c :: t' =>
      match rstrip t' with
      | [] => if is_space c then [] else [c]
      | r => c :: r
      end
  end.

Definition strip (t : text) : text := rstrip (lstrip t).

(** [str.title]: a cased character is upper-cased when it starts a run of
    cased characters and lower-cased inside one. *)
Fixpoint title_from (prev_cased : bool) (t : text) : text :=
  match t with
  | [] => []
  | c :: t' =>
      if is_upper c || is_lower c
      then (if prev_cased then lower_char c else upper_char c) :: title_from true t'
      else c :: title_from false t'
  end.

Definition title (t : text) : text := title_from false t.

Definition eqb (a b : text) : bool :=
  if list_eq_dec ascii_dec a b then true else false.

Fixpoint prefix (w t : text) : bool :=
  match w, t with
  | [], _ => true
  | _ :: _, [] => false
  | a :: w', b :: t' => Ascii.eqb a b && prefix w' t'
  end.

(** [w in t] *)
Fixpoint contains (w t : text) : bool :=
  prefix w t ||
  match t with
  | [] => false
  | _ :: t' => contains w t'
  end.

Definition ends_with (w t : text) : bool := prefix (rev w) (rev t).

(** [t.replace(c, '')] for a one-character [c]. *)
Definition remove_char (c : ascii) (t : text) : text :=
  filter (fun x => negb (Ascii.eqb x c)) t.

Definition digit_val (c : ascii) : Z := Z.of_N (code c - 48).

Definition digits_val (t : text) : Z :=
  fold_left (fun acc c => 10 * acc + digit_val c)%Z t 0%Z.

Definition all_digits (t : text) : bool := forallb is_digit t.

End Str.

(** ** The error monad *)

Inductive exn := AttributeError | TypeError | ValueError.

Inductive res (A : Type) :=
| Ok (a : A)
| Raise (e : exn).
Arguments Ok {A} a.
Arguments Raise {A} e.

Definition bind {A B} (x : res A) (f : A -> res B) : res B :=
  match x with
  | Ok a => f a
  | Raise e => Raise e
  end.

Notation "x <- c ;; k" := (bind c (fun x => k))
  (at level 61, c at next level, right associativity).

(** ** The fragment of [re] used by the catalog

    A backtracking matcher in continuation-passing style: alternatives are
    tried left to right, [*] and [?] are greedy, and [search] reports the
    leftmost start position at which the pattern matches. *)

Module Re.

Inductive atom :=
| AChr (c : ascii)    (* a literal character *)
| ADigit              (* \d *)
| ASpace.             (* \s *)

Inductive gidx := G1 | G2.

Inductive regex :=
| Eps
| Atom (a : atom)
| WordB                       (* \b *)
| Seq (a b : regex)
| Alt (a b : regex)
| Star (a : regex)            (* a*   *)
| Opt (a : regex)             (* a?   *)
| Group (g : gidx) (a : regex).

Definition Plus (a : regex) : regex := Seq a (Star a).

Fixpoint Rep (n : nat) (a : regex) : regex :=
  match n with
  | O => Eps
  | S O => a
  | S n' => Seq a (Rep n' a)
  end.

Fixpoint Lit (t : text) : regex :=
  match t with
  | [] => Eps
  | [c] => Atom (AChr c)
  | c :: t' => Seq (Atom (AChr c)) (Lit t')
  end.

Definition index (g : gidx) : nat :=
  match g with G1 => 1 | G2 => 2 end.

(** The state of one match attempt: the character before the start
    position, the characters consumed so far (most recent first), the
    remaining text, and the capture registers. *)
Record mstate := MState {
  before : option ascii;
  seen : text;
  rest : text;
  g1 : option text;
  g2 : option text;
  lastindex : option gidx
}.

Definition init (b : option ascii) (t : text) : mstate :=
  MState b [] t None None None.

Definition advance (x : ascii) (xs : text) (s : mstate) : mstate :=
  MState (before s) (x :: seen s) xs (g1 s) (g2 s) (lastindex s).

Definition captured (s s' : mstate) : text :=
  rev (firstn (length (seen s') - length (seen s)) (seen s')).

Definition close (g : gidx) (s s' : mstate) : mstate :=
  match g with
  | G1 => MState (before s') (seen s') (rest s') (Some (captured s s')) (g2 s') (Some G1)
  | G2 => MState (before s') (seen s') (rest s') (g1 s') (Some (captured s s')) (Some G2)
  end.

Definition atom_matches (ic : bool) (a : atom) (x : ascii) : bool :=
  match a with
  | AChr c => if ic then Ascii.eqb (Str.lower_char x) (Str.lower_char c)
              else Ascii.eqb x c
  | ADigit => Str.is_digit x
  | ASpace => Str.is_space x
  end.

Definition prev_char (s : mstate) : option ascii :=
  match seen s with
  | c :: _ => Some c
  | [] => before s
  end.

Definition word_at (c : option ascii) : bool :=
  match c with
  | Some x => Str.is_word x
  | None => false
  end.

Definition at_boundary (s : mstate) : bool :=
  xorb (word_at (prev_char s)) (word_at (hd_error (rest s))).

Definition orelse {A} (x : option A) (y : option A) : option A :=
  match x with
  | Some _ => x
  | None => y
  end.

(** The fuel of a starred loop is the length of the remaining text; every
    starred body of the catalog consumes at least one character, so the
    loop never stops for lack of fuel. *)
Fixpoint m (ic : bool) (r : regex) (k : mstate -> option mstate) (s : mstate)
  : option mstate :=
  match r with
  | Eps => k s
  | Atom a =>
      match rest s with
      | x :: xs => if atom_matches ic a x then k (advance x xs s) else None
      | [] => None
      end
  | WordB => if at_boundary s then k s else None
  | Seq a b => m ic a (m ic b k) s
  | Alt a b => orelse (m ic a k s) (m ic b k s)
  | Star a =>
      (fix loop (fuel : nat) (s : mstate) : option mstate :=
         match fuel with
         | O => k s
         | S fuel' => orelse (m ic a (loop fuel') s) (k s)
         end) (length (rest s)) s
  | Opt a => orelse (m ic a k s) (k s)
  | Group g a => m ic a (fun s' => k (close g s s')) s
  end.

(** The match object of [re.search]. *)
Record match_obj := MatchObj {
  start : nat;
  group0 : text;
  group1 : option text;
  group2 : option text;
  mo_lastindex : option gidx;
  remainder : text
}.

Definition to_match (pos : nat) (s : mstate) : match_obj :=
  MatchObj pos (rev (seen s)) (g1 s) (g2 s) (lastindex s) (rest s).

Definition match_here (ic : bool) (r : regex) (b : option ascii) (t : text)
  : option mstate :=
  m ic r Some (init b t).

Fixpoint search_from (ic : bool) (r : regex) (b : option ascii) (pos : nat)
  (t : text) : option match_obj :=
  match match_here ic r b t with
  | Some s => Some (to_match pos s)
  | None =>
      match t with
      | [] => None
      | c :: t' => search_from ic r (Some c) (S pos) t'
      end
  end.

(** [re.search(r, t)], with [ic] for [re.IGNORECASE]. *)
Definition search (ic : bool) (r : regex) (t : text) : option match_obj :=
  search_from ic r None 0 t.

(** [re.sub(r, '', t)]: every leftmost non-overlapping match is dropped;
    [skip] counts the characters of the current match still to drop. *)
Fixpoint sub_from (r : regex) (skip : nat) (b : option ascii) (t : text) : text :=
  match t with
  | [] => []
  | c :: t' =>
      match skip with
      | S n => sub_from r n (Some c) t'
      | O =>
          match match_here false r b t with
          | Some s =>
              match length (seen s) with
              | S n => sub_from r n (Some c) t'
              | O => c :: sub_from r 0 (Some c) t'
              end
          | None => c :: sub_from r 0 (Some c) t'
          end
      end
  end.

Definition sub_empty (r : regex) (t : text) : text := sub_from r 0 None t.

End Re.

(** ** Python values and dictionaries *)

Inductive pyval :=
| PNone
| PBool (b : bool)
| PInt (z : Z)
| PFloat (q : Q)
| PStr (t : text)
| PList (l : list pyval).

(** Truth value of an object, as tested by [if not x]. *)
Definition truthy (v : pyval) : bool :=
  match v with
  | PNone => false
  | PBool b => b
  | PInt z => negb (z =? 0)%Z
  | PFloat q => negb (Qeq_bool q 0)
  | PStr t => match t with [] => false | _ => true end
  | PList l => match l with [] => false | _ => true end
  end.

Definition pydict := list (string * pyval).

Fixpoint lookup (d : pydict) (key : string) : option pyval :=
  match d with
  | [] => None
  | (k, v) :: d' => if String.eqb k key then Some v else lookup d' key
  end.

(** [d.get(key, default)] *)
Definition dict_get (d : pydict) (key : string) (default : pyval) : pyval :=
  match lookup d key with
  | Some v => v
  | None => default
  end.

(** [v.strip()]: only a [str] has the method. *)
Definition method_strip (v : pyval) : res text :=
  match v with
  | PStr t => Ok (Str.strip t)
  | _ => Raise AttributeError
  end.

(** [int(t)] on a captured group; [None] stands for [ValueError]. *)
Definition int_of (t : text) : option Z :=
  match t with
  | [] => None
  | _ => if Str.all_digits t then Some (Str.digits_val t) else None
  end.

Fixpoint split_dot (t : text) : text * option text :=
  match t with
  | [] => ([], None)
  | c :: t' =>
      if Ascii.eqb c "."%char then ([], Some t')
      else let (a, b) := split_dot t' in (c :: a, b)
  end.

(** [float(t)] on the decimal shapes the price patterns capture, [ddd] and
    [ddd.dd]; [None] stands for [ValueError]. *)
Definition float_of (t : text) : option Q :=
  let (ip, fp) := split_dot t in
  match ip with
  | [] => None
  | _ =>
      if negb (Str.all_digits ip) then None else
      match fp with
      | None => Some (inject_Z (Str.digits_val ip))
      | Some f =>
          if Str.all_digits f
          then Some (Qred (Qmake (Str.digits_val (ip ++ f))
                                 (Z.to_pos (10 ^ Z.of_nat (length f)))))
          else None
      end
  end.

Definition Qlt_bool (a b : Q) : bool := negb (Qle_bool b a).

(** ** The data model *)

Record GPUInfo := mkGPUInfo {
  manufacturer : text;
  series : text;
  model : text;
  vram : option Z;
  card_manufacturer : option text;
  confidence_score : Q
}.

(** A model template such as ['40{group1}']. *)
Inductive piece := TLit (t : text) | TGroup1 | TGroup2.

Definition format (tmpl : list piece) (group1 group2 : text) : text :=
  flat_map (fun p => match p with
                     | TLit t => t
                     | TGroup1 => group1
                     | TGroup2 => group2
                     end) tmpl.

(** ** The pattern catalog ([GPUDataStandardizer.__init__]) *)

Module Catalog.
Import Re.

Fixpoint seqs (l : list regex) : regex :=
  match l with
  | [] => Eps
  | [a] => a
  | a :: l' => Seq a (seqs l')
  end.

Fixpoint alts (l : list regex) : regex :=
  match l with
  | [] => Eps
  | [a] => a
  | a :: l' => Alt a (alts l')
  end.

Definition d := Atom ADigit.
Definition ws := Star (Atom ASpace).        (* "\s*" *)
Definition ws1 := Plus (Atom ASpace).       (* "\s+" *)
Definition ti := Opt (Seq ws (Lit "ti")).   (* "(?:\s*ti)?" *)
Definition xt_gre := Opt (Group G2 (Alt (Lit "xt") (Lit "gre"))).   (* "(xt|gre)?" *)

Definition rule := (regex * (text * text * list piece))%type.

(* "rtx\s*50(\d{2})" *)
Definition rtx_50 : regex := seqs [Lit "rtx"; ws; Lit "50"; Group G1 (Rep 2 d)].
(* "rtx\s*40(\d{2})(?:\s*ti)?" *)
Definition rtx_40 : regex := seqs [Lit "rtx"; ws; Lit "40"; Group G1 (Rep 2 d); ti].

Definition nvidia_patterns : list rule := [
  (rtx_50, ("NVIDIA" : text, "RTX 50" : text, [TLit "50"; TGroup1]));
  (rtx_40, ("NVIDIA" : text, "RTX 40" : text, [TLit "40"; TGroup1]));
  (* "rtx\s*4(\d{3})(?:\s*ti)?" *)
  (seqs [Lit "rtx"; ws; Lit "4"; Group G1 (Rep 3 d); ti],
   ("NVIDIA" : text, "RTX 40" : text, [TLit "4"; TGroup1]));
  (* "rtx\s*30(\d{2})(?:\s*ti)?" *)
  (seqs [Lit "rtx"; ws; Lit "30"; Group G1 (Rep 2 d); ti],
   ("NVIDIA" : text, "RTX 30" : text, [TLit "30"; TGroup1]));
  (* "rtx\s*3(\d{3})(?:\s*ti)?" *)
  (seqs [Lit "rtx"; ws; Lit "3"; Group G1 (Rep 3 d); ti],
   ("NVIDIA" : text, "RTX 30" : text, [TLit "3"; TGroup1]));
  (* "geforce\s*rtx\s*(\d{4})(?:\s*ti)?" *)
  (seqs [Lit "geforce"; ws; Lit "rtx"; ws; Group G1 (Rep 4 d); ti],
   ("NVIDIA" : text, "RTX" : text, [TGroup1]))
].

Definition amd_patterns : list rule := [
  (* "rx\s*7(\d{3})\s*(xt|gre)?" *)
  (seqs [Lit "rx"; ws; Lit "7"; Group G1 (Rep 3 d); ws; xt_gre],
   ("AMD" : text, "RX 7000" : text, [TLit "7"; TGroup1; TGroup2]));
  (* "radeon\s*rx\s*7(\d{3})\s*(xt|gre)?" *)
  (seqs [Lit "radeon"; ws; Lit "rx"; ws; Lit "7"; Group G1 (Rep 3 d); ws; xt_gre],
   ("AMD" : text, "RX 7000" : text, [TLit "7"; TGroup1; TGroup2]));
  (* "rx\s*6(\d{3})\s*(xt|gre)?" *)
  (seqs [Lit "rx"; ws; Lit "6"; Group G1 (Rep 3 d); ws; xt_gre],
   ("AMD" : text, "RX 6000" : text, [TLit "6"; TGroup1; TGroup2]));
  (* "radeon\s*rx\s*6(\d{3})\s*(xt|gre)?" *)
  (seqs [Lit "radeon"; ws; Lit "rx"; ws; Lit "6"; Group G1 (Rep 3 d); ws; xt_gre],
   ("AMD" : text, "RX 6000" : text, [TLit "6"; TGroup1; TGroup2]))
].

(* "(a\d{3}|b\d{3})" *)
Definition arc_model :=
  Group G1 (Alt (Seq (Lit "a") (Rep 3 d)) (Seq (Lit "b") (Rep 3 d))).

Definition intel_patterns : list rule := [
  (* "arc\s*(a\d{3}|b\d{3})" *)
  (seqs [Lit "arc"; ws; arc_model],
   ("Intel" : text, "Arc" : text, [TGroup1]));
  (* "intel\s*arc\s*(a\d{3}|b\d{3})" *)
  (seqs [Lit "intel"; ws; Lit "arc"; ws; arc_model],
   ("Intel" : text, "Arc" : text, [TGroup1]))
].

Definition vram_patterns : list regex := [
  (* "(\d+)\s*gb\s*vram" *)
  seqs [Group G1 (Plus d); ws; Lit "gb"; ws; Lit "vram"];
  (* source line 59: group 1 "\d+", then "\s*gb", then optionally "\s*gddr" and any digits *)
  seqs [Group G1 (Plus d); ws; Lit "gb"; Opt (seqs [ws; Lit "gddr"; Star d])];
  (* "(\d+)gb" *)
  seqs [Group G1 (Plus d); Lit "gb"];
  (* "vram:\s*(\d+)\s*gb" *)
  seqs [Lit "vram:"; ws; Group G1 (Plus d); ws; Lit "gb"]
].

(* "\bNAME\b" *)
Definition word (t : text) : regex := seqs [WordB; Lit t; WordB].
(* "NAME\s+LINE" *)
Definition brand (t u : text) : regex := seqs [Lit t; ws1; Lit u].

Definition manufacturer_patterns : list (text * list regex) := [
  ("MSI" : text, [word "msi"; brand "msi" "gaming"; brand "msi" "ventus"]);
  ("ASUS" : text, [word "asus"; brand "asus" "rog"; brand "asus" "tuf"; brand "asus" "dual"]);
  ("Gigabyte" : text, [word "gigabyte"; brand "gigabyte" "gaming"; brand "gigabyte" "aorus"]);
  ("EVGA" : text, [word "evga"; brand "evga" "ftw"; brand "evga" "sc"]);
  ("Sapphire" : text, [word "sapphire"; brand "sapphire" "nitro"; brand "sapphire" "pulse"]);
  ("PowerColor" : text, [word "powercolor"; brand "powercolor" "red"]);
  ("XFX" : text, [word "xfx"; brand "xfx" "speedster"]);
  ("Zotac" : text, [word "zotac"; brand "zotac" "gaming"]);
  ("Palit" : text, [word "palit"; brand "palit" "gamerock"]);
  ("Gainward" : text, [word "gainward"; brand "gainward" "phoenix"]);
  ("PNY" : text, [word "pny"]);
  ("Inno3D" : text, [word "inno3d"]);
  ("Manli" : text, [word "manli"])
].

(* "\d+(?:,\d{3})*(?:\.\d{2})?" *)
Definition amount : regex :=
  seqs [Plus d; Star (Seq (Lit ",") (Rep 3 d)); Opt (Seq (Lit ".") (Rep 2 d))].

Definition pound : regex := Lit "£".

Definition price_patterns : list regex := [
  (* "£(\d+(?:,\d{3})*(?:\.\d{2})?)" *)
  seqs [pound; Group G1 amount];
  (* "(\d+(?:,\d{3})*(?:\.\d{2})?)\s*£" *)
  seqs [Group G1 amount; ws; pound];
  (* "£\s*(\d+(?:,\d{3})*(?:\.\d{2})?)" *)
  seqs [pound; ws; Group G1 amount];
  (* "(\d+(?:,\d{3})*(?:\.\d{2})?)" *)
  Group G1 amount
].

(* "(ono|or best offer|obo|neg|negotiable)" *)
Definition price_modifiers : regex :=
  Group G1 (alts [Lit "ono"; Lit "or best offer"; Lit "obo"; Lit "neg"; Lit "negotiable"]).

Definition condition_map : list (text * list text) := [
  ("new" : text,
   ["new" : text; "brand new" : text; "sealed" : text; "unopened" : text; "mint" : text]);
  ("like new" : text,
   ["like new" : text; "excellent" : text; "very good" : text; "pristine" : text; "perfect" : text]);
  ("good" : text,
   ["good" : text; "working" : text; "functional" : text; "used - good" : text]);
  ("fair" : text,
   ["fair" : text; "average" : text; "used - fair" : text; "some wear" : text]);
  ("poor" : text,
   ["poor" : text; "damaged" : text; "faulty" : text; "for parts" : text; "spares" : text])
].

End Catalog.

(** ** The methods of [GPUDataStandardizer] *)

Import Catalog.

(** [match.lastindex >= n]; comparing [None] with a number raises. *)
Definition lastindex_ge (mo : Re.match_obj) (n : nat) : res bool :=
  match Re.mo_lastindex mo with
  | Some g => Ok (n <=? Re.index g)%nat
  | None => Raise TypeError
  end.

(** How [str.format] renders [match.group(i)]. *)
Definition str_of (g : option text) : text :=
  match g with
  | Some t => t
  | None => "None"
  end.

(** [for pattern, info in table.items(): match = re.search(...); if match: ...]
    where the body returns. *)
Fixpoint for_first_match {A B} (table : list (Re.regex * A)) (txt : text)
  (body : Re.match_obj -> A -> res (option B)) : res (option B) :=
  match table with
  | [] => Ok None
  | (pattern, info) :: table' =>
      match Re.search true pattern txt with
      | Some mo => body mo info
      | None => for_first_match table' txt body
      end
  end.

Fixpoint _extract_vram_from (patterns : list Re.regex) (txt : text) : res (option Z) :=
  match patterns with
  | [] => Ok None
  | pattern :: patterns' =>
      match Re.search true pattern txt with
      | Some mo =>
          match Re.group1 mo with
          | None => Raise TypeError
          | Some g =>
              match int_of g with
              | Some vram =>
                  if ((1 <=? vram) && (vram <=? 24))%Z then Ok (Some vram)
                  else _extract_vram_from patterns' txt
              | None => _extract_vram_from patterns' txt
              end
          end
      | None => _extract_vram_from patterns' txt
      end
  end.

Definition _extract_vram (txt : text) : res (option Z) :=
  _extract_vram_from vram_patterns txt.

Fixpoint _extract_card_manufacturer_from (table : list (text * list Re.regex))
  (txt : text) : option text :=
  match table with
  | [] => None
  | (name, patterns) :: table' =>
      if existsb (fun pattern =>
                    match Re.search true pattern txt with
                    | Some _ => true
                    | None => false
                    end) patterns
      then Some name
      else _extract_card_manufacturer_from table' txt
  end.

Definition _extract_card_manufacturer (txt : text) : option text :=
  _extract_card_manufacturer_from manufacturer_patterns txt.

Definition conf_match : Q := 9 # 10.
Definition conf_threshold : Q := 3 # 10.

(** The tail shared by the three loop bodies: build the [GPUInfo] with
    confidence 0.9, then fill in [vram] and [card_manufacturer]. *)
Definition finish_gpu_info (man ser mdl : text) (txt : text) : res (option GPUInfo) :=
  v <- _extract_vram txt ;;
  Ok (Some (mkGPUInfo man ser mdl v (_extract_card_manufacturer txt) conf_match)).

(** The body of the loop of [_match_nvidia_patterns], run on a match. *)
Definition nvidia_body (txt : text) (mo : Re.match_obj)
  (info : text * text * list piece) : res (option GPUInfo) :=
  let '(man, ser, model_template) := info in
  b1 <- lastindex_ge mo 1 ;;
  b2 <- lastindex_ge mo 2 ;;
  let group1 := if b1 then str_of (Re.group1 mo) else [] in
  let group2 := if b2 then str_of (Re.group2 mo) else [] in
  let mdl := Str.strip (format model_template group1 group2) in
  let mdl := if Str.contains "ti" txt then mdl ++ " Ti" else mdl in
  finish_gpu_info man ser mdl txt.

Definition _match_nvidia_patterns (txt : text) : res (option GPUInfo) :=
  for_first_match nvidia_patterns txt (nvidia_body txt).

Definition amd_body (txt : text) (mo : Re.match_obj)
  (info : text * text * list piece) : res (option GPUInfo) :=
  let '(man, ser, model_template) := info in
  b1 <- lastindex_ge mo 1 ;;
  b2 <- lastindex_ge mo 2 ;;
  let group1 := if b1 then str_of (Re.group1 mo) else [] in
  let group2 :=
    if b2 then
      match Re.group2 mo with
      | Some (c :: g) => " " ++ Str.upper (c :: g)
      | _ => []
      end
    else [] in
  let mdl := Str.strip (format model_template group1 group2) in
  finish_gpu_info man ser mdl txt.

Definition _match_amd_patterns (txt : text) : res (option GPUInfo) :=
  for_first_match amd_patterns txt (amd_body txt).

Definition intel_body (txt : text) (mo : Re.match_obj)
  (info : text * text * list piece) : res (option GPUInfo) :=
  let '(man, ser, model_template) := info in
  b1 <- lastindex_ge mo 1 ;;
  group1 <- (if b1 then
               match Re.group1 mo with
               | Some g => Ok (Str.upper g)
               | None => Raise AttributeError
               end
             else Ok []) ;;
  let mdl := Str.strip (format model_template group1 []) in
  finish_gpu_info man ser mdl txt.

Definition _match_intel_patterns (txt : text) : res (option GPUInfo) :=
  for_first_match intel_patterns txt (intel_body txt).

Definition combined (title description : text) : text :=
  Str.lower (title ++ " " ++ description).

Definition extract_gpu_info (title description : text) : res (option GPUInfo) :=
  let txt := combined title description in
  n <- _match_nvidia_patterns txt ;;
  match n with
  | Some _ => Ok n
  | None =>
      a <- _match_amd_patterns txt ;;
      match a with
      | Some _ => Ok a
      | None =>
          i <- _match_intel_patterns txt ;;
          match i with
          | Some _ => Ok i
          | None => Ok None
          end
      end
  end.

Definition in_band (price : Q) : bool :=
  Qle_bool (10 # 1) price && Qle_bool price (10000 # 1).

Fixpoint extract_price_from (patterns : list Re.regex) (cleaned : text) : res (option Q) :=
  match patterns with
  | [] => Ok None
  | pattern :: patterns' =>
      match Re.search false pattern cleaned with
      | Some mo =>
          match Re.group1 mo with
          | None => Raise AttributeError
          | Some g =>
              match float_of (Str.remove_char ","%char g) with
              | Some price =>
                  if in_band price then Ok (Some price)
                  else extract_price_from patterns' cleaned
              | None => extract_price_from patterns' cleaned
              end
          end
      | None => extract_price_from patterns' cleaned
      end
  end.

Definition clean_price (price_text : text) : text :=
  Re.sub_empty price_modifiers (Str.lower price_text).

Definition extract_price (price_text : text) : res (option Q) :=
  match price_text with
  | [] => Ok None
  | _ => extract_price_from price_patterns (clean_price price_text)
  end.

Fixpoint scan_conditions (table : list (text * list text)) (condition_lower : text)
  : option text :=
  match table with
  | [] => None
  | (standard_condition, variants) :: table' =>
      if existsb (fun variant => Str.contains variant condition_lower) variants
      then Some (Str.title standard_condition)
      else scan_conditions table' condition_lower
  end.

Definition _standardize_condition (condition : pyval) : res text :=
  if negb (truthy condition) then Ok ("Unknown" : text)
  else
    match condition with
    | PStr c =>
        match scan_conditions condition_map (Str.strip (Str.lower c)) with
        | Some standard => Ok standard
        | None => Ok (Str.title c)
        end
    | _ => Raise AttributeError
    end.

Definition opt_str (o : option text) : pyval :=
  match o with Some t => PStr t | None => PNone end.
Definition opt_int (o : option Z) : pyval :=
  match o with Some z => PInt z | None => PNone end.
Definition opt_float (o : option Q) : pyval :=
  match o with Some q => PFloat q | None => PNone end.

(** The dictionary literal [standardized] of the [try] block. *)
Definition standardized (raw_listing : pydict) (title description price_text : text)
  (g : GPUInfo) (price : option Q) (condition : text) : pydict := [
    ("title", PStr title);
    ("description", PStr description);
    ("price_text", PStr price_text);
    ("standardized_price", opt_float price);
    ("gpu_manufacturer", PStr (manufacturer g));
    ("gpu_series", PStr (series g));
    ("gpu_model", PStr (model g));
    ("vram_gb", opt_int (vram g));
    ("card_manufacturer", opt_str (card_manufacturer g));
    ("confidence_score", PFloat (confidence_score g));
    ("url", dict_get raw_listing "url" PNone);
    ("marketplace",
     dict_get raw_listing "marketplace" (dict_get raw_listing "source" PNone));
    ("scraped_at", dict_get raw_listing "scraped_at" PNone);
    ("listing_type", dict_get raw_listing "listing_type" PNone);
    ("condition", PStr condition);
    ("location", dict_get raw_listing "location" PNone);
    ("seller_info", dict_get raw_listing "seller_info" PNone);
    ("is_sold", dict_get raw_listing "is_sold" (PBool false));
    ("is_featured", dict_get raw_listing "is_featured" (PBool false));
    ("shipping", dict_get raw_listing "shipping" PNone);
    ("posted_date", dict_get raw_listing "posted_date" PNone);
    ("image_url", dict_get raw_listing "image_url" PNone)
  ].

(** The body of the [try] block. *)
Definition standardize_listing_try (raw_listing : pydict) : res (option pydict) :=
  title <- method_strip (dict_get raw_listing "title" (PStr [])) ;;
  description <- method_strip (dict_get raw_listing "description" (PStr [])) ;;
  price_text <- method_strip (dict_get raw_listing "price" (PStr [])) ;;
  match title with
  | [] => Ok None
  | _ =>
      gpu_info <- extract_gpu_info title description ;;
      match gpu_info with
      | None => Ok None
      | Some g =>
          if Qlt_bool (confidence_score g) conf_threshold then Ok None
          else
            price <- extract_price price_text ;;
            condition <-
              _standardize_condition (dict_get raw_listing "condition" (PStr [])) ;;
            Ok (Some (standardized raw_listing title description price_text
                                   g price condition))
      end
  end.

(** [try: ... except Exception as e: logger.error(...); return None] *)
Definition try_except {A} (body : res A) (handler : exn -> res A) : res A :=
  match body with
  | Ok a => Ok a
  | Raise e => handler e
  end.

Definition standardize_listing (raw_listing : pydict) : res (option pydict) :=
  try_except (standardize_listing_try raw_listing) (fun _ => Ok None).

(** Modelled from the spec: the target-filter configuration
    [config.gpu_targets].  Its class lives in the configuration module, which
    is not among the sources; the specification gives it three lists of
    strings. *)
Record gpu_targets := mkTargets {
  nvidia_series : list text;
  amd_series : list text;
  intel_models : list text
}.

Definition validate_gpu_targets (gpu_info : option GPUInfo) (config : gpu_targets) : bool :=
  match gpu_info with
  | None => false
  | Some g =>
      let man := Str.lower (manufacturer g) in
      let mdl := Str.lower (model g) in
      if Str.eqb man "nvidia" then
        existsb (fun series => Str.contains series mdl) (nvidia_series config)
      else if Str.eqb man "amd" then
        existsb (fun series => Str.contains series mdl) (amd_series config)
      else if Str.eqb man "intel" then
        existsb (fun target_model => Str.contains (Str.lower target_model) mdl)
                (intel_models config)
      else false
  end.

(** ** Sample inputs *)

Definition two_cards : text := "RTX 5090 vs RTX 4070 Ti".

Definition two_vendors : text := "RX 7800 XT or RTX 4070".

Definition negotiable_card : text := "RTX 4070 price negotiable".

Definition gre_card : text := "Sapphire RX 7900 GRE 16GB Nitro+".

Definition arc_title : text := "Intel Arc B580 12GB Graphics Card".

Definition sample_listing : pydict := [
  ("title", PStr "MSI RTX 4090 Gaming X Trio 24GB");
  ("price", PStr "£1,450.00");
  ("condition", PStr "Used - Excellent")
].

(** ** A declarative reading of the matcher

    [step ic r s s'] says that [r] can take the state [s] to [s']; the
    matcher only ever reports states reachable this way. *)

Module ReSpec.
Import Re.

Definition consumes (ic : bool) (a : atom) (s s' : mstate) : Prop :=
  exists x xs,
    rest s = x :: xs /\ atom_matches ic a x = true /\ s' = advance x xs s.

Fixpoint step (ic : bool) (r : regex) (s s' : mstate) : Prop :=
  match r with
  | Eps => s' = s
  | Atom a => consumes ic a s s'
  | WordB => at_boundary s = true /\ s' = s
  | Seq a b => exists t, step ic a s t /\ step ic b t s'
  | Alt a b => step ic a s s' \/ step ic b s s'
  | Star a => clos_refl_trans_1n mstate (step ic a) s s'
  | Opt a => step ic a s s' \/ s' = s
  | Group g a => exists t, step ic a s t /\ s' = close g s t
  end.

(** Group 1 is closed on every path through [r]. *)
Fixpoint closes1 (r : regex) : bool :=
  match r with
  | Group G1 _ => true
  | Group G2 a => closes1 a
  | Seq a b => closes1 a || closes1 b
  | Alt a b => closes1 a && closes1 b
  | _ => false
  end.

Fixpoint no_groups (r : regex) : bool :=
  match r with
  | Group _ _ => false
  | Seq a b | Alt a b => no_groups a && no_groups b
  | Star a | Opt a => no_groups a
  | _ => true
  end.

Definition has1 (s : mstate) : Prop :=
  g1 s <> None /\ lastindex s <> None.

End ReSpec.

(** ** Vocabulary of the statements *)

(** The candidate a VRAM pattern offers: the integer read from group 1 of
    its leftmost match. *)
Definition vram_candidate (pattern : Re.regex) (txt : text) : option Z :=
  match Re.search true pattern txt with
  | Some mo =>
      match Re.group1 mo with
      | Some g => int_of g
      | None => None
      end
  | None => None
  end.

Definition vram_in_range (v : Z) : bool := ((1 <=? v) && (v <=? 24))%Z.

(** A pattern is passed over when it offers nothing or a value out of range. *)
Definition vram_rejected (txt : text) (pattern : Re.regex) : Prop :=
  match vram_candidate pattern txt with
  | Some v => vram_in_range v = false
  | None => True
  end.

(** The three rule groups in the order [extract_gpu_info] consults them. *)
Definition rules : list rule := nvidia_patterns ++ amd_patterns ++ intel_patterns.

Definition rule_matches (txt : text) (r : rule) : Prop :=
  Re.search true (fst r) txt <> None.

Definition vendors : list text := ["NVIDIA" : text; "AMD" : text; "Intel" : text].

(** The invariant of an extracted identity. *)
Definition well_formed (g : GPUInfo) : Prop :=
  In (manufacturer g) vendors /\
  series g <> [] /\
  model g <> [] /\
  confidence_score g = (9 # 10)%Q /\
  match vram g with
  | Some v => (1 <= v <= 24)%Z
  | None => True
  end.

(** A text that opens with a character [strip] keeps. *)
Definition starts_solid (t : text) : Prop :=
  match t with
  | c :: _ => Str.is_space c = false
  | [] => False
  end.

(** What a rule group may return on a text. *)
Definition outcome (table : list rule) (txt : text) (r : res (option GPUInfo)) : Prop :=
  match r with
  | Ok (Some g) => well_formed g /\ exists r, In r table /\ rule_matches txt r
  | Ok None => forall r, In r table -> Re.search true (fst r) txt = None
  | Raise _ => False
  end.

(** The output keys that carry the GPU identity and the text it is derived
    from. *)
Definition gpu_keys : list string :=
  ["title"; "description"; "gpu_manufacturer"; "gpu_series"; "gpu_model";
   "vram_gb"; "card_manufacturer"; "confidence_score"]%string.

Definition sample_output : pydict :=
  Eval vm_compute in
    match standardize_listing sample_listing with
    | Ok (Some out) => out
    | _ => []
    end.

(** A category occurs in a text when one of its variants does. *)
Definition occurs (condition_lower : text) (entry : text * list text) : bool :=
  existsb (fun variant => Str.contains variant condition_lower) (snd entry).

(** The targets configured for a manufacturer. *)
Definition targets_for (man : text) (config : gpu_targets) : list text :=
  if Str.eqb (Str.lower man) "nvidia" then nvidia_series config
  else if Str.eqb (Str.lower man) "amd" then amd_series config
  else if Str.eqb (Str.lower man) "intel" then intel_models config
  else [].

(** The target filter in the words of the specification: some target of
    the identity's manufacturer occurs in the model, letter case ignored. *)
Definition matches_target_ci (g : GPUInfo) (config : gpu_targets) : bool :=
  existsb (fun target => Str.contains (Str.lower target) (Str.lower (model g)))
          (targets_for (manufacturer g) config).

Definition xt_card : GPUInfo :=
  mkGPUInfo "AMD" "RX 7000" "7800 XT" (Some 16%Z) None conf_match.

Definition xt_targets : gpu_targets := mkTargets [] ["7800 XT" : text] [].

Definition arc_card : GPUInfo :=
  mkGPUInfo "Intel" "Arc" "B580" (Some 12%Z) None conf_match.

Definition arc_targets : gpu_targets := mkTargets [] [] ["B580" : text].

(** The candidate a price pattern offers: the number read from group 1 of
    its leftmost match, thousands separators removed. *)
Definition price_candidate (pattern : Re.regex) (cleaned : text) : option Q :=
  match Re.search false pattern cleaned with
  | Some mo =>
      match Re.group1 mo with
      | Some g => float_of (Str.remove_char ","%char g)
      | None => None
      end
  | None => None
  end.

Definition price_rejected (cleaned : text) (pattern : Re.regex) : Prop :=
  match price_candidate pattern cleaned with
  | Some price => in_band price = false
  | None => True
  end.

(** The words the modifier substitution can remove, in the order tried. *)
Definition removable_modifiers : list text :=
  ["ono" : text; "or best offer" : text; "obo" : text; "neg" : text].

Fixpoint first_prefix (ws : list text) (t : text) : option text :=
  match ws with
  | [] => None
  | w :: ws' => if Str.prefix w t then Some w else first_prefix ws' t
  end.

(** One pass from left to right that drops, at each position, the first
    word of [ws] the text continues with. *)
Fixpoint strip_words (ws : list text) (skip : nat) (t : text) : text :=
  match t with
  | [] => []
  | c :: t' =>
      match skip with
      | S n => strip_words ws n t'
      | O =>
          match first_prefix ws t with
          | Some w =>
              match length w with
              | S n => strip_words ws n t'
              | O => c :: strip_words ws 0 t'
              end
          | None => c :: strip_words ws 0 t'
          end
      end
  end.

(** ** The callers of the standardizer ([src/main.py], [scrapers/base_scraper.py]) *)

(** Truth value of a dictionary, as tested by [if standardized]. *)
Definition dict_truthy (d : pydict) : bool :=
  match d with
  | [] => false
  | _ => true
  end.

(** [GPUScraper.standardize_data]: every listing is standardized inside its
    own [try]; a listing that is rejected, or whose call raises, is skipped. *)
Fixpoint standardize_data (raw_listings : list pydict) : list pydict :=
  match raw_listings with
  | [] => []
  | listing :: raw_listings' =>
      match standardize_listing listing with
      | Ok (Some standardized) =>
          if dict_truthy standardized
          then standardized :: standardize_data raw_listings'
          else standardize_data raw_listings'
      | Ok None => standardize_data raw_listings'
      | Raise _ => standardize_data raw_listings'
      end
  end.

(** The number a numeric object stands for; [bool] is a subtype of [int]. *)
Definition num_of (v : pyval) : option Q :=
  match v with
  | PBool b => Some (if b then 1 # 1 else 0 # 1)%Q
  | PInt z => Some (inject_Z z)
  | PFloat q => Some q
  | _ => None
  end.

(** [a == b] on the objects a set can hold. *)
Definition py_eqb (a b : pyval) : bool :=
  match a, b with
  | PNone, PNone => true
  | PStr s, PStr t => Str.eqb s t
  | _, _ =>
      match num_of a, num_of b with
      | Some x, Some y => Qeq_bool x y
      | _, _ => false
      end
  end.

(** [url in seen_urls]: hashing a list raises [TypeError]. *)
Definition set_contains (seen_urls : list pyval) (url : pyval) : res bool :=
  match url with
  | PList _ => Raise TypeError
  | _ => Ok (existsb (py_eqb url) seen_urls)
  end.

(** The loop of [GPUScraper.remove_duplicates], from a given [seen_urls]. *)
Fixpoint remove_duplicates_from (seen_urls : list pyval) (listings : list pydict)
  : res (list pydict) :=
  match listings with
  | [] => Ok []
  | listing :: listings' =>
      let url := dict_get listing "url" (PStr []) in
      if truthy url then
        known <- set_contains seen_urls url ;;
        if known then remove_duplicates_from seen_urls listings'
        else
          unique_listings <- remove_duplicates_from (url :: seen_urls) listings' ;;
          Ok (listing :: unique_listings)
      else remove_duplicates_from seen_urls listings'
  end.

Definition remove_duplicates (listings : list pydict) : res (list pydict) :=
  remove_duplicates_from [] listings.

Definition gpu_indicators : list text :=
  ["rtx" : text; "gtx" : text; "radeon" : text; "rx " : text; "arc" : text;
   "graphics card" : text; "gpu" : text; "video card" : text; "nvidia" : text;
   "amd" : text; "intel" : text].

(** [BaseScraper.is_gpu_listing] *)
Definition is_gpu_listing (title description : text) : bool :=
  let txt := Str.lower (title ++ " " ++ description) in
  existsb (fun indicator => Str.contains indicator txt) gpu_indicators.

(** ** Static readings of a pattern *)

Module ReShape.
Import Re.

(** No first group occurs in [r]. *)
Fixpoint no_g1 (r : regex) : bool :=
  match r with
  | Group G1 _ => false
  | Group G2 a => no_g1 a
  | Seq a b | Alt a b => no_g1 a && no_g1 b
  | Star a | Opt a => no_g1 a
  | _ => true
  end.

(** [r] is a run of [n] digit atoms. *)
Fixpoint digits_rep (r : regex) : option nat :=
  match r with
  | Atom ADigit => Some 1
  | Seq (Atom ADigit) b => option_map S (digits_rep b)
  | _ => None
  end.

(** The first group of [r] is a run of [n] digits that every match closes
    and nothing later reopens. *)
Fixpoint g1_digits (r : regex) : option nat :=
  match r with
  | Group G1 a => digits_rep a
  | Seq a b =>
      match g1_digits b with
      | Some n => Some n
      | None => if no_g1 b then g1_digits a else None
      end
  | _ => None
  end.

(** Every match of [r] consumes a digit. *)
Fixpoint needs_digit (r : regex) : bool :=
  match r with
  | Atom ADigit => true
  | Seq a b => needs_digit a || needs_digit b
  | Alt a b => needs_digit a && needs_digit b
  | Group _ a => needs_digit a
  | _ => false
  end.

(** [a] is the pattern of the literal [w]. *)
Fixpoint is_lit (w : text) (a : regex) : bool :=
  match w, a with
  | [c], Atom (AChr c') => Ascii.eqb c c'
  | c :: w', Seq (Atom (AChr c')) a' => Ascii.eqb c c' && is_lit w' a'
  | _, _ => false
  end.

(** The literal [w] is one of the parts [r] is the sequence of, so that
    every match of [r] reads [w]. *)
Fixpoint reads (w : text) (r : regex) : bool :=
  match r with
  | Seq a b => is_lit w a || is_lit w b || reads w b
  | _ => false
  end.

End ReShape.

(** The series of an NVIDIA rule and the digits of the model it builds. *)
Definition nvidia_series_of (ser ds : text) : Prop :=
  (ser = "RTX 50" /\ Str.prefix "50" ds = true) \/
  (ser = "RTX 40" /\ Str.prefix "4" ds = true) \/
  (ser = "RTX 30" /\ Str.prefix "3" ds = true) \/
  ser = "RTX".

(** The series of an AMD rule and the digits of the model it builds. *)
Definition amd_series_of (ser ds : text) : Prop :=
  (ser = "RX 7000" /\ Str.prefix "7" ds = true) \/
  (ser = "RX 6000" /\ Str.prefix "6" ds = true).

(** The variant suffixes of an AMD model. *)
Definition amd_suffix (sfx : text) : Prop :=
  sfx = [] \/ sfx = " XT" \/ sfx = " GRE".

(** What every identity takes from the whole text. *)
Definition attached (txt : text) (g : GPUInfo) : Prop :=
  _extract_vram txt = Ok (vram g) /\
  card_manufacturer g = _extract_card_manufacturer txt /\
  confidence_score g = conf_match.

(** An identity built by the NVIDIA group: four digits, then " Ti" when the
    text contains "ti". *)
Definition nvidia_identity (txt : text) (g : GPUInfo) : Prop :=
  manufacturer g = "NVIDIA" /\
  exists ds,
    length ds = 4 /\ forallb Str.is_digit ds = true /\
    nvidia_series_of (series g) ds /\
    model g = (if Str.contains "ti" txt then ds ++ " Ti" else ds).

(** An identity built by the AMD group: four digits and a variant suffix. *)
Definition amd_identity (g : GPUInfo) : Prop :=
  manufacturer g = "AMD" /\
  exists ds sfx,
    length ds = 4 /\ forallb Str.is_digit ds = true /\ amd_suffix sfx /\
    amd_series_of (series g) ds /\ model g = ds ++ sfx.

(** An identity built by the Intel group: A or B and three digits. *)
Definition intel_identity (g : GPUInfo) : Prop :=
  manufacturer g = "Intel" /\ series g = "Arc" /\
  exists l ds,
    (l = "A"%char \/ l = "B"%char) /\ length ds = 3 /\
    forallb Str.is_digit ds = true /\ model g = l :: ds.

Definition some_match (table : list rule) (txt : text) : Prop :=
  exists r, In r table /\ rule_matches txt r.

Definition no_match (table : list rule) (txt : text) : Prop :=
  forall r, In r table -> Re.search true (fst r) txt = None.

(** The keys of a standardized listing, in the order of the literal. *)
Definition output_keys : list string :=
  ["title"; "description"; "price_text"; "standardized_price";
   "gpu_manufacturer"; "gpu_series"; "gpu_model"; "vram_gb";
   "card_manufacturer"; "confidence_score"; "url"; "marketplace";
   "scraped_at"; "listing_type"; "condition"; "location"; "seller_info";
   "is_sold"; "is_featured"; "shipping"; "posted_date"; "image_url"]%string.

(** The board partners of the catalog. *)
Definition brands : list text := map fst manufacturer_patterns.

(** Some alias of a brand is found in the text. *)
Definition brand_found (txt : text) (entry : text * list Re.regex) : bool :=
  existsb (fun pattern =>
             match Re.search true pattern txt with
             | Some _ => true
             | None => false
             end) (snd entry).

(** What a second normalization makes of a normalized condition. *)
Definition renormalized (c : text) : text :=
  if Str.eqb c "Like New" then "New" else c.

(** A character with an upper and a lower case. *)
Definition cased (c : ascii) : bool := Str.is_upper c || Str.is_lower c.

(** The invariant of a standardized listing. *)
Definition well_formed_output (out : pydict) : Prop :=
  (exists t, lookup out "title" = Some (PStr t) /\ t <> [] /\ Str.strip t = t) /\
  (exists d, lookup out "description" = Some (PStr d) /\ Str.strip d = d) /\
  (lookup out "standardized_price" = Some PNone \/
   exists p, lookup out "standardized_price" = Some (PFloat p) /\
             (10 # 1 <= p)%Q /\ (p <= 10000 # 1)%Q) /\
  (exists m s mdl,
     lookup out "gpu_manufacturer" = Some (PStr m) /\ In m vendors /\
     lookup out "gpu_series" = Some (PStr s) /\ s <> [] /\
     lookup out "gpu_model" = Some (PStr mdl) /\ mdl <> []) /\
  (lookup out "vram_gb" = Some PNone \/
   exists v, lookup out "vram_gb" = Some (PInt v) /\ (1 <= v <= 24)%Z) /\
  (lookup out "card_manufacturer" = Some PNone \/
   exists b, lookup out "card_manufacturer" = Some (PStr b) /\ In b brands) /\
  lookup out "confidence_score" = Some (PFloat (9 # 10)) /\
  (exists c, lookup out "condition" = Some (PStr c) /\ c <> []).

(** [u] is [l] with some elements left out. *)
Inductive subseq {A : Type} : list A -> list A -> Prop :=
| subseq_nil : subseq [] []
| subseq_skip x u l : subseq u l -> subseq u (x :: l)
| subseq_keep x u l : subseq u l -> subseq (x :: u) (x :: l).

(** The key [remove_duplicates] compares. *)
Definition url_of (listing : pydict) : pyval := dict_get listing "url" (PStr []).

(** A URL that is tested for membership and cannot be hashed. *)
Definition unhashable_url (listing : pydict) : bool :=
  match url_of listing with
  | PList (_ :: _) => true
  | _ => false
  end.

(** No listing has the URL of a listing before it. *)
Definition distinct_urls (l : list pydict) : Prop :=
  ForallOrdPairs (fun a b => py_eqb (url_of b) (url_of a) = false) l.

(** The accepted outputs of a batch, in the order of the batch. *)
Definition accepted_of (raw_listing : pydict) : list pydict :=
  match standardize_listing raw_listing with
  | Ok (Some out) => [out]
  | _ => []
  end.

(** A listing whose URL is not among the URLs already seen. *)
Definition fresh (seen_urls : list pyval) (listing : pydict) : Prop :=
  existsb (py_eqb (url_of listing)) seen_urls = false.

(** The last two steps of [GPUScraper.run_scraper] before the export. *)
Definition final_listings (raw_listings : list pydict) : res (list pydict) :=
  remove_duplicates (standardize_data raw_listings).

(** A batch with a repeated URL, a listing without URL and a listing that is
    no GPU. *)
Definition raw_batch : list pydict := [
  [("title", PStr "MSI RTX 4090 Gaming X Trio 24GB");
   ("url", PStr "https://example.org/1")];
  sample_listing;
  [("title", PStr "RTX 4080 Super"); ("url", PStr "https://example.org/1")];
  [("title", PStr "Gaming chair"); ("url", PStr "https://example.org/2")];
  [("title", PStr "RX 7900 XT"); ("url", PStr "https://example.org/3")]
].

Definition standardized_batch : list pydict :=
  Eval vm_compute in standardize_data raw_batch.

Definition final_batch : list pydict :=
  Eval vm_compute in
    match final_listings raw_batch with
    | Ok final => final
    | Raise _ => []
    end.

(** A target written without capital letters. *)
Definition no_capital (target : text) : bool := negb (existsb Str.is_upper target).

(** The configuration without the NVIDIA and AMD targets that have a capital
    letter. *)
Definition without_capitals (config : gpu_targets) : gpu_targets :=
  mkTargets (filter no_capital (nvidia_series config))
            (filter no_capital (amd_series config))
            (intel_models config).

(** The value under [key] is a string or is missing. *)
Definition str_field (raw_listing : pydict) (key : string) (t : text) : Prop :=
  dict_get raw_listing key (PStr []) = PStr t.

(** A text over ASCII and the pound sign: the alphabet on which the string
    primitives of this file are those of Python. *)
Fixpoint plain (t : text) : bool :=
  match t with
  | [] => true
  | c :: t' =>
      if (Str.code c <? 128)%N then plain t'
      else
        match t' with
        | c' :: t'' => (Str.code c =? 194)%N && (Str.code c' =? 163)%N && plain t''
        | [] => false
        end
  end.

(** Two plain texts that differ in letter case only. *)
Definition same_letters (a b : text) : Prop :=
  plain a = true /\ plain b = true /\ Str.lower a = Str.lower b.

(** [None], a boolean, a number or a string. *)
Definition scalar (v : pyval) : bool :=
  match v with
  | PNone | PBool _ | PInt _ | PFloat _ | PStr _ => true
  | PList _ => false
  end.

(** The keys whose value is [raw_listing.get(key)]. *)
Definition passed_keys : list string :=
  ["url"; "scraped_at"; "listing_type"; "location"; "seller_info"; "shipping";
   "posted_date"; "image_url"]%string.

(** * Properties *)

(** ** Strings *)

Module StrFacts.
Import Str.

Lemma prefix_spec w : forall t,
  prefix w t = true <-> exists post, t = w ++ post.
Proof.
  induction w as [|a w IH]; intros t; simpl.
  - split; [intros _; now exists t | reflexivity].
  - destruct t as [|b t]; simpl.
    + split; [discriminate | intros [post H]; discriminate].
    + rewrite andb_true_iff, Ascii.eqb_eq, IH. split.
      * intros [-> [post ->]]. now exists post.
      * intros [post H]. injection H as -> ->. split; [reflexivity | now exists post].
Qed.

Lemma contains_spec w : forall t,
  contains w t = true <-> exists pre post, t = pre ++ w ++ post.
Proof.
  induction t as [|c t IH]; simpl; rewrite orb_true_iff, prefix_spec.
  - split.
    + intros [[post H] | H]; [| discriminate]. now exists [], post.
    + intros [pre [post H]]. left. destruct pre; [now exists post | discriminate].
  - rewrite IH. split.
    + intros [[post H] | [pre [post H]]].
      * now exists [], post.
      * exists (c :: pre), post. simpl. now rewrite H.
    + intros [pre [post H]]. destruct pre as [|p pre]; simpl in H.
      * left. now exists post.
      * right. injection H as _ H. now exists pre, post.
Qed.

Lemma contains_lower w t :
  contains w t = true -> contains (lower w) (lower t) = true.
Proof.
  rewrite !contains_spec. intros [pre [post ->]].
  exists (lower pre), (lower post). unfold lower. now rewrite !map_app.
Qed.

Lemma contains_inner a w b t :
  contains (a ++ w ++ b) t = true -> contains w t = true.
Proof.
  rewrite !contains_spec. intros [pre [post ->]].
  exists (pre ++ a), (b ++ post). now rewrite <- !app_assoc.
Qed.

Lemma lstrip_idem t : lstrip (lstrip t) = lstrip t.
Proof.
  induction t as [|c t IH]; simpl; [reflexivity|].
  destruct (is_space c) eqn:E; [exact IH|]. simpl. now rewrite E.
Qed.

Lemma rstrip_cons_keep c t :
  is_space c = false -> exists r, rstrip (c :: t) = c :: r.
Proof.
  intros E. simpl. destruct (rstrip t) as [|x r].
  - rewrite E. now exists [].
  - now exists (x :: r).
Qed.

Lemma rstrip_idem t : rstrip (rstrip t) = rstrip t.
Proof.
  induction t as [|c t IH]; simpl; [reflexivity|].
  destruct (rstrip t) as [|x r] eqn:R.
  - destruct (is_space c) eqn:E; simpl; [reflexivity | now rewrite E].
  - change (rstrip (c :: x :: r) = c :: x :: r).
    cbn [rstrip] in *. now rewrite IH.
Qed.

Lemma lstrip_rstrip t : lstrip (rstrip t) = rstrip (lstrip t).
Proof.
  induction t as [|c t IH]; [reflexivity|].
  destruct (is_space c) eqn:E.
  - cbn [lstrip]. rewrite E, <- IH. cbn [rstrip].
    destruct (rstrip t) as [|x r]; rewrite ?E; cbn [lstrip]; now rewrite ?E.
  - cbn [lstrip]. rewrite E.
    destruct (rstrip_cons_keep c t E) as [r ->]. cbn [lstrip]. now rewrite E.
Qed.

Lemma strip_idem t : strip (strip t) = strip t.
Proof.
  unfold strip. now rewrite lstrip_rstrip, lstrip_idem, rstrip_idem.
Qed.

Lemma strip_cons_nonempty c t : is_space c = false -> strip (c :: t) <> [].
Proof.
  intros E. unfold strip. cbn [lstrip]. rewrite E.
  destruct (rstrip_cons_keep c t E) as [r ->]. discriminate.
Qed.

(** A word that neither starts nor ends with a blank survives [strip]. *)
Lemma lstrip_keeps c w : is_space c = false ->
  forall pre post, exists pre', lstrip (pre ++ c :: w ++ post) = pre' ++ c :: w ++ post.
Proof.
  intros E pre post. induction pre as [|p pre [pre' IH]]; simpl.
  - rewrite E. now exists [].
  - destruct (is_space p); [now exists pre' | now exists (p :: pre)].
Qed.

Lemma rstrip_keeps w c : is_space c = false ->
  forall post pre, exists post', rstrip (pre ++ w ++ c :: post) = pre ++ w ++ c :: post'.
Proof.
  intros E post pre.
  assert (H : forall l, exists post', rstrip (l ++ c :: post) = l ++ c :: post').
  { induction l as [|x l [post' IH]].
    - simpl app. destruct (rstrip_cons_keep c post E) as [r ->]. now exists r.
    - exists post'. cbn [app rstrip]. rewrite IH.
      destruct l; reflexivity. }
  destruct (H (pre ++ w)) as [post' Hp]. exists post'.
  now rewrite !app_assoc.
Qed.

Lemma contains_strip c w e t :
  is_space c = false -> is_space e = false ->
  contains (c :: w ++ [e]) t = true -> contains (c :: w ++ [e]) (strip t) = true.
Proof.
  intros Ec Ee. rewrite !contains_spec. intros [pre [post ->]].
  unfold strip. rewrite <- app_comm_cons.
  destruct (lstrip_keeps c (w ++ [e]) Ec pre post) as [pre' ->].
  replace (pre' ++ c :: (w ++ [e]) ++ post) with (pre' ++ (c :: w) ++ e :: post)
    by (simpl; now rewrite <- !app_assoc).
  destruct (rstrip_keeps (c :: w) e Ee post pre') as [post' ->].
  exists pre', post'. simpl. now rewrite <- !app_assoc.
Qed.

Lemma ends_with_app w t : ends_with w (t ++ w) = true.
Proof.
  unfold ends_with. rewrite rev_app_distr. apply prefix_spec. now exists (rev t).
Qed.

End StrFacts.

(** ** The matcher *)

Module ReFacts.
Import Re ReSpec.

Lemma orelse_some {A} (x y : option A) r :
  orelse x y = Some r -> x = Some r \/ (x = None /\ y = Some r).
Proof. destruct x; simpl; intros H; [left | right]; auto. Qed.

(** Soundness: whatever the matcher returns went through a state that
    [r] reaches from [s]. *)
Lemma m_sound ic r : forall k s res,
  m ic r k s = Some res ->
  exists s', step ic r s s' /\ k s' = Some res.
Proof.
  induction r as [|a| |a IHa b IHb|a IHa b IHb|a IHa|a IHa|g a IHa];
    intros k s res H; simpl in H.
  - exists s. now split.
  - destruct (rest s) as [|x xs] eqn:R; [discriminate|].
    destruct (atom_matches ic a x) eqn:M; [|discriminate].
    exists (advance x xs s). split; [|assumption]. now exists x, xs.
  - destruct (at_boundary s) eqn:B; [|discriminate].
    exists s. now repeat split.
  - apply IHa in H as [t [Ha H]]. apply IHb in H as [s' [Hb H]].
    exists s'. split; [now exists t | assumption].
  - apply orelse_some in H as [H | [_ H]].
    + apply IHa in H as [s' [Ha H]]. exists s'. split; [now left | assumption].
    + apply IHb in H as [s' [Hb H]]. exists s'. split; [now right | assumption].
  - revert H. generalize (length (rest s)). intros fuel. revert s.
    induction fuel as [|fuel IHf]; intros s H.
    + exists s. split; [constructor 1 | assumption].
    + apply orelse_some in H as [H | [_ H]].
      * apply IHa in H as [t [Ha H]]. apply IHf in H as [s' [Hs H]].
        exists s'. split; [|assumption]. simpl. econstructor 2; eauto.
      * exists s. split; [constructor 1 | assumption].
  - apply orelse_some in H as [H | [_ H]].
    + apply IHa in H as [s' [Ha H]]. exists s'. split; [now left | assumption].
    + exists s. split; [now right | assumption].
  - apply IHa in H as [t [Ha H]].
    exists (close g s t). split; [now exists t | assumption].
Qed.

Lemma match_here_sound ic r b t s :
  match_here ic r b t = Some s -> step ic r (init b t) s.
Proof.
  intros H. apply m_sound in H as [s' [Hs E]]. now injection E as <-.
Qed.

Lemma step_has1 ic r : forall s s',
  step ic r s s' -> closes1 r = true \/ has1 s -> has1 s'.
Proof.
  induction r as [|a| |a IHa b IHb|a IHa b IHb|a IHa|a IHa|g a IHa];
    intros s s' H C; simpl in H, C.
  - subst. destruct C; [discriminate | assumption].
  - destruct H as [x [xs [_ [_ ->]]]]. destruct C; [discriminate | assumption].
  - destruct H as [_ ->]. destruct C; [discriminate | assumption].
  - destruct H as [t [Ha Hb]]. apply (IHb t s' Hb).
    destruct C as [C | C].
    + apply orb_true_iff in C as [C | C]; [right | now left].
      apply (IHa s t Ha). now left.
    + right. apply (IHa s t Ha). now right.
  - destruct H as [H | H]; [apply (IHa _ _ H) | apply (IHb _ _ H)];
      (destruct C as [C | C]; [apply andb_true_iff in C as [C1 C2]; now left | now right]).
  - destruct C as [C | C]; [discriminate|].
    induction H as [s | s t s' Hst _ IH]; [assumption|].
    apply IH. apply (IHa _ _ Hst). now right.
  - destruct C as [C | C]; [discriminate|].
    destruct H as [H | ->]; [|assumption]. apply (IHa _ _ H). now right.
  - destruct H as [t [Ha ->]]. destruct g; simpl.
    + split; discriminate.
    + destruct (IHa _ _ Ha C) as [H1 _]. split; [assumption | discriminate].
Qed.

(** A pattern without groups leaves the capture registers alone. *)
Lemma step_no_groups ic r : no_groups r = true -> forall s s',
  step ic r s s' -> g1 s' = g1 s /\ g2 s' = g2 s /\ lastindex s' = lastindex s.
Proof.
  induction r as [|a| |a IHa b IHb|a IHa b IHb|a IHa|a IHa|g a IHa];
    intros N s s' H; simpl in H, N.
  - now subst.
  - destruct H as [x [xs [_ [_ ->]]]]. now repeat split.
  - destruct H as [_ ->]. now repeat split.
  - apply andb_true_iff in N as [Na Nb]. destruct H as [t [Ha Hb]].
    destruct (IHa Na _ _ Ha) as [? [? ?]]. destruct (IHb Nb _ _ Hb) as [? [? ?]].
    repeat split; congruence.
  - apply andb_true_iff in N as [Na Nb]. destruct H as [H | H]; auto.
  - induction H as [s | s t s' Hst _ IH]; [now repeat split|].
    destruct (IHa N _ _ Hst) as [? [? ?]]. destruct IH as [? [? ?]].
    repeat split; congruence.
  - destruct H as [H | ->]; [auto | now repeat split].
  - discriminate.
Qed.

Lemma search_from_eq ic r b pos t :
  search_from ic r b pos t =
  match match_here ic r b t with
  | Some s => Some (to_match pos s)
  | None =>
      match t with
      | [] => None
      | c :: t' => search_from ic r (Some c) (S pos) t'
      end
  end.
Proof. destruct t; reflexivity. Qed.

Lemma search_from_some ic r : forall t b pos mo,
  search_from ic r b pos t = Some mo ->
  exists b' t' pos' s, match_here ic r b' t' = Some s /\ mo = to_match pos' s.
Proof.
  induction t as [|c t IH]; intros b pos mo H; rewrite search_from_eq in H.
  - destruct (match_here ic r b []) as [s|] eqn:M; [|discriminate].
    injection H as <-. now exists b, [], pos, s.
  - destruct (match_here ic r b (c :: t)) as [s|] eqn:M.
    + injection H as <-. now exists b, (c :: t), pos, s.
    + now apply IH in H.
Qed.

Lemma search_closes1 ic r t mo :
  closes1 r = true -> search ic r t = Some mo ->
  exists g i, group1 mo = Some g /\ mo_lastindex mo = Some i.
Proof.
  intros C H. apply search_from_some in H as [b [t' [pos [s [M ->]]]]].
  apply match_here_sound in M.
  destruct (step_has1 ic r _ _ M (or_introl C)) as [H1 H2]. simpl.
  destruct (g1 s) as [g|]; [|contradiction].
  destruct (lastindex s) as [i|]; [|contradiction].
  now exists g, i.
Qed.

(** Completeness of the scan: a position at which the pattern matches is
    reached unless an earlier one matches. *)
Lemma search_from_app ic r t :
  (forall b, match_here ic r b t <> None) ->
  forall pre b pos, search_from ic r b pos (pre ++ t) <> None.
Proof.
  intros M pre. induction pre as [|c pre IH]; intros b pos;
    rewrite search_from_eq; simpl app.
  - destruct (match_here ic r b t) eqn:E; [discriminate | now apply M in E].
  - destruct (match_here ic r b (c :: pre ++ t)); [discriminate | apply IH].
Qed.

Lemma search_from_none ic r : forall t b pos,
  search_from ic r b pos t = None -> match_here ic r b t = None.
Proof.
  intros t b pos H. rewrite search_from_eq in H.
  destruct (match_here ic r b t); [discriminate | reflexivity].
Qed.

End ReFacts.

(** ** What a match consumes and captures *)

Module CaptureFacts.
Import Re ReSpec ReFacts.

Lemma seen_close g s t : seen (close g s t) = seen t.
Proof. now destruct g. Qed.

Lemma step_seen ic r : forall s s',
  step ic r s s' -> exists w, seen s' = rev w ++ seen s.
Proof.
  induction r as [|a| |a IHa b IHb|a IHa b IHb|a IHa|a IHa|g a IHa];
    intros s s' H; simpl in H.
  - subst. now exists [].
  - destruct H as [x [xs [_ [_ ->]]]]. now exists [x].
  - destruct H as [_ ->]. now exists [].
  - destruct H as [t [Ha Hb]].
    apply IHa in Ha as [w1 E1]. apply IHb in Hb as [w2 E2].
    exists (w1 ++ w2). now rewrite E2, E1, rev_app_distr, app_assoc.
  - destruct H as [H | H]; auto.
  - induction H as [s | s t s' Hst _ [w2 E2]]; [now exists []|].
    apply IHa in Hst as [w1 E1].
    exists (w1 ++ w2). now rewrite E2, E1, rev_app_distr, app_assoc.
  - destruct H as [H | ->]; [auto | now exists []].
  - destruct H as [t [Ha ->]]. rewrite seen_close. auto.
Qed.

Lemma captured_eq s s' w : seen s' = rev w ++ seen s -> captured s s' = w.
Proof.
  intros E. unfold captured. rewrite E, length_app.
  replace (length (rev w) + length (seen s) - length (seen s))
    with (length (rev w) + 0) by lia.
  now rewrite firstn_app_2, app_nil_r, rev_involutive.
Qed.

(** A first group that opens with an atom captures a text opening with a
    character of that atom. *)
Lemma group_first_atom ic a X s s' :
  step ic (Group G1 (Seq (Atom a) X)) s s' ->
  exists c w, atom_matches ic a c = true /\ g1 s' = Some (c :: w).
Proof.
  intros [t [[u [[x [xs [_ [M ->]]]] HX]] ->]].
  apply step_seen in HX as [w E]. exists x, w. split; [assumption|].
  simpl. f_equal. apply captured_eq. rewrite E. simpl. now rewrite <- app_assoc.
Qed.

Lemma search_step ic r t mo :
  search ic r t = Some mo ->
  exists b t' s, step ic r (init b t') s /\ group1 mo = g1 s.
Proof.
  intros H. apply search_from_some in H as [b [t' [pos [s [M ->]]]]].
  exists b, t', s. split; [now apply match_here_sound | reflexivity].
Qed.

End CaptureFacts.

(** ** The VRAM extractor *)

Module VramFacts.
Import Re ReSpec ReFacts.

Lemma vram_patterns_close1 : Forall (fun p => closes1 p = true) vram_patterns.
Proof. repeat constructor. Qed.

Section Scan.
Variable txt : text.

Lemma vram_from_hit p l v :
  vram_candidate p txt = Some v -> vram_in_range v = true ->
  _extract_vram_from (p :: l) txt = Ok (Some v).
Proof.
  unfold vram_candidate, vram_in_range. intros C R. simpl.
  destruct (search true p txt) as [mo|]; [|discriminate].
  destruct (group1 mo) as [g|]; [|discriminate].
  now rewrite C, R.
Qed.

Lemma vram_from_skip p l :
  closes1 p = true -> vram_rejected txt p ->
  _extract_vram_from (p :: l) txt = _extract_vram_from l txt.
Proof.
  unfold vram_rejected, vram_candidate, vram_in_range. intros C R. simpl.
  destruct (search true p txt) as [mo|] eqn:S; [|reflexivity].
  destruct (search_closes1 _ _ _ _ C S) as [g [i [G _]]]. rewrite G in *.
  destruct (int_of g) as [v|]; [|reflexivity]. now rewrite R.
Qed.

Lemma vram_from_char l :
  Forall (fun p => closes1 p = true) l ->
  match _extract_vram_from l txt with
  | Ok (Some v) =>
      exists pre p post, l = pre ++ p :: post /\
        Forall (vram_rejected txt) pre /\
        vram_candidate p txt = Some v /\ vram_in_range v = true
  | Ok None => Forall (vram_rejected txt) l
  | Raise _ => False
  end.
Proof.
  induction 1 as [|p l C _ IH]; [constructor|].
  destruct (vram_candidate p txt) as [v|] eqn:E.
  - destruct (vram_in_range v) eqn:R.
    + rewrite (vram_from_hit p l v E R). now exists [], p, l.
    + assert (Rj : vram_rejected txt p) by (unfold vram_rejected; now rewrite E).
      rewrite (vram_from_skip p l C Rj).
      destruct (_extract_vram_from l txt) as [[w|]|]; [|now constructor|assumption].
      destruct IH as [pre [q [post [-> [F H]]]]].
      exists (p :: pre), q, post. split; [reflexivity|]. split; [now constructor | assumption].
  - assert (Rj : vram_rejected txt p) by (unfold vram_rejected; now rewrite E).
    rewrite (vram_from_skip p l C Rj).
    destruct (_extract_vram_from l txt) as [[w|]|]; [|now constructor|assumption].
    destruct IH as [pre [q [post [-> [F H]]]]].
    exists (p :: pre), q, post. split; [reflexivity|]. split; [now constructor | assumption].
Qed.

Lemma vram_from_first pre : forall p post v,
  Forall (fun p => closes1 p = true) pre ->
  Forall (vram_rejected txt) pre ->
  vram_candidate p txt = Some v -> vram_in_range v = true ->
  _extract_vram_from (pre ++ p :: post) txt = Ok (Some v).
Proof.
  induction pre as [|q pre IH]; intros p post v C F E R.
  - now apply vram_from_hit.
  - inversion C; inversion F; subst. simpl app.
    rewrite vram_from_skip by assumption. now apply IH.
Qed.

Lemma vram_from_none l :
  Forall (fun p => closes1 p = true) l ->
  Forall (vram_rejected txt) l ->
  _extract_vram_from l txt = Ok None.
Proof.
  induction 1 as [|p l C _ IH]; intros F; [reflexivity|].
  inversion F; subst. rewrite vram_from_skip by assumption. now apply IH.
Qed.

End Scan.

Lemma extract_vram_total txt : exists r, _extract_vram txt = Ok r.
Proof.
  pose proof (vram_from_char txt _ vram_patterns_close1) as H.
  unfold _extract_vram. destruct (_extract_vram_from vram_patterns txt) as [r|e];
    [now exists r | contradiction].
Qed.

Lemma extract_vram_range txt v :
  _extract_vram txt = Ok (Some v) -> (1 <= v <= 24)%Z.
Proof.
  pose proof (vram_from_char txt _ vram_patterns_close1) as H.
  unfold _extract_vram. intros E. rewrite E in H.
  destruct H as [_ [_ [_ [_ [_ [_ R]]]]]]. unfold vram_in_range in R. lia.
Qed.

End VramFacts.

(** ** The GPU identity extractor *)

Module GpuFacts.
Import Re ReSpec ReFacts CaptureFacts VramFacts StrFacts.

Lemma for_first_match_inv {A B} (table : list (regex * A)) txt
  (body : match_obj -> A -> res (option B)) :
  (for_first_match table txt body = Ok None /\
   forall r, In r table -> search true (fst r) txt = None) \/
  (exists pre pattern info post mo,
     table = pre ++ (pattern, info) :: post /\
     (forall r, In r pre -> search true (fst r) txt = None) /\
     search true pattern txt = Some mo /\
     for_first_match table txt body = body mo info).
Proof.
  induction table as [|[pattern info] table IH]; simpl.
  - left. split; [reflexivity | intros r []].
  - destruct (search true pattern txt) as [mo|] eqn:S.
    + right. exists [], pattern, info, table, mo. repeat split; auto. intros r [].
    + destruct IH as [[E N] | [pre [q [i [post [mo [-> [N [S' E]]]]]]]]].
      * left. split; [assumption|]. intros r [<- | H]; auto.
      * right. exists ((pattern, info) :: pre), q, i, post, mo.
        repeat split; auto. intros r [<- | H]; auto.
Qed.

Lemma digit_not_space c : Str.is_digit c = true -> Str.is_space c = false.
Proof.
  destruct c as [[] [] [] [] [] [] [] []]; intros H;
    solve [reflexivity | discriminate H].
Qed.

Lemma arc_letter_solid c x :
  x = "a"%char \/ x = "b"%char ->
  atom_matches true (AChr x) c = true ->
  Str.is_space (Str.upper_char c) = false.
Proof.
  intros [-> | ->]; destruct c as [[] [] [] [] [] [] [] []]; intros H;
    solve [reflexivity | discriminate H].
Qed.

Lemma strip_solid t : starts_solid t -> Str.strip t <> [].
Proof. destruct t as [|c t]; [intros [] | apply strip_cons_nonempty]. Qed.

Lemma finish_ok man ser mdl txt :
  exists v,
    finish_gpu_info man ser mdl txt =
      Ok (Some (mkGPUInfo man ser mdl v (_extract_card_manufacturer txt) conf_match)) /\
    match v with Some z => (1 <= z <= 24)%Z | None => True end.
Proof.
  unfold finish_gpu_info. destruct (extract_vram_total txt) as [v E].
  rewrite E. simpl. exists v. split; [reflexivity|].
  destruct v as [z|]; [now apply (extract_vram_range txt) | exact I].
Qed.

Lemma lastindex_ge_1 mo i : mo_lastindex mo = Some i -> lastindex_ge mo 1 = Ok true.
Proof. unfold lastindex_ge. intros ->. now destruct i. Qed.

Lemma lastindex_ge_2 mo i : mo_lastindex mo = Some i ->
  exists b, lastindex_ge mo 2 = Ok b.
Proof. unfold lastindex_ge. intros ->. eauto. Qed.

(** What the NVIDIA loop body returns on a match whose first group took
    part. *)
Lemma nvidia_body_ok txt mo man ser tmpl g i :
  group1 mo = Some g -> mo_lastindex mo = Some i ->
  (forall g2, starts_solid (format tmpl g g2)) ->
  exists mdl v,
    mdl <> [] /\
    nvidia_body txt mo (man, ser, tmpl) =
      Ok (Some (mkGPUInfo man ser
                  (if Str.contains "ti" txt then mdl ++ " Ti" else mdl)
                  v (_extract_card_manufacturer txt) conf_match)) /\
    match v with Some z => (1 <= z <= 24)%Z | None => True end.
Proof.
  intros G L F. unfold nvidia_body.
  rewrite (lastindex_ge_1 mo i L). destruct (lastindex_ge_2 mo i L) as [b2 ->].
  cbn [bind]. rewrite G. cbn [str_of].
  set (mdl := Str.strip (format tmpl g _)).
  destruct (finish_ok man ser (if Str.contains "ti" txt then mdl ++ " Ti" else mdl) txt)
    as [v [E R]].
  exists mdl, v. split; [apply strip_solid, F | now split].
Qed.

Lemma amd_body_ok txt mo man ser tmpl g i :
  group1 mo = Some g -> mo_lastindex mo = Some i ->
  (forall g2, starts_solid (format tmpl g g2)) ->
  exists mdl v,
    mdl <> [] /\
    amd_body txt mo (man, ser, tmpl) =
      Ok (Some (mkGPUInfo man ser mdl v (_extract_card_manufacturer txt) conf_match)) /\
    match v with Some z => (1 <= z <= 24)%Z | None => True end.
Proof.
  intros G L F. unfold amd_body.
  rewrite (lastindex_ge_1 mo i L). destruct (lastindex_ge_2 mo i L) as [b2 ->].
  cbn [bind]. rewrite G. cbn [str_of].
  set (mdl := Str.strip (format tmpl g _)).
  destruct (finish_ok man ser mdl txt) as [v [E R]].
  exists mdl, v. split; [apply strip_solid, F | now split].
Qed.

Lemma intel_body_ok txt mo man ser tmpl g i :
  group1 mo = Some g -> mo_lastindex mo = Some i ->
  starts_solid (format tmpl (Str.upper g) []) ->
  exists mdl v,
    mdl <> [] /\
    intel_body txt mo (man, ser, tmpl) =
      Ok (Some (mkGPUInfo man ser mdl v (_extract_card_manufacturer txt) conf_match)) /\
    match v with Some z => (1 <= z <= 24)%Z | None => True end.
Proof.
  intros G L F. unfold intel_body.
  rewrite (lastindex_ge_1 mo i L). cbn [bind]. rewrite G. cbn [bind].
  set (mdl := Str.strip (format tmpl (Str.upper g) [])).
  destruct (finish_ok man ser mdl txt) as [v [E R]].
  exists mdl, v. split; [apply strip_solid, F | now split].
Qed.

End GpuFacts.

Module RuleFacts.
Import Re ReSpec ReFacts CaptureFacts VramFacts StrFacts GpuFacts.

(** Every rule of a literal table closes its first group. *)
Ltac rule_closes H :=
  simpl in H;
  repeat (destruct H as [H | H]; [injection H as <- _ _ _; reflexivity|]);
  destruct H.

(** The legacy rule captures four digits. *)
Lemma legacy_group1 txt mo :
  search true (seqs [Lit "geforce"; ws; Lit "rtx"; ws; Group G1 (Rep 4 d); ti]) txt
    = Some mo ->
  exists c w, Str.is_digit c = true /\ group1 mo = Some (c :: w).
Proof.
  intros S. apply search_step in S as [b [t' [s [H ->]]]].
  cbn [seqs] in H.
  destruct H as [t1 [_ H]]. destruct H as [t2 [_ H]].
  destruct H as [t3 [_ H]]. destruct H as [t4 [_ H]].
  destruct H as [t5 [HG HT]].
  apply group_first_atom in HG as [c [w [M G]]].
  destruct (step_no_groups true ti eq_refl _ _ HT) as [E _].
  exists c, w. split; [exact M | congruence].
Qed.

Lemma arc_model_group1 s s' :
  step true arc_model s s' ->
  exists c w, Str.is_space (Str.upper_char c) = false /\ g1 s' = Some (c :: w).
Proof.
  intros [t [[H | H] ->]].
  - assert (HG : step true (Group G1 (Seq (Atom (AChr "a")) (Rep 3 d))) s (close G1 s t))
      by (exists t; split; [exact H | reflexivity]).
    apply group_first_atom in HG as [c [w [M G]]].
    exists c, w. split; [|exact G]. eapply arc_letter_solid; [|exact M]. now left.
  - assert (HG : step true (Group G1 (Seq (Atom (AChr "b")) (Rep 3 d))) s (close G1 s t))
      by (exists t; split; [exact H | reflexivity]).
    apply group_first_atom in HG as [c [w [M G]]].
    exists c, w. split; [|exact G]. eapply arc_letter_solid; [|exact M]. now right.
Qed.

Lemma nvidia_rule_ok txt pattern man ser tmpl mo :
  In (pattern, (man, ser, tmpl)) nvidia_patterns ->
  search true pattern txt = Some mo ->
  exists g i,
    group1 mo = Some g /\ mo_lastindex mo = Some i /\
    (forall g2, starts_solid (format tmpl g g2)) /\
    man = "NVIDIA" /\ ser <> [].
Proof.
  intros H S.
  assert (C : closes1 pattern = true) by (clear S; rule_closes H).
  destruct (search_closes1 _ _ _ _ C S) as [g [i [G L]]].
  exists g, i. split; [exact G|]. split; [exact L|].
  unfold nvidia_patterns in H.
  repeat (destruct H as [H | H];
    [injection H as <- <- <- <-;
     try (split; [intros g2; reflexivity | split; [reflexivity | discriminate]]) |]).
  - destruct (legacy_group1 txt mo S) as [c [w [D G']]].
    rewrite G in G'. injection G' as ->.
    split; [intros g2; simpl; now apply digit_not_space|].
    split; [reflexivity | discriminate].
  - destruct H.
Qed.

Lemma amd_rule_ok txt pattern man ser tmpl mo :
  In (pattern, (man, ser, tmpl)) amd_patterns ->
  search true pattern txt = Some mo ->
  exists g i,
    group1 mo = Some g /\ mo_lastindex mo = Some i /\
    (forall g2, starts_solid (format tmpl g g2)) /\
    man = "AMD" /\ ser <> [].
Proof.
  intros H S.
  assert (C : closes1 pattern = true) by (clear S; rule_closes H).
  destruct (search_closes1 _ _ _ _ C S) as [g [i [G L]]].
  exists g, i. split; [exact G|]. split; [exact L|].
  unfold amd_patterns in H.
  repeat (destruct H as [H | H];
    [injection H as <- <- <- <-;
     split; [intros g2; reflexivity | split; [reflexivity | discriminate]] |]).
  destruct H.
Qed.

Lemma intel_rule_ok txt pattern man ser tmpl mo :
  In (pattern, (man, ser, tmpl)) intel_patterns ->
  search true pattern txt = Some mo ->
  exists g i,
    group1 mo = Some g /\ mo_lastindex mo = Some i /\
    starts_solid (format tmpl (Str.upper g) []) /\
    man = "Intel" /\ ser <> [].
Proof.
  intros H S.
  assert (C : closes1 pattern = true) by (clear S; rule_closes H).
  destruct (search_closes1 _ _ _ _ C S) as [g [i [G L]]].
  exists g, i. split; [exact G|]. split; [exact L|].
  assert (A : exists c w, Str.is_space (Str.upper_char c) = false /\ g = c :: w).
  { apply search_step in S as [b [t' [s [St E]]]]. rewrite G in E.
    unfold intel_patterns in H.
    destruct H as [H | [H | []]]; injection H as <- _ _ _; cbn [seqs] in St.
    - destruct St as [t1 [_ St]]. destruct St as [t2 [_ St]].
      apply arc_model_group1 in St as [c [w [Sp G']]].
      exists c, w. split; [exact Sp | congruence].
    - destruct St as [t1 [_ St]]. destruct St as [t2 [_ St]].
      destruct St as [t3 [_ St]]. destruct St as [t4 [_ St]].
      apply arc_model_group1 in St as [c [w [Sp G']]].
      exists c, w. split; [exact Sp | congruence]. }
  destruct A as [c [w [Sp ->]]].
  unfold intel_patterns in H.
  destruct H as [H | [H | []]]; injection H as _ <- <- <-;
    (split; [exact Sp | split; [reflexivity | discriminate]]).
Qed.

End RuleFacts.

Module ExtractFacts.
Import Re ReSpec ReFacts CaptureFacts VramFacts StrFacts GpuFacts RuleFacts.

Lemma app_model_nonempty (b : bool) (mdl suffix : text) :
  mdl <> [] -> (if b then mdl ++ suffix else mdl) <> [].
Proof. destruct b, mdl; simpl; intros H; congruence. Qed.

Lemma nvidia_outcome txt : outcome nvidia_patterns txt (_match_nvidia_patterns txt).
Proof.
  unfold _match_nvidia_patterns.
  destruct (for_first_match_inv nvidia_patterns txt (nvidia_body txt))
    as [[E N] | [pre [pat [[[man ser] tmpl] [post [mo [D [N [S E]]]]]]]]];
    rewrite E; [exact N|].
  assert (I : In (pat, (man, ser, tmpl)) nvidia_patterns)
    by (rewrite D; apply in_elt).
  destruct (nvidia_rule_ok txt _ _ _ _ _ I S) as [g [i [G [L [F [-> Hs]]]]]].
  destruct (nvidia_body_ok txt mo "NVIDIA" ser tmpl g i G L F) as [mdl [v [Hm [-> Hv]]]].
  split.
  - repeat split; simpl; auto. now apply app_model_nonempty.
  - exists (pat, ("NVIDIA" : text, ser, tmpl)). split; [exact I|].
    unfold rule_matches. simpl fst. rewrite S. discriminate.
Qed.

Lemma amd_outcome txt : outcome amd_patterns txt (_match_amd_patterns txt).
Proof.
  unfold _match_amd_patterns.
  destruct (for_first_match_inv amd_patterns txt (amd_body txt))
    as [[E N] | [pre [pat [[[man ser] tmpl] [post [mo [D [N [S E]]]]]]]]];
    rewrite E; [exact N|].
  assert (I : In (pat, (man, ser, tmpl)) amd_patterns)
    by (rewrite D; apply in_elt).
  destruct (amd_rule_ok txt _ _ _ _ _ I S) as [g [i [G [L [F [-> Hs]]]]]].
  destruct (amd_body_ok txt mo "AMD" ser tmpl g i G L F) as [mdl [v [Hm [-> Hv]]]].
  split.
  - repeat split; simpl; auto.
  - exists (pat, ("AMD" : text, ser, tmpl)). split; [exact I|].
    unfold rule_matches. simpl fst. rewrite S. discriminate.
Qed.

Lemma intel_outcome txt : outcome intel_patterns txt (_match_intel_patterns txt).
Proof.
  unfold _match_intel_patterns.
  destruct (for_first_match_inv intel_patterns txt (intel_body txt))
    as [[E N] | [pre [pat [[[man ser] tmpl] [post [mo [D [N [S E]]]]]]]]];
    rewrite E; [exact N|].
  assert (I : In (pat, (man, ser, tmpl)) intel_patterns)
    by (rewrite D; apply in_elt).
  destruct (intel_rule_ok txt _ _ _ _ _ I S) as [g [i [G [L [F [-> Hs]]]]]].
  destruct (intel_body_ok txt mo "Intel" ser tmpl g i G L F) as [mdl [v [Hm [-> Hv]]]].
  split.
  - repeat split; simpl; auto.
  - exists (pat, ("Intel" : text, ser, tmpl)). split; [exact I|].
    unfold rule_matches. simpl fst. rewrite S. discriminate.
Qed.

(** An identity is only returned when some rule matches the text. *)
Lemma accepted_matches title description g :
  extract_gpu_info title description = Ok (Some g) ->
  exists r, In r rules /\ rule_matches (combined title description) r.
Proof.
  unfold extract_gpu_info, rules. set (txt := combined title description).
  pose proof (nvidia_outcome txt) as Hn. pose proof (amd_outcome txt) as Ha.
  pose proof (intel_outcome txt) as Hi.
  destruct (_match_nvidia_patterns txt) as [[n|]|e]; cbn [bind]; [| |discriminate].
  { intros _. destruct Hn as [_ [r [I M]]]. exists r. split; [|exact M].
    apply in_or_app. now left. }
  destruct (_match_amd_patterns txt) as [[a|]|e]; cbn [bind]; [| |discriminate].
  { intros _. destruct Ha as [_ [r [I M]]]. exists r. split; [|exact M].
    apply in_or_app. right. apply in_or_app. now left. }
  destruct (_match_intel_patterns txt) as [[i|]|e]; cbn [bind]; try discriminate.
  intros _. destruct Hi as [_ [r [I M]]]. exists r. split; [|exact M].
  apply in_or_app. right. apply in_or_app. now right.
Qed.

End ExtractFacts.

(** C5. Whatever [extract_gpu_info] returns for a title and a description:
    a returned identity comes from a rule that matched the combined text and
    has a vendor among NVIDIA, AMD and Intel, a non-empty series, a non-empty
    model, confidence exactly 0.9 and a VRAM that is absent or within 1..24;
    [None] is returned exactly when no rule of the three groups matches; and
    the call never raises. *)
Theorem gpu_identity_invariant (title description : text) :
  match extract_gpu_info title description with
  | Ok (Some g) =>
      well_formed g /\
      exists r, In r rules /\ rule_matches (combined title description) r
  | Ok None =>
      forall r, In r rules -> ~ rule_matches (combined title description) r
  | Raise _ => False
  end.
Proof.
unfold extract_gpu_info. set (txt := combined title description).
pose proof (ExtractFacts.nvidia_outcome txt) as Hn.
destruct (_match_nvidia_patterns txt) as [[g|]|e]; cbn [bind]; [| |contradiction].
{ destruct Hn as [W [r [I M]]]. split; [exact W|].
  exists r. split; [|exact M]. unfold rules. apply in_or_app. now left. }
pose proof (ExtractFacts.amd_outcome txt) as Ha.
destruct (_match_amd_patterns txt) as [[g|]|e]; cbn [bind]; [| |contradiction].
{ destruct Ha as [W [r [I M]]]. split; [exact W|].
  exists r. split; [|exact M]. unfold rules. apply in_or_app. right.
  apply in_or_app. now left. }
pose proof (ExtractFacts.intel_outcome txt) as Hi.
destruct (_match_intel_patterns txt) as [[g|]|e]; cbn [bind]; [| |contradiction].
{ destruct Hi as [W [r [I M]]]. split; [exact W|].
  exists r. split; [|exact M]. unfold rules. apply in_or_app. right.
  apply in_or_app. now right. }
intros r I M. apply M. unfold rules in I.
apply in_app_or in I as [I | I]; [|apply in_app_or in I as [I | I]]; auto.
Qed.

Module TiFacts.
Import Re ReSpec ReFacts StrFacts GpuFacts RuleFacts.

Lemma rtx_40_matches_here b post :
  match_here true rtx_40 b ("rtx 4070 ti" ++ post) <> None.
Proof. vm_compute. discriminate. Qed.

Lemma rtx_40_found txt :
  Str.contains "rtx 4070 ti" txt = true -> search true rtx_40 txt <> None.
Proof.
  intros H. apply contains_spec in H as [pre [post ->]].
  apply search_from_app. intros b. apply rtx_40_matches_here.
Qed.

Lemma ti_suffix mdl : Str.ends_with "Ti" (mdl ++ " Ti") = true.
Proof.
  replace (mdl ++ " Ti") with ((mdl ++ " ") ++ "Ti") by now rewrite <- app_assoc.
  apply ends_with_app.
Qed.

End TiFacts.

(** C3, as amended.  For every title and description whose combined text
    contains "RTX 4070 Ti", the extractor returns an identity with
    manufacturer NVIDIA and a model ending in "Ti"; its series is "RTX 40"
    when the RTX 50 rule finds nothing in the text, and "RTX 50" when that
    rule, which is consulted first, finds a match. *)
Theorem rtx_4070_ti_identity (title description : text) :
  Str.contains "RTX 4070 Ti" (title ++ " " ++ description) = true ->
  exists g,
    extract_gpu_info title description = Ok (Some g) /\
    manufacturer g = "NVIDIA" /\
    Str.ends_with "Ti" (model g) = true /\
    (Re.search true rtx_50 (combined title description) = None -> series g = "RTX 40") /\
    (Re.search true rtx_50 (combined title description) <> None -> series g = "RTX 50").
Proof.
  intros H. apply StrFacts.contains_lower in H.
  change (Str.contains "rtx 4070 ti" (combined title description) = true) in H.
  unfold extract_gpu_info. set (txt := combined title description) in *.
  assert (T : Str.contains "ti" txt = true)
    by (apply (StrFacts.contains_inner "rtx 4070 " "ti" []); exact H).
  pose proof (TiFacts.rtx_40_found txt H) as F.
  unfold _match_nvidia_patterns, nvidia_patterns. cbn [for_first_match].
  destruct (Re.search true rtx_50 txt) as [mo|] eqn:S1.
  - assert (I : In (rtx_50, ("NVIDIA" : text, "RTX 50" : text, [TLit "50"; TGroup1]))
                   nvidia_patterns) by (left; reflexivity).
    destruct (RuleFacts.nvidia_rule_ok txt _ _ _ _ _ I S1) as [g [i [G [L [Fm _]]]]].
    destruct (GpuFacts.nvidia_body_ok txt mo "NVIDIA" "RTX 50" _ g i G L Fm)
      as [mdl [v [_ [-> _]]]].
    cbn [bind]. rewrite T. eexists. split; [reflexivity|]. cbn [manufacturer model series].
    repeat split; [apply TiFacts.ti_suffix | discriminate].
  - destruct (Re.search true rtx_40 txt) as [mo|] eqn:S2; [|contradiction].
    assert (I : In (rtx_40, ("NVIDIA" : text, "RTX 40" : text, [TLit "40"; TGroup1]))
                   nvidia_patterns) by (right; left; reflexivity).
    destruct (RuleFacts.nvidia_rule_ok txt _ _ _ _ _ I S2) as [g [i [G [L [Fm _]]]]].
    destruct (GpuFacts.nvidia_body_ok txt mo "NVIDIA" "RTX 40" _ g i G L Fm)
      as [mdl [v [_ [-> _]]]].
    cbn [bind]. rewrite T. eexists. split; [reflexivity|]. cbn [manufacturer model series].
    repeat split; [apply TiFacts.ti_suffix | intros C; now contradiction C].
Qed.

Lemma rtx_4070_ti_identity_witness :
  exists g,
    extract_gpu_info "NVIDIA GeForce RTX 4070 Ti 12GB GDDR6X Graphics Card" [] = Ok (Some g) /\
    manufacturer g = "NVIDIA" /\
    Str.ends_with "Ti" (model g) = true /\
    (Re.search true rtx_50
       (combined "NVIDIA GeForce RTX 4070 Ti 12GB GDDR6X Graphics Card" []) = None ->
     series g = "RTX 40") /\
    (Re.search true rtx_50
       (combined "NVIDIA GeForce RTX 4070 Ti 12GB GDDR6X Graphics Card" []) <> None ->
     series g = "RTX 50").
Proof.
  apply (rtx_4070_ti_identity "NVIDIA GeForce RTX 4070 Ti 12GB GDDR6X Graphics Card" []).
  vm_compute. reflexivity.
Defined.

(** C3, as stated, fails: in a text that also names an RTX 50 card the first
    NVIDIA rule matches, so the series is "RTX 50" although the text contains
    "RTX 4070 Ti". *)
Lemma rtx_50_takes_precedence :
  Str.contains "RTX 4070 Ti" (two_cards ++ " " ++ []) = true /\
  exists g,
    extract_gpu_info two_cards [] = Ok (Some g) /\
    series g = "RTX 50" /\ series g <> "RTX 40" /\ model g = "5090 Ti".
Proof.
  split; [vm_compute; reflexivity|].
  eexists. split; [vm_compute; reflexivity|].
  repeat split. discriminate.
Qed.

(** ** The listing standardizer *)

Module ListingFacts.
Import StrFacts.

Lemma method_strip_inv v t :
  method_strip v = Ok t -> exists t0, v = PStr t0 /\ t = Str.strip t0.
Proof. destruct v; simpl; intros H; try discriminate. injection H as <-. eauto. Qed.

Lemma method_strip_stripped v t : method_strip v = Ok t -> Str.strip t = t.
Proof. intros H. apply method_strip_inv in H as [t0 [_ ->]]. apply strip_idem. Qed.

Lemma try_except_total {A} (body : res (option A)) :
  exists r, try_except body (fun _ => Ok None) = Ok r.
Proof. destruct body as [r|e]; simpl; eauto. Qed.

Lemma standardize_condition_str c : exists r, _standardize_condition (PStr c) = Ok r.
Proof.
  unfold _standardize_condition. destruct (negb (truthy (PStr c))); [eauto|].
  destruct (scan_conditions _ _); eauto.
Qed.

Lemma try_accept raw title description price_text g price condition :
  method_strip (dict_get raw "title" (PStr [])) = Ok title ->
  method_strip (dict_get raw "description" (PStr [])) = Ok description ->
  method_strip (dict_get raw "price" (PStr [])) = Ok price_text ->
  title <> [] ->
  extract_gpu_info title description = Ok (Some g) ->
  Qlt_bool (confidence_score g) conf_threshold = false ->
  extract_price price_text = Ok price ->
  _standardize_condition (dict_get raw "condition" (PStr [])) = Ok condition ->
  standardize_listing_try raw =
    Ok (Some (standardized raw title description price_text g price condition)).
Proof.
  intros Ht Hd Hp Hn Hg Hc Hpr Hco. unfold standardize_listing_try.
  rewrite Ht, Hd, Hp. cbn [bind].
  destruct title as [|c title]; [contradiction|].
  rewrite Hg. cbn [bind]. rewrite Hc, Hpr. cbn [bind]. rewrite Hco. reflexivity.
Qed.

Lemma try_inv raw S :
  standardize_listing_try raw = Ok (Some S) ->
  exists title description price_text g price condition,
    method_strip (dict_get raw "title" (PStr [])) = Ok title /\
    method_strip (dict_get raw "description" (PStr [])) = Ok description /\
    method_strip (dict_get raw "price" (PStr [])) = Ok price_text /\
    title <> [] /\
    extract_gpu_info title description = Ok (Some g) /\
    Qlt_bool (confidence_score g) conf_threshold = false /\
    extract_price price_text = Ok price /\
    _standardize_condition (dict_get raw "condition" (PStr [])) = Ok condition /\
    S = standardized raw title description price_text g price condition.
Proof.
  unfold standardize_listing_try.
  destruct (method_strip (dict_get raw "title" (PStr []))) as [title|] eqn:Ht;
    [|discriminate].
  destruct (method_strip (dict_get raw "description" (PStr []))) as [description|] eqn:Hd;
    [|discriminate].
  destruct (method_strip (dict_get raw "price" (PStr []))) as [price_text|] eqn:Hp;
    [|discriminate].
  cbn [bind]. destruct title as [|c title]; [discriminate|].
  destruct (extract_gpu_info (c :: title) description) as [[g|]|] eqn:Hg; cbn [bind];
    try discriminate.
  destruct (Qlt_bool (confidence_score g) conf_threshold) eqn:Hc; [discriminate|].
  destruct (extract_price price_text) as [price|] eqn:Hpr; cbn [bind]; [|discriminate].
  destruct (_standardize_condition (dict_get raw "condition" (PStr [])))
    as [condition|] eqn:Hco; cbn [bind]; [|discriminate].
  intros H. injection H as <-.
  exists (c :: title), description, price_text, g, price, condition.
  repeat split; try assumption; try reflexivity. discriminate.
Qed.

Lemma standardize_inv raw S :
  standardize_listing raw = Ok (Some S) -> standardize_listing_try raw = Ok (Some S).
Proof.
  unfold standardize_listing, try_except.
  destruct (standardize_listing_try raw); [auto | discriminate].
Qed.

Lemma standardize_of_try raw r :
  standardize_listing_try raw = Ok r -> standardize_listing raw = Ok r.
Proof. unfold standardize_listing. now intros ->. Qed.

(** Rejections of the [try] block surface as [None], whether they come
    from a [return None] or from an exception. *)
Lemma standardize_none raw :
  (forall S, standardize_listing_try raw <> Ok (Some S)) ->
  standardize_listing raw = Ok None.
Proof.
  unfold standardize_listing, try_except. intros H.
  destruct (standardize_listing_try raw) as [[S|]|e]; try reflexivity.
  now destruct (H S).
Qed.

End ListingFacts.

(** C8. [standardize_listing] never lets an exception out: on every raw
    listing, whatever the types of its fields, it returns a mapping or
    [None].  It returns [None] when the title is not a string, when the title
    is empty after trimming, and when no GPU rule matches the combined
    trimmed title and description. *)
Theorem standardize_listing_never_raises (raw_listing : pydict) :
  (exists r, standardize_listing raw_listing = Ok r) /\
  (forall v, dict_get raw_listing "title" (PStr []) = v ->
     (forall t, v <> PStr t) -> standardize_listing raw_listing = Ok None) /\
  (forall t, dict_get raw_listing "title" (PStr []) = PStr t ->
     Str.strip t = [] -> standardize_listing raw_listing = Ok None) /\
  (forall t, dict_get raw_listing "title" (PStr []) = PStr t ->
     (forall d, dict_get raw_listing "description" (PStr []) = PStr d ->
        forall r, In r rules -> ~ rule_matches (combined (Str.strip t) (Str.strip d)) r) ->
     standardize_listing raw_listing = Ok None).
Proof.
  split; [apply ListingFacts.try_except_total|].
  split; [|split].
  - intros v Hv Hn. apply ListingFacts.standardize_none. intros S HS.
    apply ListingFacts.try_inv in HS as [title [d [p [g [pr [co [Ht _]]]]]]].
    apply ListingFacts.method_strip_inv in Ht as [t0 [E _]].
    rewrite Hv in E. now apply (Hn t0).
  - intros t Hv He. apply ListingFacts.standardize_none. intros S HS.
    apply ListingFacts.try_inv in HS as [title [d [p [g [pr [co [Ht [_ [_ [Hne _]]]]]]]]]].
    apply ListingFacts.method_strip_inv in Ht as [t0 [E ->]].
    rewrite Hv in E. injection E as <-. contradiction.
  - intros t Hv Hno. apply ListingFacts.standardize_none. intros S HS.
    apply ListingFacts.try_inv in HS
      as [title [d [p [g [pr [co [Ht [Hd [_ [_ [Hg _]]]]]]]]]]].
    apply ListingFacts.method_strip_inv in Ht as [t0 [E ->]].
    rewrite Hv in E. injection E as <-.
    apply ListingFacts.method_strip_inv in Hd as [d0 [Ed ->]].
    destruct (ExtractFacts.accepted_matches _ _ _ Hg) as [r [I M]].
    exact (Hno d0 Ed r I M).
Qed.

Module IdempotenceFacts.
Import StrFacts ListingFacts.

Section Output.
Variables (raw : pydict) (t d p : text) (g : GPUInfo) (pr : option Q) (c : text).

Lemma out_title dflt :
  dict_get (standardized raw t d p g pr c) "title" dflt = PStr t.
Proof. reflexivity. Qed.

Lemma out_description dflt :
  dict_get (standardized raw t d p g pr c) "description" dflt = PStr d.
Proof. reflexivity. Qed.

Lemma out_gpu_keys raw' p' pr' c' :
  Forall (fun key => exists v,
            lookup (standardized raw t d p g pr c) key = Some v /\
            lookup (standardized raw' t d p' g pr' c') key = Some v) gpu_keys.
Proof. repeat constructor; eexists; split; reflexivity. Qed.

End Output.

End IdempotenceFacts.

(** C9. A listing that [standardize_listing] accepts, with output [S], can be
    fed back: the call on [S] does not raise and accepts, and its output
    carries the same title and description and the same GPU manufacturer,
    series, model, VRAM, card manufacturer and confidence score as [S]. *)
Theorem standardize_listing_idempotent (raw_listing S : pydict) :
  standardize_listing raw_listing = Ok (Some S) ->
  exists S',
    standardize_listing S = Ok (Some S') /\
    Forall (fun key => exists v, lookup S key = Some v /\ lookup S' key = Some v) gpu_keys.
Proof.
  intros H. apply ListingFacts.standardize_inv in H.
  apply ListingFacts.try_inv in H
    as [t [d [p [g [pr [c [Ht [Hd [Hp [Hn [Hg [Hc [Hpr [Hco ->]]]]]]]]]]]]]].
  destruct (ListingFacts.standardize_condition_str c) as [c' Hc'].
  exists (standardized (standardized raw_listing t d p g pr c) t d [] g None c').
  split.
  - apply ListingFacts.standardize_of_try, ListingFacts.try_accept;
      try assumption; try reflexivity.
    + rewrite IdempotenceFacts.out_title. simpl.
      now rewrite (ListingFacts.method_strip_stripped _ _ Ht).
    + rewrite IdempotenceFacts.out_description. simpl.
      now rewrite (ListingFacts.method_strip_stripped _ _ Hd).
  - apply IdempotenceFacts.out_gpu_keys.
Qed.

Lemma standardize_listing_idempotent_witness :
  standardize_listing sample_listing = Ok (Some sample_output) /\
  exists S',
    standardize_listing sample_output = Ok (Some S') /\
    Forall (fun key => exists v,
              lookup sample_output key = Some v /\ lookup S' key = Some v) gpu_keys.
Proof.
  split; [vm_compute; reflexivity|].
  apply (standardize_listing_idempotent sample_listing sample_output).
  vm_compute. reflexivity.
Defined.

(** ** The condition normalizer *)

Module ConditionFacts.
Import StrFacts.

Lemma scan_first pre : forall cat variants post t,
  (forall e, In e pre -> occurs t e = false) ->
  occurs t (cat, variants) = true ->
  scan_conditions (pre ++ (cat, variants) :: post) t = Some (Str.title cat).
Proof.
  induction pre as [|[c vs] pre IH]; intros cat variants post t N O; simpl.
  - unfold occurs in O. simpl in O. now rewrite O.
  - pose proof (N (c, vs) (or_introl eq_refl)) as E. unfold occurs in E. simpl in E.
    rewrite E. apply IH; [|exact O]. intros e I. apply N. now right.
Qed.

Lemma scan_none table : forall t,
  (forall e, In e table -> occurs t e = false) ->
  scan_conditions table t = None.
Proof.
  induction table as [|[c vs] table IH]; intros t N; simpl; [reflexivity|].
  pose proof (N (c, vs) (or_introl eq_refl)) as E. unfold occurs in E. simpl in E.
  rewrite E. apply IH. intros e I. apply N. now right.
Qed.

Lemma nonempty_truthy c : c <> [] -> negb (truthy (PStr c)) = false.
Proof. destruct c; [contradiction | reflexivity]. Qed.

Lemma new_survives_strip t :
  Str.contains "new" t = true -> Str.contains "new" (Str.strip t) = true.
Proof. apply (contains_strip "n"%char ["e"%char] "w"%char); reflexivity. Qed.

End ConditionFacts.

(** C10. Every non-empty condition string that contains "new" in any letter
    case is normalized to "New": the variant "new" of the first category is
    found before any later category is looked at, so "Like New" itself comes
    back as "New". *)
Theorem new_shadows_like_new (c : text) :
  c <> [] ->
  Str.contains "new" (Str.lower c) = true ->
  _standardize_condition (PStr c) = Ok ("New" : text).
Proof.
  intros Hn H. unfold _standardize_condition.
  rewrite (ConditionFacts.nonempty_truthy c Hn).
  apply ConditionFacts.new_survives_strip in H.
  unfold condition_map. cbn [scan_conditions existsb]. rewrite H. reflexivity.
Qed.

Lemma new_shadows_like_new_witness :
  ("Like New" : text) <> [] /\
  Str.contains "new" (Str.lower "Like New") = true /\
  _standardize_condition (PStr "Like New") = Ok ("New" : text).
Proof.
  split; [discriminate|]. split; [reflexivity|].
  apply (new_shadows_like_new "Like New"); [discriminate | reflexivity].
Defined.

(** C2.  The empty string maps to "Unknown".  A non-empty string is
    lowercased and trimmed and the categories are scanned in the order New,
    Like New, Good, Fair, Poor (the variants of a category in the declared
    order, any of them counting for the category): the first category one of
    whose variants occurs in the text is returned title-cased, and when no
    variant occurs the original input itself is returned title-cased, not
    the placeholder "Unknown".  "Brand New" gives "New" and "slightly scuffed"
    gives "Slightly Scuffed". *)
Theorem condition_scan_order (c : text) :
  _standardize_condition (PStr []) = Ok ("Unknown" : text) /\
  map (fun e => Str.title (fst e)) condition_map =
    ["New" : text; "Like New" : text; "Good" : text; "Fair" : text; "Poor" : text] /\
  (c <> [] ->
   forall pre cat variants post,
     condition_map = pre ++ (cat, variants) :: post ->
     (forall e v, In e pre -> In v (snd e) ->
        Str.contains v (Str.strip (Str.lower c)) = false) ->
     (exists v, In v variants /\ Str.contains v (Str.strip (Str.lower c)) = true) ->
     _standardize_condition (PStr c) = Ok (Str.title cat)) /\
  (c <> [] ->
   (forall e v, In e condition_map -> In v (snd e) ->
      Str.contains v (Str.strip (Str.lower c)) = false) ->
   _standardize_condition (PStr c) = Ok (Str.title c)) /\
  _standardize_condition (PStr "Brand New") = Ok ("New" : text) /\
  _standardize_condition (PStr "slightly scuffed") = Ok ("Slightly Scuffed" : text).
Proof.
  split; [reflexivity|]. split; [reflexivity|]. split; [|split; [|split; reflexivity]].
  - intros Hn pre cat variants post D N [v [I O]].
    unfold _standardize_condition. rewrite (ConditionFacts.nonempty_truthy c Hn), D.
    rewrite (ConditionFacts.scan_first pre cat variants post); [reflexivity| |].
    + intros e Ie. unfold occurs.
      destruct (existsb _ (snd e)) eqn:E; [|reflexivity].
      apply existsb_exists in E as [w [Iw Ow]]. now rewrite (N e w Ie Iw) in Ow.
    + unfold occurs. apply existsb_exists. now exists v.
  - intros Hn N.
    unfold _standardize_condition. rewrite (ConditionFacts.nonempty_truthy c Hn).
    rewrite ConditionFacts.scan_none; [reflexivity|].
    intros e Ie. unfold occurs.
    destruct (existsb _ (snd e)) eqn:E; [|reflexivity].
    apply existsb_exists in E as [w [Iw Ow]]. now rewrite (N e w Ie Iw) in Ow.
Qed.

(** ** The sample listing *)

(** C1, as amended.  On the sample listing the standardizer returns a mapping
    with manufacturer NVIDIA, series "RTX 40", model "4090", 24 GB of VRAM,
    card manufacturer MSI, price 1450.0 and condition "Like New": the
    variant "excellent" belongs to the Like New category. *)
Theorem sample_listing_standardized :
  exists out,
    standardize_listing sample_listing = Ok (Some out) /\
    lookup out "gpu_manufacturer" = Some (PStr "NVIDIA") /\
    lookup out "gpu_series" = Some (PStr "RTX 40") /\
    lookup out "gpu_model" = Some (PStr "4090") /\
    lookup out "vram_gb" = Some (PInt 24) /\
    lookup out "card_manufacturer" = Some (PStr "MSI") /\
    lookup out "standardized_price" = Some (PFloat (1450 # 1)) /\
    lookup out "condition" = Some (PStr "Like New").
Proof.
  exists sample_output. split; [vm_compute; reflexivity|].
  repeat split; reflexivity.
Qed.

(** C1, as stated, fails: the condition of the sample output is not "Good". *)
Lemma sample_condition_is_not_good :
  ~ exists out,
      standardize_listing sample_listing = Ok (Some out) /\
      lookup out "gpu_manufacturer" = Some (PStr "NVIDIA") /\
      lookup out "gpu_series" = Some (PStr "RTX 40") /\
      lookup out "gpu_model" = Some (PStr "4090") /\
      lookup out "vram_gb" = Some (PInt 24) /\
      lookup out "card_manufacturer" = Some (PStr "MSI") /\
      lookup out "standardized_price" = Some (PFloat (1450 # 1)) /\
      lookup out "condition" = Some (PStr "Good").
Proof.
  intros [out [H [_ [_ [_ [_ [_ [_ C]]]]]]]].
  assert (E : standardize_listing sample_listing = Ok (Some sample_output))
    by (vm_compute; reflexivity).
  rewrite E in H. injection H as <-. discriminate C.
Qed.

(** C7. [_extract_vram] never raises and returns the value offered by the
    first of its four patterns, in order, whose candidate (the integer read
    from the digits captured by the leftmost match) lies in 1..24; it returns
    [None] exactly when every pattern offers nothing or a value out of range.
    "12GB GDDR6X" gives 12, "33GB" and the empty text give [None]. *)
Theorem extract_vram_first_accepted (txt : text) :
  (exists r, _extract_vram txt = Ok r) /\
  (forall v, _extract_vram txt = Ok (Some v) <->
     exists pre p post,
       vram_patterns = pre ++ p :: post /\
       Forall (vram_rejected txt) pre /\
       vram_candidate p txt = Some v /\ (1 <= v <= 24)%Z) /\
  (_extract_vram txt = Ok None <-> Forall (vram_rejected txt) vram_patterns) /\
  length vram_patterns = 4 /\
  _extract_vram "12GB GDDR6X" = Ok (Some 12%Z) /\
  _extract_vram "33GB" = Ok None /\
  _extract_vram [] = Ok None.
Proof.
  pose proof (VramFacts.vram_from_char txt _ VramFacts.vram_patterns_close1) as C.
  unfold _extract_vram in *.
  split; [apply VramFacts.extract_vram_total|].
  split; [|split; [|repeat split; vm_compute; reflexivity]].
  - intros v. split.
    + intros E. rewrite E in C. destruct C as [pre [p [post [D [F [Cd R]]]]]].
      exists pre, p, post. repeat split; try assumption;
        unfold vram_in_range in R; lia.
    + intros [pre [p [post [D [F [Cd R]]]]]]. rewrite D.
      apply VramFacts.vram_from_first; try assumption.
      * pose proof VramFacts.vram_patterns_close1 as A. rewrite D in A.
        now apply Forall_app in A as [A _].
      * unfold vram_in_range. apply andb_true_iff. split; apply Z.leb_le; lia.
  - split.
    + intros E. now rewrite E in C.
    + apply VramFacts.vram_from_none, VramFacts.vram_patterns_close1.
Qed.

(** ** The target filter *)

Module TargetFacts.

Lemma existsb_ext_in {A} (f g : A -> bool) l :
  (forall x, In x l -> f x = g x) -> existsb f l = existsb g l.
Proof.
  induction l as [|x l IH]; intros H; simpl; [reflexivity|].
  rewrite (H x (or_introl eq_refl)), IH; [reflexivity|].
  intros y I. apply H. now right.
Qed.

(** On a configuration whose targets are written in lower case the filter
    is the case-insensitive test. *)
Lemma lowercase_targets_agree g config :
  Forall (fun s => Str.lower s = s) (nvidia_series config) ->
  Forall (fun s => Str.lower s = s) (amd_series config) ->
  validate_gpu_targets (Some g) config = matches_target_ci g config.
Proof.
  intros Hn Ha. unfold validate_gpu_targets, matches_target_ci, targets_for.
  rewrite Forall_forall in Hn, Ha.
  destruct (Str.eqb (Str.lower (manufacturer g)) "nvidia").
  - apply existsb_ext_in. intros s I. now rewrite (Hn s I).
  - destruct (Str.eqb (Str.lower (manufacturer g)) "amd").
    + apply existsb_ext_in. intros s I. now rewrite (Ha s I).
    + destruct (Str.eqb (Str.lower (manufacturer g)) "intel"); reflexivity.
Qed.

End TargetFacts.

(** C4 fails on the code.  The AMD identity extracted from a Radeon RX 7800 XT
    title has model "7800 XT"; with the target "7800 XT" configured for AMD
    the case-insensitive test of the specification succeeds, yet
    [validate_gpu_targets] answers false, because the NVIDIA and AMD branches
    compare the unchanged target with the lowercased model.  The Intel branch
    lowercases its targets and accepts "B580" for the model "B580". *)
Theorem amd_target_compared_case_sensitively :
  extract_gpu_info "AMD Radeon RX 7800 XT 16GB Gaming GPU" [] = Ok (Some xt_card) /\
  matches_target_ci xt_card xt_targets = true /\
  validate_gpu_targets (Some xt_card) xt_targets = false /\
  matches_target_ci arc_card arc_targets = true /\
  validate_gpu_targets (Some arc_card) arc_targets = true.
Proof. repeat split; vm_compute; reflexivity. Qed.

(** ** The price extractor *)

Module PriceFacts.

Lemma spec_examples :
  extract_price "£450.00" = Ok (Some (450 # 1)%Q) /\
  extract_price "450.00 ono" = Ok (Some (450 # 1)%Q) /\
  extract_price "£50000" = Ok None /\
  extract_price [] = Ok None.
Proof. repeat split; vm_compute; reflexivity. Qed.

Lemma price_patterns_close1 :
  Forall (fun p => ReSpec.closes1 p = true) price_patterns.
Proof. repeat constructor. Qed.

(** The price loop never raises: group 1 takes part in every match. *)
Lemma extract_price_from_total cleaned : forall patterns,
  Forall (fun p => ReSpec.closes1 p = true) patterns ->
  exists r, extract_price_from patterns cleaned = Ok r.
Proof.
  induction 1 as [|p l C _ [r IH]]; simpl; [eauto|].
  destruct (Re.search false p cleaned) as [mo|] eqn:S; [|eauto].
  destruct (ReFacts.search_closes1 _ _ _ _ C S) as [g [i [G _]]]. rewrite G.
  destruct (float_of _) as [price|]; [|eauto].
  destruct (in_band price); eauto.
Qed.

Lemma extract_price_total price_text : exists r, extract_price price_text = Ok r.
Proof.
  unfold extract_price. destruct price_text; [eauto|].
  apply extract_price_from_total, price_patterns_close1.
Qed.

(** An accepted price lies in the band. *)
Lemma extract_price_from_band cleaned price : forall patterns,
  extract_price_from patterns cleaned = Ok (Some price) -> in_band price = true.
Proof.
  induction patterns as [|p l IH]; simpl; [discriminate|].
  destruct (Re.search false p cleaned) as [mo|]; [|exact IH].
  destruct (Re.group1 mo) as [g|]; [|discriminate].
  destruct (float_of _) as [q|]; [|exact IH].
  destruct (in_band q) eqn:B; [|exact IH].
  intros H. injection H as <-. exact B.
Qed.

Section Scan.
Variable cleaned : text.

Lemma price_from_hit p l v :
  price_candidate p cleaned = Some v -> in_band v = true ->
  extract_price_from (p :: l) cleaned = Ok (Some v).
Proof.
  unfold price_candidate. intros C B. simpl.
  destruct (Re.search false p cleaned) as [mo|]; [|discriminate].
  destruct (Re.group1 mo) as [g|]; [|discriminate].
  now rewrite C, B.
Qed.

Lemma price_from_skip p l :
  ReSpec.closes1 p = true -> price_rejected cleaned p ->
  extract_price_from (p :: l) cleaned = extract_price_from l cleaned.
Proof.
  unfold price_rejected, price_candidate. intros C R. simpl.
  destruct (Re.search false p cleaned) as [mo|] eqn:S; [|reflexivity].
  destruct (ReFacts.search_closes1 _ _ _ _ C S) as [g [i [G _]]]. rewrite G in *.
  destruct (float_of _) as [v|]; [|reflexivity]. now rewrite R.
Qed.

(** The loop returns the candidate of the first pattern whose candidate lies
    in the band, and [None] when no pattern has one. *)
Lemma price_from_char l :
  Forall (fun p => ReSpec.closes1 p = true) l ->
  match extract_price_from l cleaned with
  | Ok (Some v) =>
      exists pre p post, l = pre ++ p :: post /\
        Forall (price_rejected cleaned) pre /\
        price_candidate p cleaned = Some v /\ in_band v = true
  | Ok None => Forall (price_rejected cleaned) l
  | Raise _ => False
  end.
Proof.
  induction 1 as [|p l C _ IH]; [constructor|].
  assert (Skip : price_rejected cleaned p ->
    match extract_price_from (p :: l) cleaned with
    | Ok (Some v) =>
        exists pre q post, p :: l = pre ++ q :: post /\
          Forall (price_rejected cleaned) pre /\
          price_candidate q cleaned = Some v /\ in_band v = true
    | Ok None => Forall (price_rejected cleaned) (p :: l)
    | Raise _ => False
    end).
  { intros Rj. rewrite (price_from_skip p l C Rj).
    destruct (extract_price_from l cleaned) as [[w|]|]; [|now constructor|assumption].
    destruct IH as [pre [q [post [-> [F H]]]]].
    exists (p :: pre), q, post. split; [reflexivity|]. split; [now constructor | assumption]. }
  destruct (price_candidate p cleaned) as [v|] eqn:E.
  - destruct (in_band v) eqn:B.
    + rewrite (price_from_hit p l v E B). now exists [], p, l.
    + apply Skip. unfold price_rejected. now rewrite E.
  - apply Skip. unfold price_rejected. now rewrite E.
Qed.

End Scan.

End PriceFacts.

Module ModifierFacts.
Import Re.

(** The state after the literal [w] has been read from [s]. *)
Lemma lit_match w : forall k s,
  m false (Lit w) k s =
  if Str.prefix w (rest s)
  then k (MState (before s) (rev w ++ seen s) (skipn (length w) (rest s))
                 (g1 s) (g2 s) (lastindex s))
  else None.
Proof.
  induction w as [|c w IH]; intros k s.
  - simpl. now destruct s.
  - assert (A : m false (Lit (c :: w)) k s =
                m false (Atom (AChr c)) (m false (Lit w) k) s)
      by (destruct w; reflexivity).
    rewrite A. cbn [m Str.prefix]. destruct (rest s) as [|x xs] eqn:R; [reflexivity|].
    cbn [atom_matches]. rewrite (Ascii.eqb_sym c x).
    destruct (Ascii.eqb x c) eqn:E; [|reflexivity].
    apply Ascii.eqb_eq in E as ->. rewrite IH. cbn [andb advance rest seen].
    destruct (Str.prefix w xs); [|reflexivity].
    simpl. now rewrite <- app_assoc.
Qed.

Lemma prefix_app a b t : Str.prefix (a ++ b) t = true -> Str.prefix a t = true.
Proof.
  rewrite !StrFacts.prefix_spec. intros [post ->]. exists (b ++ post).
  now rewrite app_assoc.
Qed.

(** What the modifier pattern consumes at a position: the first removable
    word the text continues with; the alternative "negotiable" is never the
    one taken. *)
Lemma modifiers_consume b t :
  option_map (fun s => length (seen s)) (match_here false price_modifiers b t) =
  option_map (@length ascii) (first_prefix removable_modifiers t).
Proof.
  unfold match_here, price_modifiers, removable_modifiers.
  cbn [alts m first_prefix]. rewrite !lit_match. cbn [rest init].
  destruct (Str.prefix "ono" t); [reflexivity|].
  destruct (Str.prefix "or best offer" t); [reflexivity|].
  destruct (Str.prefix "obo" t); [reflexivity|].
  destruct (Str.prefix "neg" t) eqn:N; [reflexivity|].
  destruct (Str.prefix "negotiable" t) eqn:G; [|reflexivity].
  apply (prefix_app "neg" "otiable") in G. congruence.
Qed.

Lemma sub_strip : forall t skip b,
  sub_from price_modifiers skip b t = strip_words removable_modifiers skip t.
Proof.
  induction t as [|c t IH]; intros skip b; [reflexivity|].
  cbn [sub_from strip_words]. destruct skip as [|n]; [|apply IH].
  pose proof (modifiers_consume b (c :: t)) as E.
  destruct (match_here false price_modifiers b (c :: t)) as [s|];
    destruct (first_prefix removable_modifiers (c :: t)) as [w|];
    simpl in E; try discriminate.
  - injection E as ->. destruct (length w); now rewrite IH.
  - now rewrite IH.
Qed.

End ModifierFacts.

(** C6 fails on the code.  The modifier pattern lists "neg" before
    "negotiable", so on every text the substitution is the pass that removes
    only "ono", "or best offer", "obo" and "neg": at the word "negotiable" it
    removes "neg" and leaves "otiable".  On "12negotiable.50" the cleaned
    text is "12otiable.50" and the price is 12.0, where stripping
    "negotiable" leaves "12.50", whose price is 12.5. *)
Theorem negotiable_is_not_stripped :
  (forall price_text,
     clean_price price_text = strip_words removable_modifiers 0 (Str.lower price_text)) /\
  ~ In ("negotiable" : text) removable_modifiers /\
  clean_price "12negotiable.50" = "12otiable.50" /\
  extract_price "12negotiable.50" = Ok (Some (12 # 1)%Q) /\
  extract_price "12.50" = Ok (Some (25 # 2)%Q) /\
  clean_price "£450 negotiable" = "£450 otiable".
Proof.
  split; [intros price_text; apply ModifierFacts.sub_strip|].
  split; [intros H; repeat (destruct H as [H | H]; [discriminate H|]); exact H|].
  repeat split; vm_compute; reflexivity.
Qed.

(** * Further properties of the standardizer and of its callers *)

(** ** Prices *)

(** X1. [extract_price] never raises, and a price it returns lies between
    10 and 10000, bounds included. *)
Theorem extract_price_in_band (price_text : text) :
  match extract_price price_text with
  | Ok (Some price) => (10 # 1 <= price)%Q /\ (price <= 10000 # 1)%Q
  | Ok None => True
  | Raise _ => False
  end.
Proof.
  destruct (PriceFacts.extract_price_total price_text) as [r E]. rewrite E.
  destruct r as [price|]; [|exact I].
  unfold extract_price in E. destruct price_text as [|c t]; [discriminate|].
  apply PriceFacts.extract_price_from_band in E. unfold in_band in E.
  apply andb_true_iff in E as [E1 E2]. split; now apply Qle_bool_iff.
Qed.

(** ** More on what a match consumes *)

Module ShapeFacts.
Import Re ReSpec ReShape ReFacts CaptureFacts.

Lemma step_rest ic r : forall s s',
  step ic r s s' ->
  exists w, rest s = w ++ rest s' /\ seen s' = rev w ++ seen s.
Proof.
  induction r as [|a| |a IHa b IHb|a IHa b IHb|a IHa|a IHa|g a IHa];
    intros s s' H; simpl in H.
  - subst. now exists [].
  - destruct H as [x [xs [R [_ ->]]]]. exists [x]. now rewrite R.
  - destruct H as [_ ->]. now exists [].
  - destruct H as [t [Ha Hb]].
    apply IHa in Ha as [w1 [R1 E1]]. apply IHb in Hb as [w2 [R2 E2]].
    exists (w1 ++ w2). split.
    + now rewrite R1, R2, app_assoc.
    + now rewrite E2, E1, rev_app_distr, app_assoc.
  - destruct H as [H | H]; auto.
  - induction H as [s | s t s' Hst _ [w2 [R2 E2]]]; [now exists []|].
    apply IHa in Hst as [w1 [R1 E1]].
    exists (w1 ++ w2). split.
    + now rewrite R1, R2, app_assoc.
    + now rewrite E2, E1, rev_app_distr, app_assoc.
  - destruct H as [H | ->]; [auto | now exists []].
  - destruct H as [t [Ha ->]]. destruct g; simpl; auto.
Qed.

(** The text a search starts its match in is a suffix of the searched text. *)
Lemma search_from_suffix ic r : forall t b pos mo,
  search_from ic r b pos t = Some mo ->
  exists pre b' t' pos' s,
    t = pre ++ t' /\ match_here ic r b' t' = Some s /\ mo = to_match pos' s.
Proof.
  induction t as [|c t IH]; intros b pos mo H; rewrite search_from_eq in H.
  - destruct (match_here ic r b []) as [s|] eqn:M; [|discriminate].
    injection H as <-. now exists [], b, [], pos, s.
  - destruct (match_here ic r b (c :: t)) as [s|] eqn:M.
    + injection H as <-. now exists [], b, (c :: t), pos, s.
    + apply IH in H as [pre [b' [t' [pos' [s [-> [M' ->]]]]]]].
      now exists (c :: pre), b', t', pos', s.
Qed.

Lemma search_steps ic r t mo :
  search ic r t = Some mo ->
  exists pre b t' s,
    t = pre ++ t' /\ step ic r (init b t') s /\
    group1 mo = g1 s /\ group2 mo = g2 s /\ mo_lastindex mo = lastindex s.
Proof.
  intros H. apply search_from_suffix in H as [pre [b [t' [pos [s [-> [M ->]]]]]]].
  exists pre, b, t', s. repeat split. now apply match_here_sound.
Qed.

Lemma step_no_g1 ic r : no_g1 r = true -> forall s s',
  step ic r s s' -> g1 s' = g1 s.
Proof.
  induction r as [|a| |a IHa b IHb|a IHa b IHb|a IHa|a IHa|g a IHa];
    intros N s s' H; simpl in H, N.
  - now subst.
  - now destruct H as [x [xs [_ [_ ->]]]].
  - now destruct H as [_ ->].
  - apply andb_true_iff in N as [Na Nb]. destruct H as [t [Ha Hb]].
    rewrite (IHb Nb _ _ Hb). now apply IHa.
  - apply andb_true_iff in N as [Na Nb]. destruct H as [H | H]; auto.
  - induction H as [s | s t s' Hst _ IH]; [reflexivity|].
    rewrite IH. now apply IHa.
  - destruct H as [H | ->]; auto.
  - destruct g; [discriminate|]. destruct H as [t [Ha ->]]. simpl. now apply IHa.
Qed.

Lemma digits_rep_step ic r : forall n s t,
  digits_rep r = Some n -> step ic r s t ->
  exists w, length w = n /\ forallb Str.is_digit w = true /\
            seen t = rev w ++ seen s.
Proof.
  induction r as [|a| |a IHa b IHb|a IHa b IHb|a IHa|a IHa|g a IHa];
    intros n s t D H; simpl in D; try discriminate.
  - destruct a; try discriminate. injection D as <-.
    destruct H as [x [xs [_ [M ->]]]]. exists [x]. simpl in *. now rewrite M.
  - destruct a as [|[]| | | | | |]; try discriminate.
    destruct (digits_rep b) as [m|] eqn:Db; [|discriminate]. injection D as <-.
    destruct H as [u [[x [xs [_ [M ->]]]] Hb]].
    destruct (IHb m _ _ eq_refl Hb) as [w [L [F E]]].
    exists (x :: w). simpl in *. rewrite M, F, L, E. repeat split.
    now rewrite <- app_assoc.
Qed.

(** The text captured by a first group of [n] digits. *)
Lemma g1_digits_step ic r : forall n s s',
  g1_digits r = Some n -> step ic r s s' ->
  exists w, g1 s' = Some w /\ length w = n /\ forallb Str.is_digit w = true.
Proof.
  induction r as [|a| |a IHa b IHb|a IHa b IHb|a IHa|a IHa|g a IHa];
    intros n s s' D H; simpl in D; try discriminate.
  - destruct H as [t [Ha Hb]].
    destruct (g1_digits b) as [m|] eqn:Db.
    + injection D as <-. now apply (IHb m t s').
    + destruct (no_g1 b) eqn:N; [|discriminate].
      destruct (IHa n _ _ D Ha) as [w [G R]].
      exists w. split; [|exact R]. now rewrite (step_no_g1 ic b N _ _ Hb).
  - destruct g; [|discriminate]. destruct H as [t [Ha ->]].
    destruct (digits_rep_step ic a n _ _ D Ha) as [w [L [F E]]].
    exists w. simpl. split; [|now split]. f_equal. now apply captured_eq.
Qed.

Lemma search_g1_digits ic r n t mo :
  g1_digits r = Some n -> search ic r t = Some mo ->
  exists w, group1 mo = Some w /\ length w = n /\ forallb Str.is_digit w = true.
Proof.
  intros D S. apply search_steps in S as [pre [b [t' [s [_ [St [G _]]]]]]].
  rewrite G. now apply (g1_digits_step ic r n _ _ D St).
Qed.

End ShapeFacts.

(** ** The identities the three rule groups build *)

Module VendorFacts.
Import Re ReSpec ReShape ReFacts CaptureFacts ShapeFacts StrFacts GpuFacts RuleFacts.

Lemma rstrip_last t e : Str.is_space e = false -> Str.rstrip (t ++ [e]) = t ++ [e].
Proof.
  intros E. induction t as [|x t IH]; cbn [app Str.rstrip].
  - now rewrite E.
  - rewrite IH. now destruct t.
Qed.

(** [strip] leaves alone a text that neither starts nor ends with a blank. *)
Lemma strip_ends c t e :
  Str.is_space c = false -> Str.is_space e = false ->
  Str.strip (c :: t ++ [e]) = c :: t ++ [e].
Proof.
  intros Ec Ee. unfold Str.strip. cbn [Str.lstrip]. rewrite Ec.
  now rewrite (app_comm_cons t [e] c), rstrip_last.
Qed.

Lemma strip_one c : Str.is_space c = false -> Str.strip [c] = [c].
Proof.
  intros E. unfold Str.strip. cbn [Str.lstrip]. rewrite E.
  cbn [Str.rstrip]. now rewrite E.
Qed.

Lemma strip_digits t : forallb Str.is_digit t = true -> Str.strip t = t.
Proof.
  intros F. destruct t as [|c t]; [reflexivity|].
  simpl in F. apply andb_true_iff in F as [Fc Ft].
  destruct (exists_last (l := c :: t)) as [l [e E]]; [discriminate|].
  destruct l as [|c' l]; simpl in E.
  - injection E as -> ->. now apply strip_one, digit_not_space.
  - injection E as <- ->. rewrite forallb_app in Ft. simpl in Ft.
    apply andb_true_iff in Ft as [_ Fe]. apply andb_true_iff in Fe as [Fe _].
    apply strip_ends; now apply digit_not_space.
Qed.

Lemma lastindex_ge_of mo i n :
  mo_lastindex mo = Some i -> lastindex_ge mo n = Ok (n <=? index i)%nat.
Proof. unfold lastindex_ge. now intros ->. Qed.

Lemma finish_eq man ser mdl txt :
  exists v,
    finish_gpu_info man ser mdl txt =
      Ok (Some (mkGPUInfo man ser mdl v (_extract_card_manufacturer txt) conf_match)) /\
    _extract_vram txt = Ok v.
Proof.
  unfold finish_gpu_info. destruct (VramFacts.extract_vram_total txt) as [v E].
  rewrite E. now exists v.
Qed.

Ltac group1_digits n S w G L F :=
  match type of S with
  | search true ?r ?t = Some ?mo =>
      destruct (search_g1_digits true r n t mo eq_refl S) as [w [G [L F]]]
  end.

Lemma nvidia_rule_result txt pattern man ser tmpl mo :
  In (pattern, (man, ser, tmpl)) nvidia_patterns ->
  search true pattern txt = Some mo ->
  exists ds v,
    length ds = 4 /\ forallb Str.is_digit ds = true /\ nvidia_series_of ser ds /\
    man = "NVIDIA" /\ _extract_vram txt = Ok v /\
    nvidia_body txt mo (man, ser, tmpl) =
      Ok (Some (mkGPUInfo man ser
                  (if Str.contains "ti" txt then ds ++ " Ti" else ds)
                  v (_extract_card_manufacturer txt) conf_match)).
Proof.
  intros H S.
  destruct (nvidia_rule_ok txt _ _ _ _ _ H S) as [g [i [G [L _]]]].
  assert (A : exists ds, length ds = 4 /\ forallb Str.is_digit ds = true /\
                nvidia_series_of ser ds /\ man = "NVIDIA" /\
                forall g2, format tmpl g g2 = ds).
  { unfold nvidia_patterns in H.
    destruct H as [H|[H|[H|[H|[H|[H|[]]]]]]]; injection H as <- <- <- <-.
    - group1_digits 2 S w G' Lw Fw.
      rewrite G in G'. injection G' as ->. exists ("50" ++ w).
      repeat split; try (simpl; now rewrite ?Lw, ?Fw, ?app_nil_r).
      left. now split.
    - group1_digits 2 S w G' Lw Fw.
      rewrite G in G'. injection G' as ->. exists ("40" ++ w).
      repeat split; try (simpl; now rewrite ?Lw, ?Fw, ?app_nil_r).
      right. left. now split.
    - group1_digits 3 S w G' Lw Fw.
      rewrite G in G'. injection G' as ->. exists ("4" ++ w).
      repeat split; try (simpl; now rewrite ?Lw, ?Fw, ?app_nil_r).
      right. left. now split.
    - group1_digits 2 S w G' Lw Fw.
      rewrite G in G'. injection G' as ->. exists ("30" ++ w).
      repeat split; try (simpl; now rewrite ?Lw, ?Fw, ?app_nil_r).
      right. right. left. now split.
    - group1_digits 3 S w G' Lw Fw.
      rewrite G in G'. injection G' as ->. exists ("3" ++ w).
      repeat split; try (simpl; now rewrite ?Lw, ?Fw, ?app_nil_r).
      right. right. left. now split.
    - group1_digits 4 S w G' Lw Fw.
      rewrite G in G'. injection G' as ->. exists w.
      repeat split; try (simpl; now rewrite ?Lw, ?Fw, ?app_nil_r).
      right. right. right. reflexivity. }
  destruct A as [ds [Ld [Fd [Sd [-> Fm]]]]].
  unfold nvidia_body.
  rewrite (lastindex_ge_of mo i 1 L), (lastindex_ge_of mo i 2 L). cbn [bind].
  replace (1 <=? index i)%nat with true by now destruct i.
  rewrite G. cbn [str_of]. rewrite Fm, (strip_digits ds Fd).
  destruct (finish_eq "NVIDIA" ser (if Str.contains "ti" txt then ds ++ " Ti" else ds) txt)
    as [v [E V]].
  exists ds, v. repeat split; assumption.
Qed.

Lemma upper_of_match c x :
  In c ["x"; "t"; "g"; "r"; "e"; "a"; "b"]%char ->
  atom_matches true (AChr c) x = true -> Str.upper_char x = Str.upper_char c.
Proof.
  intros I M. simpl in I.
  repeat (destruct I as [<- | I];
    [destruct x as [[] [] [] [] [] [] [] []]; solve [reflexivity | discriminate M]|]).
  destruct I.
Qed.

Lemma upper_digit c : Str.is_digit c = true -> Str.upper_char c = c.
Proof.
  destruct c as [[] [] [] [] [] [] [] []]; intros H;
    solve [reflexivity | discriminate H].
Qed.

Lemma upper_digits w : forallb Str.is_digit w = true -> Str.upper w = w.
Proof.
  induction w as [|c w IH]; [reflexivity|]. simpl. intros F.
  apply andb_true_iff in F as [Fc Fw]. now rewrite (upper_digit c Fc), IH.
Qed.

(** The optional variant group captures "xt" or "gre" in some letter case. *)
Lemma xt_gre_step s s' :
  step true xt_gre s s' ->
  s' = s \/
  exists v, (Str.upper v = "XT" \/ Str.upper v = "GRE") /\ v <> [] /\
            g2 s' = Some v /\ lastindex s' = Some G2.
Proof.
  intros [[t [[H | H] ->]] | ->]; [right | right | now left].
  - destruct H as [u [[x1 [r1 [_ [M1 ->]]]] [x2 [r2 [_ [M2 ->]]]]]].
    exists [x1; x2]. repeat split; try discriminate.
    + left. simpl.
      rewrite (upper_of_match "x" x1 ltac:(simpl; auto 10) M1).
      now rewrite (upper_of_match "t" x2 ltac:(simpl; auto 10) M2).
    + simpl. f_equal. apply (captured_eq _ _ [x1; x2]). reflexivity.
  - destruct H as [u [[x1 [r1 [_ [M1 ->]]]] [u' [[x2 [r2 [_ [M2 ->]]]]
                   [x3 [r3 [_ [M3 ->]]]]]]]].
    exists [x1; x2; x3]. repeat split; try discriminate.
    + right. simpl.
      rewrite (upper_of_match "g" x1 ltac:(simpl; auto 10) M1).
      rewrite (upper_of_match "r" x2 ltac:(simpl; auto 10) M2).
      now rewrite (upper_of_match "e" x3 ltac:(simpl; auto 10) M3).
    + simpl. f_equal. apply (captured_eq _ _ [x1; x2; x3]). reflexivity.
Qed.

Lemma amd_tail s s' :
  step true (seqs [Group G1 (Rep 3 d); ws; xt_gre]) s s' ->
  lastindex s' = Some G1 \/
  exists v, (Str.upper v = "XT" \/ Str.upper v = "GRE") /\ v <> [] /\
            g2 s' = Some v /\ lastindex s' = Some G2.
Proof.
  cbn [seqs]. intros [t1 [[u [_ ->]] [t2 [Hw Hx]]]].
  destruct (step_no_groups true ws eq_refl _ _ Hw) as [_ [_ L]].
  apply xt_gre_step in Hx as [-> | Hx]; [left | now right].
  rewrite L. reflexivity.
Qed.

Lemma amd_rule_tail txt pattern man ser tmpl mo :
  In (pattern, (man, ser, tmpl)) amd_patterns ->
  search true pattern txt = Some mo ->
  mo_lastindex mo = Some G1 \/
  exists v, (Str.upper v = "XT" \/ Str.upper v = "GRE") /\ v <> [] /\
            group2 mo = Some v /\ mo_lastindex mo = Some G2.
Proof.
  intros H S. apply search_steps in S as [pre [b [t' [s [_ [St [_ [G2' L]]]]]]]].
  rewrite G2', L. unfold amd_patterns in H.
  destruct H as [H|[H|[H|[H|[]]]]]; injection H as <- _ _ _; cbn [seqs] in St.
  - destruct St as [t1 [_ St]]. destruct St as [t2 [_ St]]. destruct St as [t3 [_ St]].
    exact (amd_tail _ _ St).
  - destruct St as [t1 [_ St]]. destruct St as [t2 [_ St]]. destruct St as [t3 [_ St]].
    destruct St as [t4 [_ St]]. destruct St as [t5 [_ St]].
    exact (amd_tail _ _ St).
  - destruct St as [t1 [_ St]]. destruct St as [t2 [_ St]]. destruct St as [t3 [_ St]].
    exact (amd_tail _ _ St).
  - destruct St as [t1 [_ St]]. destruct St as [t2 [_ St]]. destruct St as [t3 [_ St]].
    destruct St as [t4 [_ St]]. destruct St as [t5 [_ St]].
    exact (amd_tail _ _ St).
Qed.

Lemma strip_model ds sfx :
  forallb Str.is_digit ds = true -> ds <> [] -> amd_suffix sfx ->
  Str.strip (ds ++ sfx) = ds ++ sfx.
Proof.
  intros F N [-> | [-> | ->]].
  - rewrite app_nil_r. now apply strip_digits.
  - destruct ds as [|c ds]; [contradiction|]. simpl in F.
    apply andb_true_iff in F as [Fc _].
    replace ((c :: ds) ++ " XT") with (c :: (ds ++ " X") ++ ["T"%char])
      by (simpl; now rewrite <- app_assoc).
    apply strip_ends; [now apply digit_not_space | reflexivity].
  - destruct ds as [|c ds]; [contradiction|]. simpl in F.
    apply andb_true_iff in F as [Fc _].
    replace ((c :: ds) ++ " GRE") with (c :: (ds ++ " GR") ++ ["E"%char])
      by (simpl; now rewrite <- app_assoc).
    apply strip_ends; [now apply digit_not_space | reflexivity].
Qed.

Lemma amd_rule_result txt pattern man ser tmpl mo :
  In (pattern, (man, ser, tmpl)) amd_patterns ->
  search true pattern txt = Some mo ->
  exists ds sfx v,
    length ds = 4 /\ forallb Str.is_digit ds = true /\ amd_suffix sfx /\
    amd_series_of ser ds /\ man = "AMD" /\ _extract_vram txt = Ok v /\
    amd_body txt mo (man, ser, tmpl) =
      Ok (Some (mkGPUInfo man ser (ds ++ sfx) v
                  (_extract_card_manufacturer txt) conf_match)).
Proof.
  intros H S.
  destruct (amd_rule_ok txt _ _ _ _ _ H S) as [g [i [G [L _]]]].
  pose proof (amd_rule_tail txt _ _ _ _ _ H S) as T.
  assert (A : exists ds, length ds = 4 /\ forallb Str.is_digit ds = true /\
                amd_series_of ser ds /\ man = "AMD" /\
                forall g2, format tmpl g g2 = ds ++ g2).
  { unfold amd_patterns in H.
    destruct H as [H|[H|[H|[H|[]]]]]; injection H as <- <- <- <-;
      group1_digits 3 S w G' Lw Fw; rewrite G in G'; injection G' as ->.
    - exists ("7" ++ w). repeat split; try (simpl; now rewrite ?Lw, ?Fw, ?app_nil_r).
      + left. now split.
      + intros g2. simpl. now rewrite app_nil_r.
    - exists ("7" ++ w). repeat split; try (simpl; now rewrite ?Lw, ?Fw, ?app_nil_r).
      + left. now split.
      + intros g2. simpl. now rewrite app_nil_r.
    - exists ("6" ++ w). repeat split; try (simpl; now rewrite ?Lw, ?Fw, ?app_nil_r).
      + right. now split.
      + intros g2. simpl. now rewrite app_nil_r.
    - exists ("6" ++ w). repeat split; try (simpl; now rewrite ?Lw, ?Fw, ?app_nil_r).
      + right. now split.
      + intros g2. simpl. now rewrite app_nil_r. }
  destruct A as [ds [Ld [Fd [Sd [-> Fm]]]]].
  assert (Nd : ds <> []) by (destruct ds; [discriminate Ld | discriminate]).
  unfold amd_body.
  rewrite (lastindex_ge_of mo i 1 L), (lastindex_ge_of mo i 2 L). cbn [bind].
  replace (1 <=? index i)%nat with true by now destruct i.
  rewrite G. cbn [str_of]. rewrite Fm.
  destruct T as [T | [v [U [Nv [G2' T]]]]]; rewrite T in L; injection L as <-;
    cbn [index Nat.leb].
  - rewrite (strip_model ds [] Fd Nd (or_introl eq_refl)).
    destruct (finish_eq "AMD" ser (ds ++ []) txt) as [vr [E V]].
    exists ds, [], vr. repeat split; try assumption. now left.
  - rewrite G2'. destruct v as [|c v]; [contradiction|].
    assert (Sx : amd_suffix (" " ++ Str.upper (c :: v))).
    { destruct U as [-> | ->]; [right; left | right; right]; reflexivity. }
    rewrite (strip_model ds _ Fd Nd Sx).
    destruct (finish_eq "AMD" ser (ds ++ " " ++ Str.upper (c :: v)) txt) as [vr [E V]].
    exists ds, (" " ++ Str.upper (c :: v)), vr. repeat split; assumption.
Qed.

(** The Arc group captures the letter a or b, in some letter case, and
    three digits. *)
Lemma arc_model_shape s s' :
  step true arc_model s s' ->
  exists x w,
    (Str.upper_char x = "A"%char \/ Str.upper_char x = "B"%char) /\
    length w = 3 /\ forallb Str.is_digit w = true /\ g1 s' = Some (x :: w).
Proof.
  intros [t [[H | H] ->]];
    destruct H as [u [[x [xs [_ [M ->]]]] HR]];
    destruct (digits_rep_step true (Rep 3 d) 3 _ _ eq_refl HR) as [w [Lw [Fw E]]];
    exists x, w; (split; [|split; [exact Lw | split; [exact Fw|]]]).
  - left. exact (upper_of_match "a" x ltac:(simpl; auto 10) M).
  - simpl. f_equal. apply (captured_eq _ _ (x :: w)). rewrite E. simpl.
    now rewrite <- app_assoc.
  - right. exact (upper_of_match "b" x ltac:(simpl; auto 10) M).
  - simpl. f_equal. apply (captured_eq _ _ (x :: w)). rewrite E. simpl.
    now rewrite <- app_assoc.
Qed.

Lemma intel_rule_result txt pattern man ser tmpl mo :
  In (pattern, (man, ser, tmpl)) intel_patterns ->
  search true pattern txt = Some mo ->
  exists l ds v,
    (l = "A"%char \/ l = "B"%char) /\ length ds = 3 /\
    forallb Str.is_digit ds = true /\
    man = "Intel" /\ ser = "Arc" /\ _extract_vram txt = Ok v /\
    intel_body txt mo (man, ser, tmpl) =
      Ok (Some (mkGPUInfo man ser (l :: ds) v
                  (_extract_card_manufacturer txt) conf_match)).
Proof.
  intros H S.
  destruct (intel_rule_ok txt _ _ _ _ _ H S) as [g [i [G [L _]]]].
  assert (A : exists x w,
             (Str.upper_char x = "A"%char \/ Str.upper_char x = "B"%char) /\
             length w = 3 /\ forallb Str.is_digit w = true /\ g = x :: w).
  { apply search_steps in S as [pre [b [t' [s [_ [St [E _]]]]]]]. rewrite G in E.
    unfold intel_patterns in H.
    destruct H as [H | [H | []]]; injection H as <- _ _ _; cbn [seqs] in St.
    - destruct St as [t1 [_ St]]. destruct St as [t2 [_ St]].
      apply arc_model_shape in St as [x [w [U [Lw [Fw G']]]]].
      exists x, w. repeat split; try assumption. congruence.
    - destruct St as [t1 [_ St]]. destruct St as [t2 [_ St]].
      destruct St as [t3 [_ St]]. destruct St as [t4 [_ St]].
      apply arc_model_shape in St as [x [w [U [Lw [Fw G']]]]].
      exists x, w. repeat split; try assumption. congruence. }
  destruct A as [x [w [U [Lw [Fw ->]]]]].
  assert (T : man = "Intel" /\ ser = "Arc" /\ tmpl = [TGroup1]).
  { unfold intel_patterns in H.
    destruct H as [H | [H | []]]; injection H as _ <- <- <-; now repeat split. }
  destruct T as [-> [-> ->]].
  unfold intel_body. rewrite (lastindex_ge_of mo i 1 L). cbn [bind].
  replace (1 <=? index i)%nat with true by now destruct i.
  rewrite G. cbn [bind format flat_map]. rewrite app_nil_r.
  cbn [Str.upper map]. change (map Str.upper_char w) with (Str.upper w).
  rewrite (upper_digits w Fw).
  assert (Sp : Str.strip (Str.upper_char x :: w) = Str.upper_char x :: w).
  { destruct (exists_last (l := w)) as [w' [e E]];
      [destruct w; [discriminate Lw | discriminate]|].
    rewrite E in *. rewrite forallb_app in Fw. simpl in Fw.
    apply andb_true_iff in Fw as [_ Fe]. apply andb_true_iff in Fe as [Fe _].
    apply strip_ends; [|now apply digit_not_space].
    destruct U as [-> | ->]; reflexivity. }
  rewrite Sp.
  destruct (finish_eq "Intel" "Arc" (Str.upper_char x :: w) txt) as [vr [E V]].
  exists (Str.upper_char x), w, vr. repeat split; assumption.
Qed.

End VendorFacts.

Module IdentityFacts.
Import Re ReFacts GpuFacts VendorFacts.

Lemma matched_rule (table : list rule) txt pre pattern info post mo :
  table = pre ++ (pattern, info) :: post ->
  search true pattern txt = Some mo -> some_match table txt.
Proof.
  intros -> S. exists (pattern, info). split; [apply in_elt|].
  unfold rule_matches. simpl. rewrite S. discriminate.
Qed.

Lemma nvidia_match txt :
  match _match_nvidia_patterns txt with
  | Ok (Some g) =>
      some_match nvidia_patterns txt /\ nvidia_identity txt g /\ attached txt g
  | Ok None => no_match nvidia_patterns txt
  | Raise _ => False
  end.
Proof.
  unfold _match_nvidia_patterns.
  destruct (for_first_match_inv nvidia_patterns txt (nvidia_body txt))
    as [[E N] | [pre [pat [[[man ser] tmpl] [post [mo [D [N [S E]]]]]]]]];
    rewrite E; [exact N|].
  assert (I : In (pat, (man, ser, tmpl)) nvidia_patterns) by (rewrite D; apply in_elt).
  destruct (nvidia_rule_result txt _ _ _ _ _ I S)
    as [ds [v [Ld [Fd [Sd [-> [V ->]]]]]]].
  split; [exact (matched_rule _ _ _ _ _ _ _ D S)|]. split.
  - split; [reflexivity|]. exists ds. now repeat split.
  - now repeat split.
Qed.

Lemma amd_match txt :
  match _match_amd_patterns txt with
  | Ok (Some g) => some_match amd_patterns txt /\ amd_identity g /\ attached txt g
  | Ok None => no_match amd_patterns txt
  | Raise _ => False
  end.
Proof.
  unfold _match_amd_patterns.
  destruct (for_first_match_inv amd_patterns txt (amd_body txt))
    as [[E N] | [pre [pat [[[man ser] tmpl] [post [mo [D [N [S E]]]]]]]]];
    rewrite E; [exact N|].
  assert (I : In (pat, (man, ser, tmpl)) amd_patterns) by (rewrite D; apply in_elt).
  destruct (amd_rule_result txt _ _ _ _ _ I S)
    as [ds [sfx [v [Ld [Fd [Sx [Sd [-> [V ->]]]]]]]]].
  split; [exact (matched_rule _ _ _ _ _ _ _ D S)|]. split.
  - split; [reflexivity|]. exists ds, sfx. now repeat split.
  - now repeat split.
Qed.

Lemma intel_match txt :
  match _match_intel_patterns txt with
  | Ok (Some g) => some_match intel_patterns txt /\ intel_identity g /\ attached txt g
  | Ok None => no_match intel_patterns txt
  | Raise _ => False
  end.
Proof.
  unfold _match_intel_patterns.
  destruct (for_first_match_inv intel_patterns txt (intel_body txt))
    as [[E N] | [pre [pat [[[man ser] tmpl] [post [mo [D [N [S E]]]]]]]]];
    rewrite E; [exact N|].
  assert (I : In (pat, (man, ser, tmpl)) intel_patterns) by (rewrite D; apply in_elt).
  destruct (intel_rule_result txt _ _ _ _ _ I S)
    as [l [ds [v [Hl [Ld [Fd [-> [-> [V ->]]]]]]]]].
  split; [exact (matched_rule _ _ _ _ _ _ _ D S)|]. split.
  - split; [reflexivity|]. split; [reflexivity|]. exists l, ds. now repeat split.
  - now repeat split.
Qed.

(** The three ways [extract_gpu_info] can return an identity. *)
Lemma extract_cases title description g :
  extract_gpu_info title description = Ok (Some g) ->
  let txt := combined title description in
  attached txt g /\
  ((some_match nvidia_patterns txt /\ nvidia_identity txt g) \/
   (no_match nvidia_patterns txt /\ some_match amd_patterns txt /\ amd_identity g) \/
   (no_match nvidia_patterns txt /\ no_match amd_patterns txt /\
    some_match intel_patterns txt /\ intel_identity g)).
Proof.
  unfold extract_gpu_info. set (txt := combined title description). cbn zeta.
  pose proof (nvidia_match txt) as Hn. pose proof (amd_match txt) as Ha.
  pose proof (intel_match txt) as Hi.
  destruct (_match_nvidia_patterns txt) as [[n|]|e]; cbn [bind]; [| |discriminate].
  { intros E. injection E as <-. destruct Hn as [M [Id At]]. split; [exact At|].
    left. split; assumption. }
  destruct (_match_amd_patterns txt) as [[a|]|e]; cbn [bind]; [| |discriminate].
  { intros E. injection E as <-. destruct Ha as [M [Id At]]. split; [exact At|].
    right. left. split; [exact Hn | split; assumption]. }
  destruct (_match_intel_patterns txt) as [[i|]|e]; cbn [bind]; try discriminate.
  intros E. injection E as <-. destruct Hi as [M [Id At]]. split; [exact At|].
  right. right. split; [exact Hn | split; [exact Ha | split; assumption]].
Qed.

Lemma extract_total title description :
  exists r, extract_gpu_info title description = Ok r.
Proof.
  unfold extract_gpu_info. set (txt := combined title description).
  pose proof (nvidia_match txt) as Hn. pose proof (amd_match txt) as Ha.
  pose proof (intel_match txt) as Hi.
  destruct (_match_nvidia_patterns txt) as [[n|]|e]; cbn [bind]; [eauto| |contradiction].
  destruct (_match_amd_patterns txt) as [[a|]|e]; cbn [bind]; [eauto| |contradiction].
  destruct (_match_intel_patterns txt) as [[i|]|e]; cbn [bind]; [eauto|eauto|contradiction].
Qed.

End IdentityFacts.

(** ** Identities *)

(** X2. The vendor groups are consulted in the order NVIDIA, AMD, Intel and
    the first group with a matching rule decides: a returned identity is
    NVIDIA when some NVIDIA rule matches the text, AMD when no NVIDIA rule
    but some AMD rule matches, and Intel when only Intel rules match. *)
Theorem vendor_priority (title description : text) (g : GPUInfo) :
  extract_gpu_info title description = Ok (Some g) ->
  let txt := combined title description in
  (manufacturer g = "NVIDIA" /\ some_match nvidia_patterns txt) \/
  (manufacturer g = "AMD" /\ no_match nvidia_patterns txt /\
   some_match amd_patterns txt) \/
  (manufacturer g = "Intel" /\ no_match nvidia_patterns txt /\
   no_match amd_patterns txt /\ some_match intel_patterns txt).
Proof.
  intros E. destruct (IdentityFacts.extract_cases _ _ _ E) as [_ C]. cbn zeta in *.
  destruct C as [[M [Mf _]] | [[N [M [Mf _]]] | [N [Na [M [Mf _]]]]]].
  - left. split; assumption.
  - right. left. split; [exact Mf | split; assumption].
  - right. right. split; [exact Mf | split; [exact N | split; assumption]].
Qed.

Lemma vendor_priority_witness :
  exists g,
    extract_gpu_info two_vendors [] = Ok (Some g) /\
    ((manufacturer g = "NVIDIA" /\ some_match nvidia_patterns (combined two_vendors [])) \/
     (manufacturer g = "AMD" /\ no_match nvidia_patterns (combined two_vendors []) /\
      some_match amd_patterns (combined two_vendors [])) \/
     (manufacturer g = "Intel" /\ no_match nvidia_patterns (combined two_vendors []) /\
      no_match amd_patterns (combined two_vendors []) /\
      some_match intel_patterns (combined two_vendors []))).
Proof.
  eexists. split; [vm_compute; reflexivity|].
  apply (vendor_priority two_vendors []). vm_compute. reflexivity.
Defined.

(** X3. The model of an NVIDIA identity is four digits, followed by " Ti"
    exactly when the lowercased text contains "ti" anywhere (so a word such
    as "negotiable" adds the suffix); the digits start with 50, 4 or 3 when
    the series is RTX 50, RTX 40 or RTX 30. *)
Theorem nvidia_model_shape (title description : text) (g : GPUInfo) :
  extract_gpu_info title description = Ok (Some g) ->
  manufacturer g = "NVIDIA" ->
  exists ds,
    length ds = 4 /\ forallb Str.is_digit ds = true /\
    nvidia_series_of (series g) ds /\
    model g = (if Str.contains "ti" (combined title description)
               then ds ++ " Ti" else ds).
Proof.
  intros E M. destruct (IdentityFacts.extract_cases _ _ _ E) as [_ C]. cbn zeta in C.
  destruct C as [[_ [_ H]] | [[_ [_ [Mf _]]] | [_ [_ [_ [Mf _]]]]]].
  - exact H.
  - rewrite M in Mf. discriminate Mf.
  - rewrite M in Mf. discriminate Mf.
Qed.

Lemma nvidia_model_shape_witness :
  exists g,
    extract_gpu_info negotiable_card [] = Ok (Some g) /\
    manufacturer g = "NVIDIA" /\ model g = "4070 Ti" /\
    exists ds,
      length ds = 4 /\ forallb Str.is_digit ds = true /\
      nvidia_series_of (series g) ds /\
      model g = (if Str.contains "ti" (combined negotiable_card [])
                 then ds ++ " Ti" else ds).
Proof.
  eexists. split; [vm_compute; reflexivity|]. split; [reflexivity|].
  split; [reflexivity|].
  apply (nvidia_model_shape negotiable_card []); vm_compute; reflexivity.
Defined.

(** X4. The model of an AMD identity is four digits, starting with 7 for the
    series RX 7000 and with 6 for RX 6000, followed by nothing, " XT" or
    " GRE". *)
Theorem amd_model_shape (title description : text) (g : GPUInfo) :
  extract_gpu_info title description = Ok (Some g) ->
  manufacturer g = "AMD" ->
  exists ds sfx,
    length ds = 4 /\ forallb Str.is_digit ds = true /\ amd_suffix sfx /\
    amd_series_of (series g) ds /\ model g = ds ++ sfx.
Proof.
  intros E M. destruct (IdentityFacts.extract_cases _ _ _ E) as [_ C]. cbn zeta in C.
  destruct C as [[_ [Mf _]] | [[_ [_ [_ H]]] | [_ [_ [_ [Mf _]]]]]].
  - rewrite M in Mf. discriminate Mf.
  - exact H.
  - rewrite M in Mf. discriminate Mf.
Qed.

Lemma amd_model_shape_witness :
  exists g,
    extract_gpu_info gre_card [] = Ok (Some g) /\
    manufacturer g = "AMD" /\ model g = "7900 GRE" /\
    exists ds sfx,
      length ds = 4 /\ forallb Str.is_digit ds = true /\ amd_suffix sfx /\
      amd_series_of (series g) ds /\ model g = ds ++ sfx.
Proof.
  eexists. split; [vm_compute; reflexivity|]. split; [reflexivity|].
  split; [reflexivity|].
  apply (amd_model_shape gre_card []); vm_compute; reflexivity.
Defined.

(** X5. An Intel identity has series "Arc" and a model made of the capital
    letter A or B and three digits. *)
Theorem intel_model_shape (title description : text) (g : GPUInfo) :
  extract_gpu_info title description = Ok (Some g) ->
  manufacturer g = "Intel" ->
  series g = "Arc" /\
  exists l ds,
    (l = "A"%char \/ l = "B"%char) /\ length ds = 3 /\
    forallb Str.is_digit ds = true /\ model g = l :: ds.
Proof.
  intros E M. destruct (IdentityFacts.extract_cases _ _ _ E) as [_ C]. cbn zeta in C.
  destruct C as [[_ [Mf _]] | [[_ [_ [Mf _]]] | [_ [_ [_ [_ H]]]]]].
  - rewrite M in Mf. discriminate Mf.
  - rewrite M in Mf. discriminate Mf.
  - exact H.
Qed.

Lemma intel_model_shape_witness :
  exists g,
    extract_gpu_info arc_title [] = Ok (Some g) /\
    manufacturer g = "Intel" /\ model g = "B580" /\
    series g = "Arc" /\
    exists l ds,
      (l = "A"%char \/ l = "B"%char) /\ length ds = 3 /\
      forallb Str.is_digit ds = true /\ model g = l :: ds.
Proof.
  eexists. split; [vm_compute; reflexivity|]. split; [reflexivity|].
  split; [reflexivity|].
  apply (intel_model_shape arc_title []); vm_compute; reflexivity.
Defined.

(** ** Conditions, once more *)

Module TitleFacts.
Import Str.

Lemma lower_lower c : lower_char (lower_char c) = lower_char c.
Proof. destruct c as [[] [] [] [] [] [] [] []]; reflexivity. Qed.

Lemma lower_upper c : lower_char (upper_char c) = lower_char c.
Proof. destruct c as [[] [] [] [] [] [] [] []]; reflexivity. Qed.

Lemma upper_upper c : upper_char (upper_char c) = upper_char c.
Proof. destruct c as [[] [] [] [] [] [] [] []]; reflexivity. Qed.

Lemma cased_lower c : cased (lower_char c) = cased c.
Proof. destruct c as [[] [] [] [] [] [] [] []]; reflexivity. Qed.

Lemma cased_upper c : cased (upper_char c) = cased c.
Proof. destruct c as [[] [] [] [] [] [] [] []]; reflexivity. Qed.

Lemma lower_title_from t : forall b, lower (title_from b t) = lower t.
Proof.
  induction t as [|c t IH]; intros b; [reflexivity|].
  cbn [title_from]. fold (cased c). destruct (cased c); cbn [lower map] in *.
  - rewrite IH. destruct b; now rewrite ?lower_lower, ?lower_upper.
  - now rewrite IH.
Qed.

Lemma title_from_idem t : forall b, title_from b (title_from b t) = title_from b t.
Proof.
  induction t as [|c t IH]; intros b; [reflexivity|].
  cbn [title_from]. fold (cased c). destruct (cased c) eqn:C.
  - destruct b; cbn [title_from].
    + fold (cased (lower_char c)). rewrite cased_lower, C, lower_lower. now rewrite IH.
    + fold (cased (upper_char c)). rewrite cased_upper, C, upper_upper. now rewrite IH.
  - cbn [title_from]. fold (cased c). rewrite C. now rewrite IH.
Qed.

Lemma title_from_length t : forall b, length (title_from b t) = length t.
Proof.
  induction t as [|c t IH]; intros b; [reflexivity|].
  cbn [title_from]. destruct (is_upper c || is_lower c); simpl; now rewrite IH.
Qed.

Lemma title_nonempty t : t <> [] -> title t <> [].
Proof.
  intros N E. apply (f_equal (@length ascii)) in E. unfold title in E.
  rewrite title_from_length in E. destruct t; [contradiction | discriminate].
Qed.

Lemma eqb_eq a b : Str.eqb a b = true <-> a = b.
Proof. unfold Str.eqb. destruct (list_eq_dec ascii_dec a b); split; congruence. Qed.

End TitleFacts.

Module RenormFacts.
Import StrFacts TitleFacts ConditionFacts.

Lemma scan_names table : forall t r,
  scan_conditions table t = Some r -> In r (map (fun e => Str.title (fst e)) table).
Proof.
  induction table as [|[c vs] table IH]; intros t r; simpl; [discriminate|].
  destruct (existsb _ vs).
  - intros E. injection E as <-. now left.
  - intros E. right. now apply (IH t).
Qed.

Lemma scan_standard t r :
  scan_conditions condition_map t = Some r ->
  r = "New" \/ r = "Like New" \/ r = "Good" \/ r = "Fair" \/ r = "Poor".
Proof.
  intros E. apply scan_names in E. simpl in E.
  destruct E as [<-|[<-|[<-|[<-|[<-|[]]]]]]; auto 6.
Qed.

(** A normalized condition is never empty. *)
Lemma condition_nonempty v r : _standardize_condition v = Ok r -> r <> [].
Proof.
  unfold _standardize_condition.
  destruct v as [|b|z|q|c|l];
    try (destruct (negb _); [intros E; injection E as <-; discriminate | discriminate]).
  destruct c as [|x c]; cbn [truthy negb].
  - intros E. injection E as <-. discriminate.
  - destruct (scan_conditions condition_map (Str.strip (Str.lower (x :: c))))
      as [st|] eqn:S.
    + intros E. injection E as <-.
      apply scan_standard in S as [->|[->|[->|[->| ->]]]]; discriminate.
    + intros E. injection E as <-. apply title_nonempty. discriminate.
Qed.

(** A passed-through condition is passed through again unchanged. *)
Lemma passthrough_again c :
  c <> [] ->
  scan_conditions condition_map (Str.strip (Str.lower c)) = None ->
  _standardize_condition (PStr (Str.title c)) = Ok (Str.title c) /\
  Str.title c <> "Like New".
Proof.
  intros N S. split.
  - unfold _standardize_condition.
    rewrite (nonempty_truthy _ (title_nonempty c N)).
    unfold Str.title at 1. rewrite lower_title_from, S.
    unfold Str.title. now rewrite title_from_idem.
  - intros E. apply (f_equal Str.lower) in E. unfold Str.title in E.
    rewrite lower_title_from in E. rewrite E in S. discriminate S.
Qed.

End RenormFacts.

(** X6. For a condition over ASCII and the pound sign, normalizing the
    normalized condition changes nothing, with one exception: "Like New"
    becomes "New".  Every other result, including a passed-through input, is
    a fixed point. *)
Theorem normalize_twice (c r : text) :
  plain c = true ->
  _standardize_condition (PStr c) = Ok r ->
  _standardize_condition (PStr r) = Ok (renormalized r).
Proof.
  intros _. unfold _standardize_condition at 1. destruct c as [|x c]; simpl truthy; cbn [negb].
  - intros E. injection E as <-. reflexivity.
  - destruct (scan_conditions condition_map _) as [st|] eqn:S.
    + intros E. injection E as <-.
      apply RenormFacts.scan_standard in S as [->|[->|[->|[->| ->]]]]; reflexivity.
    + intros E. injection E as <-.
      destruct (RenormFacts.passthrough_again (x :: c)) as [P Q];
        [discriminate | exact S |].
      rewrite P. unfold renormalized.
      destruct (Str.eqb (Str.title (x :: c)) "Like New") eqn:B; [|reflexivity].
      apply TitleFacts.eqb_eq in B. contradiction.
Qed.

Lemma normalize_twice_witness :
  _standardize_condition (PStr "Used - Excellent") = Ok ("Like New" : text) /\
  _standardize_condition (PStr "Like New") = Ok (renormalized "Like New") /\
  renormalized "Like New" = "New".
Proof.
  split; [reflexivity|]. split; [|reflexivity].
  apply (normalize_twice "Used - Excellent" "Like New"); reflexivity.
Defined.

(** ** The card manufacturer *)

Module BrandFacts.

Lemma from_char table txt :
  match _extract_card_manufacturer_from table txt with
  | Some name =>
      exists pre aliases post,
        table = pre ++ (name, aliases) :: post /\
        Forall (fun e => brand_found txt e = false) pre /\
        brand_found txt (name, aliases) = true
  | None => Forall (fun e => brand_found txt e = false) table
  end.
Proof.
  induction table as [|[name aliases] table IH]; simpl; [constructor|].
  destruct (existsb _ aliases) eqn:E.
  - now exists [], aliases, table.
  - destruct (_extract_card_manufacturer_from table txt) as [n|].
    + destruct IH as [pre [al [post [-> [F B]]]]].
      exists ((name, aliases) :: pre), al, post. repeat split; [|exact B].
      constructor; [exact E | exact F].
    + constructor; [exact E | exact IH].
Qed.

Lemma first_found pre : forall name aliases post txt,
  Forall (fun e => brand_found txt e = false) pre ->
  brand_found txt (name, aliases) = true ->
  _extract_card_manufacturer_from (pre ++ (name, aliases) :: post) txt = Some name.
Proof.
  induction pre as [|[n al] pre IH]; intros name aliases post txt F B; simpl.
  - unfold brand_found in B. simpl in B. now rewrite B.
  - inversion F as [|? ? Fe Fp]; subst. unfold brand_found in Fe. simpl in Fe.
    rewrite Fe. now apply IH.
Qed.

Lemma brand_listed txt name :
  _extract_card_manufacturer txt = Some name -> In name brands.
Proof.
  unfold _extract_card_manufacturer. intros E.
  pose proof (from_char manufacturer_patterns txt) as C. rewrite E in C.
  destruct C as [pre [al [post [D _]]]]. unfold brands. rewrite D, map_app.
  apply in_or_app. right. now left.
Qed.

End BrandFacts.

(** X7. [_extract_card_manufacturer] returns the first brand, in the order of
    the catalog (MSI, ASUS, Gigabyte, ...), one of whose aliases is found in
    the text, wherever the brands stand in the text; it returns [None]
    exactly when no alias of any brand is found, and never a name outside the
    thirteen brands. *)
Theorem first_brand_wins (txt : text) :
  (forall name,
     _extract_card_manufacturer txt = Some name <->
     exists pre aliases post,
       manufacturer_patterns = pre ++ (name, aliases) :: post /\
       Forall (fun e => brand_found txt e = false) pre /\
       brand_found txt (name, aliases) = true) /\
  (_extract_card_manufacturer txt = None <->
   Forall (fun e => brand_found txt e = false) manufacturer_patterns) /\
  (forall name, _extract_card_manufacturer txt = Some name -> In name brands) /\
  brands = ["MSI" : text; "ASUS" : text; "Gigabyte" : text; "EVGA" : text;
            "Sapphire" : text; "PowerColor" : text; "XFX" : text; "Zotac" : text;
            "Palit" : text; "Gainward" : text; "PNY" : text; "Inno3D" : text;
            "Manli" : text].
Proof.
  pose proof (BrandFacts.from_char manufacturer_patterns txt) as C.
  unfold _extract_card_manufacturer in *.
  split; [|split; [|split; [|reflexivity]]].
  - intros name. split.
    + intros E. now rewrite E in C.
    + intros [pre [al [post [D [F B]]]]]. rewrite D. now apply BrandFacts.first_found.
  - split.
    + intros E. now rewrite E in C.
    + intros F. destruct (_extract_card_manufacturer_from manufacturer_patterns txt)
        as [n|]; [|reflexivity].
      destruct C as [pre [al [post [D [_ B]]]]]. rewrite D in F.
      apply Forall_app in F as [_ F]. inversion F as [|? ? Fe _]; subst.
      rewrite B in Fe. discriminate Fe.
  - intros name. apply BrandFacts.brand_listed.
Qed.

(** ** The standardized listing *)

Module OutputFacts.
Import ListingFacts.

Lemma accepted_shape raw out :
  standardize_listing raw = Ok (Some out) ->
  exists t d p g pr c,
    out = standardized raw t d p g pr c /\
    t <> [] /\ Str.strip t = t /\ Str.strip d = d /\
    extract_gpu_info t d = Ok (Some g) /\
    extract_price p = Ok pr /\
    _standardize_condition (dict_get raw "condition" (PStr [])) = Ok c.
Proof.
  intros H. apply standardize_inv in H.
  apply try_inv in H
    as [t [d [p [g [pr [c [Ht [Hd [Hp [Hn [Hg [Hc [Hpr [Hco ->]]]]]]]]]]]]]].
  exists t, d, p, g, pr, c. repeat split; try assumption.
  - exact (method_strip_stripped _ _ Ht).
  - exact (method_strip_stripped _ _ Hd).
Qed.

End OutputFacts.

(** X8. An accepted listing always has the same twenty-two keys, each once
    and in the same order, whatever keys the raw listing has, and no key
    [price]: the price text of a raw listing whose [price] is a string (or is
    missing) appears, trimmed, under [price_text], as its title and
    description appear trimmed under their own keys.  Eight keys hold the
    raw value, or [None] when the raw listing has none; [marketplace] falls
    back to the raw [source]; [is_sold] and [is_featured] default to
    [False]. *)
Theorem output_has_fixed_keys (raw_listing out : pydict)
  (title description price_text : text) :
  standardize_listing raw_listing = Ok (Some out) ->
  str_field raw_listing "title" title ->
  str_field raw_listing "description" description ->
  str_field raw_listing "price" price_text ->
  map fst out = output_keys /\ NoDup output_keys /\
  lookup out "price" = None /\
  lookup out "title" = Some (PStr (Str.strip title)) /\
  lookup out "description" = Some (PStr (Str.strip description)) /\
  lookup out "price_text" = Some (PStr (Str.strip price_text)) /\
  (forall key, In key passed_keys ->
     lookup out key = Some (dict_get raw_listing key PNone)) /\
  lookup out "marketplace" =
    Some (dict_get raw_listing "marketplace" (dict_get raw_listing "source" PNone)) /\
  lookup out "is_sold" = Some (dict_get raw_listing "is_sold" (PBool false)) /\
  lookup out "is_featured" = Some (dict_get raw_listing "is_featured" (PBool false)).
Proof.
  unfold str_field. intros H Et Ed Ep.
  apply ListingFacts.standardize_inv, ListingFacts.try_inv in H
    as [t [d [p [g [pr [c [Ht [Hd [Hp [_ [_ [_ [_ [_ ->]]]]]]]]]]]]]].
  rewrite Et in Ht. rewrite Ed in Hd. rewrite Ep in Hp.
  injection Ht as <-. injection Hd as <-. injection Hp as <-.
  split; [reflexivity|]. split.
  { unfold output_keys. repeat constructor; simpl; intuition discriminate. }
  do 4 (split; [reflexivity|]). split; [|repeat split].
  intros key I. unfold passed_keys in I. simpl in I.
  repeat (destruct I as [<- | I]; [reflexivity|]). contradiction.
Qed.

Lemma output_has_fixed_keys_witness :
  standardize_listing sample_listing = Ok (Some sample_output) /\
  map fst sample_output = output_keys /\ NoDup output_keys /\
  lookup sample_output "price" = None /\
  lookup sample_output "title" =
    Some (PStr (Str.strip "MSI RTX 4090 Gaming X Trio 24GB")) /\
  lookup sample_output "description" = Some (PStr (Str.strip [])) /\
  lookup sample_output "price_text" = Some (PStr (Str.strip "£1,450.00")) /\
  (forall key, In key passed_keys ->
     lookup sample_output key = Some (dict_get sample_listing key PNone)) /\
  lookup sample_output "marketplace" =
    Some (dict_get sample_listing "marketplace" (dict_get sample_listing "source" PNone)) /\
  lookup sample_output "is_sold" =
    Some (dict_get sample_listing "is_sold" (PBool false)) /\
  lookup sample_output "is_featured" =
    Some (dict_get sample_listing "is_featured" (PBool false)).
Proof.
  split; [vm_compute; reflexivity|].
  apply (output_has_fixed_keys sample_listing sample_output
           "MSI RTX 4090 Gaming X Trio 24GB" [] "£1,450.00");
    vm_compute; reflexivity.
Defined.

Module FieldFacts.
Import IdentityFacts.

Lemma price_band p pr q :
  extract_price p = Ok pr -> pr = Some q -> (10 # 1 <= q)%Q /\ (q <= 10000 # 1)%Q.
Proof.
  intros E ->. unfold extract_price in E. destruct p as [|c t]; [discriminate|].
  apply PriceFacts.extract_price_from_band in E. unfold in_band in E.
  apply andb_true_iff in E as [E1 E2]. split; now apply Qle_bool_iff.
Qed.

Lemma digits_nonempty (ds : text) n : length ds = S n -> ds <> [].
Proof. destruct ds; [discriminate | discriminate]. Qed.

(** The invariant of an identity, read off the three ways to build one. *)
Lemma identity_fields title description g :
  extract_gpu_info title description = Ok (Some g) ->
  In (manufacturer g) vendors /\ series g <> [] /\ model g <> [] /\
  confidence_score g = conf_match /\
  match vram g with Some v => (1 <= v <= 24)%Z | None => True end /\
  match card_manufacturer g with Some b => In b brands | None => True end.
Proof.
  intros E. destruct (extract_cases _ _ _ E) as [[V [Cm Cf]] C]. cbn zeta in *.
  assert (R : match vram g with Some v => (1 <= v <= 24)%Z | None => True end).
  { destruct (vram g) as [v|]; [|exact I]. exact (VramFacts.extract_vram_range _ _ V). }
  assert (B : match card_manufacturer g with Some b => In b brands | None => True end).
  { destruct (card_manufacturer g) as [b|] eqn:Eb; [|exact I].
    apply (BrandFacts.brand_listed (combined title description)). now rewrite <- Cm. }
  destruct C as [[_ [M [ds [L [F [S Md]]]]]] |
                 [[_ [_ [M [ds [sfx [L [F [Sx [S Md]]]]]]]]] |
                  [_ [_ [_ [M [S [l [ds [Hl [L [F Md]]]]]]]]]]]];
    rewrite M, Md.
  - repeat split; try assumption.
    + simpl. auto.
    + destruct S as [[-> _] | [[-> _] | [[-> _] | ->]]]; discriminate.
    + pose proof (digits_nonempty ds 3 L).
      destruct (Str.contains "ti" (combined title description)); destruct ds;
        simpl; congruence.
  - repeat split; try assumption.
    + simpl. auto.
    + destruct S as [[-> _] | [-> _]]; discriminate.
    + pose proof (digits_nonempty ds 3 L). destruct ds; simpl; congruence.
  - rewrite S. repeat split; try assumption.
    + simpl. auto.
    + discriminate.
    + discriminate.
Qed.

End FieldFacts.

(** X9. In an accepted listing the title is trimmed and not empty, the
    description is trimmed, the price is absent or between 10 and 10000, the
    GPU manufacturer is NVIDIA, AMD or Intel, series and model are not empty,
    the VRAM is absent or between 1 and 24, the card manufacturer is absent or
    one of the thirteen brands, the confidence is 0.9 and the condition is a
    non-empty string. *)
Theorem output_fields (raw_listing out : pydict) :
  standardize_listing raw_listing = Ok (Some out) -> well_formed_output out.
Proof.
  intros H. unfold well_formed_output. apply OutputFacts.accepted_shape in H
    as [t [d [p [g [pr [c [-> [Nt [St [Sd [Hg [Hp Hc]]]]]]]]]]]].
  destruct (FieldFacts.identity_fields _ _ _ Hg) as [Vm [Ns [Nm [Cf [Vr Cb]]]]].
  split; [exists t; now repeat split|].
  split; [exists d; now split|].
  split.
  { destruct pr as [q|]; [right | now left].
    exists q. split; [reflexivity|]. exact (FieldFacts.price_band _ _ _ Hp eq_refl). }
  split; [exists (manufacturer g), (series g), (model g); now repeat split|].
  split.
  { change (lookup (standardized raw_listing t d p g pr c) "vram_gb")
      with (Some (opt_int (vram g))).
    destruct (vram g) as [v|]; [right; now exists v | now left]. }
  split.
  { change (lookup (standardized raw_listing t d p g pr c) "card_manufacturer")
      with (Some (opt_str (card_manufacturer g))).
    destruct (card_manufacturer g) as [b|]; [right; now exists b | now left]. }
  split.
  { change (lookup (standardized raw_listing t d p g pr c) "confidence_score")
      with (Some (PFloat (confidence_score g))). now rewrite Cf. }
  exists c. split; [reflexivity|]. exact (RenormFacts.condition_nonempty _ _ Hc).
Qed.

Lemma output_fields_witness :
  standardize_listing sample_listing = Ok (Some sample_output) /\
  well_formed_output sample_output.
Proof.
  split; [vm_compute; reflexivity|].
  apply (output_fields sample_listing sample_output). vm_compute. reflexivity.
Defined.

Module ResubmitFacts.
Import ListingFacts.

(** Whatever the raw condition was, its normal form is normalized to its
    renormal form. *)
Lemma normalized_again v c :
  _standardize_condition v = Ok c ->
  _standardize_condition (PStr c) = Ok (renormalized c).
Proof.
  unfold _standardize_condition at 1.
  destruct v as [|b|z|q|s|l];
    try (destruct (negb _); [intros E; injection E as <-; reflexivity | discriminate]).
  destruct s as [|x s]; cbn [truthy negb].
  - intros E. injection E as <-. reflexivity.
  - destruct (scan_conditions condition_map (Str.strip (Str.lower (x :: s))))
      as [st|] eqn:S; intros E; injection E as <-.
    + apply RenormFacts.scan_standard in S as [->|[->|[->|[->| ->]]]]; reflexivity.
    + destruct (RenormFacts.passthrough_again (x :: s)) as [P Q];
        [discriminate | exact S |].
      rewrite P. unfold renormalized.
      destruct (Str.eqb (Str.title (x :: s)) "Like New") eqn:B; [|reflexivity].
      apply TitleFacts.eqb_eq in B. contradiction.
Qed.

Ltac by_key key :=
  repeat match goal with
         | |- context [String.eqb ?k key] =>
             let E := fresh "E" in
             destruct (String.eqb k key) eqn:E;
             [apply String.eqb_eq in E; try congruence|]
         end.

(** The keys a second run copies from its input. *)
Lemma copied_keys raw t d p g pr c p' pr' c' key :
  key <> "price_text"%string -> key <> "standardized_price"%string ->
  key <> "condition"%string ->
  lookup (standardized (standardized raw t d p g pr c) t d p' g pr' c') key =
  lookup (standardized raw t d p g pr c) key.
Proof.
  intros N1 N2 N3.
  unfold standardized at 1 3. cbn [lookup].
  by_key key; reflexivity.
Qed.

End ResubmitFacts.

(** X10. Feeding an accepted listing back into [standardize_listing], when
    the raw condition is not a string outside ASCII and the pound sign,
    gives a listing that differs from it in three keys only: [price_text]
    becomes empty and [standardized_price] becomes [None], because the output
    stores the price text under [price_text] and the input is read from
    [price]; and the condition "Like New" becomes "New".  Every other key,
    present or not, has the same value. *)
Theorem resubmission (raw_listing out : pydict) :
  (forall c, dict_get raw_listing "condition" (PStr []) = PStr c -> plain c = true) ->
  standardize_listing raw_listing = Ok (Some out) ->
  exists out',
    standardize_listing out = Ok (Some out') /\
    lookup out' "price_text" = Some (PStr []) /\
    lookup out' "standardized_price" = Some PNone /\
    (exists c, lookup out "condition" = Some (PStr c) /\
               lookup out' "condition" = Some (PStr (renormalized c))) /\
    forall key,
      key <> "price_text"%string -> key <> "standardized_price"%string ->
      key <> "condition"%string -> lookup out' key = lookup out key.
Proof.
  intros _ H. apply ListingFacts.standardize_inv in H.
  apply ListingFacts.try_inv in H
    as [t [d [p [g [pr [c [Ht [Hd [Hp [Hn [Hg [Hc [Hpr [Hco ->]]]]]]]]]]]]]].
  pose proof (ResubmitFacts.normalized_again _ _ Hco) as Hc'.
  exists (standardized (standardized raw_listing t d p g pr c) t d [] g None
                       (renormalized c)).
  split; [|split; [reflexivity | split; [reflexivity | split]]].
  - apply ListingFacts.standardize_of_try, ListingFacts.try_accept;
      try assumption; try reflexivity.
    + rewrite IdempotenceFacts.out_title. simpl.
      now rewrite (ListingFacts.method_strip_stripped _ _ Ht).
    + rewrite IdempotenceFacts.out_description. simpl.
      now rewrite (ListingFacts.method_strip_stripped _ _ Hd).
  - exists c. split; reflexivity.
  - intros key. apply ResubmitFacts.copied_keys.
Qed.

Lemma resubmission_witness :
  standardize_listing sample_listing = Ok (Some sample_output) /\
  exists out',
    standardize_listing sample_output = Ok (Some out') /\
    lookup out' "price_text" = Some (PStr []) /\
    lookup out' "standardized_price" = Some PNone /\
    (exists c, lookup sample_output "condition" = Some (PStr c) /\
               lookup out' "condition" = Some (PStr (renormalized c))) /\
    forall key,
      key <> "price_text"%string -> key <> "standardized_price"%string ->
      key <> "condition"%string -> lookup out' key = lookup sample_output key.
Proof.
  split; [vm_compute; reflexivity|].
  apply (resubmission sample_listing sample_output).
  - intros c E. vm_compute in E. injection E as <-. reflexivity.
  - vm_compute. reflexivity.
Defined.

(** ** The batch ([GPUScraper.standardize_data]) *)

Module BatchFacts.

Lemma accepted_truthy raw out :
  standardize_listing raw = Ok (Some out) -> dict_truthy out = true.
Proof.
  intros H. apply OutputFacts.accepted_shape in H as [t [d [p [g [pr [c [-> _]]]]]]].
  reflexivity.
Qed.

Lemma data_cons raw l :
  standardize_data (raw :: l) = accepted_of raw ++ standardize_data l.
Proof.
  unfold accepted_of. cbn [standardize_data].
  destruct (standardize_listing raw) as [[out|]|e] eqn:E; try reflexivity.
  now rewrite (accepted_truthy raw out E).
Qed.

Lemma data_flat l : standardize_data l = flat_map accepted_of l.
Proof.
  induction l as [|raw l IH]; [reflexivity|].
  rewrite data_cons, IH. reflexivity.
Qed.

Lemma accepted_length raw : length (accepted_of raw) <= 1.
Proof.
  unfold accepted_of. destruct (standardize_listing raw) as [[out|]|e]; simpl; lia.
Qed.

Lemma data_in l out :
  In out (standardize_data l) <->
  exists raw, In raw l /\ standardize_listing raw = Ok (Some out).
Proof.
  rewrite data_flat, in_flat_map. split.
  - intros [raw [I A]]. exists raw. split; [exact I|]. unfold accepted_of in A.
    destruct (standardize_listing raw) as [[o|]|e]; simpl in A; try contradiction.
    destruct A as [-> | []]. reflexivity.
  - intros [raw [I A]]. exists raw. split; [exact I|]. unfold accepted_of.
    rewrite A. now left.
Qed.

Lemma data_length l : length (standardize_data l) <= length l.
Proof.
  induction l as [|raw l IH]; [simpl; lia|].
  rewrite data_cons, length_app. cbn [length].
  pose proof (accepted_length raw). lia.
Qed.

End BatchFacts.

(** X11. A batch can be split anywhere: standardizing two batches one after
    the other gives the results of the first followed by the results of the
    second.  No listing, rejected, malformed or accepted, changes what
    becomes of another. *)
Theorem standardize_data_app (a b : list pydict) :
  standardize_data (a ++ b) = standardize_data a ++ standardize_data b.
Proof.
  induction a as [|raw a IH]; [reflexivity|].
  rewrite <- app_comm_cons, !BatchFacts.data_cons, IH. now rewrite app_assoc.
Qed.

(** X12. [standardize_data] returns exactly the listings [standardize_listing]
    accepts, in the order of the batch: a listing is in the result if and
    only if it is the accepted output of a raw listing of the batch, and the
    result is never longer than the batch. *)
Theorem standardize_data_accepted (raw_listings : list pydict) :
  standardize_data raw_listings = flat_map accepted_of raw_listings /\
  (forall out,
     In out (standardize_data raw_listings) <->
     exists raw, In raw raw_listings /\ standardize_listing raw = Ok (Some out)) /\
  length (standardize_data raw_listings) <= length raw_listings.
Proof.
  split; [apply BatchFacts.data_flat|]. split.
  - intros out. apply BatchFacts.data_in.
  - apply BatchFacts.data_length.
Qed.

(** ** Duplicates ([GPUScraper.remove_duplicates]) *)

Module DedupFacts.

Lemma set_contains_ok seen url b :
  set_contains seen url = Ok b ->
  b = existsb (py_eqb url) seen /\ (forall l, url <> PList l).
Proof.
  destruct url; simpl; intros E; try discriminate; injection E as <-;
    (split; [reflexivity | intros l' C; discriminate C]).
Qed.

Lemma set_contains_plain seen url :
  (forall l, url <> PList l) -> set_contains seen url = Ok (existsb (py_eqb url) seen).
Proof. destruct url; intros N; try reflexivity. now destruct (N l). Qed.

(** One step of the loop. *)
Lemma from_cons seen x l :
  remove_duplicates_from seen (x :: l) =
  if truthy (url_of x) then
    known <- set_contains seen (url_of x) ;;
    if known then remove_duplicates_from seen l
    else
      u <- remove_duplicates_from (url_of x :: seen) l ;;
      Ok (x :: u)
  else remove_duplicates_from seen l.
Proof. reflexivity. Qed.

(** What a successful run keeps. *)
Lemma from_inv l : forall seen u,
  remove_duplicates_from seen l = Ok u ->
  subseq u l /\
  Forall (fun x => truthy (url_of x) = true /\ (forall k, url_of x <> PList k) /\
                   fresh seen x) u /\
  distinct_urls u.
Proof.
  induction l as [|x l IH]; intros seen u H.
  - injection H as <-. repeat split; constructor.
  - rewrite from_cons in H. destruct (truthy (url_of x)) eqn:T.
    + destruct (set_contains seen (url_of x)) as [known|e] eqn:C; [|discriminate].
      apply set_contains_ok in C as [-> N]. cbn [bind] in H.
      destruct (existsb (py_eqb (url_of x)) seen) eqn:K.
      * destruct (IH _ _ H) as [S [F D]]. repeat split; [now constructor | exact F | exact D].
      * destruct (remove_duplicates_from (url_of x :: seen) l) as [u'|e] eqn:R;
          [|discriminate].
        cbn [bind] in H. injection H as <-.
        destruct (IH _ _ R) as [S [F D]]. repeat split.
        -- now constructor.
        -- constructor; [repeat split; assumption|].
           eapply Forall_impl; [|exact F]. intros y [Ty [Ny Fy]].
           repeat split; try assumption. unfold fresh in *. simpl in Fy.
           now apply orb_false_iff in Fy as [_ Fy].
        -- constructor; [|exact D].
           eapply Forall_impl; [|exact F]. intros y [_ [_ Fy]].
           unfold fresh in Fy. simpl in Fy. now apply orb_false_iff in Fy as [Fy _].
    + destruct (IH _ _ H) as [S [F D]]. repeat split; [now constructor | exact F | exact D].
Qed.

(** A list the loop has nothing to remove from. *)
Lemma from_fixed u : forall seen,
  Forall (fun x => truthy (url_of x) = true /\ (forall k, url_of x <> PList k) /\
                   fresh seen x) u ->
  distinct_urls u ->
  remove_duplicates_from seen u = Ok u.
Proof.
  induction u as [|x u IH]; intros seen F D; [reflexivity|].
  inversion F as [|? ? [T [N Fx]] Fu]; subst.
  inversion D as [|? ? Dx Du]; subst.
  rewrite from_cons, T, (set_contains_plain seen _ N). cbn [bind].
  unfold fresh in Fx. rewrite Fx.
  rewrite (IH (url_of x :: seen)); [reflexivity| |exact Du].
  apply Forall_forall. intros y Iy.
  rewrite Forall_forall in Fu, Dx. destruct (Fu y Iy) as [Ty [Ny Fy]].
  repeat split; try assumption. unfold fresh in *. simpl.
  now rewrite (Dx y Iy), Fy.
Qed.

(** The first listing with a given URL is kept. *)
Lemma from_first pre : forall seen x post u,
  remove_duplicates_from seen (pre ++ x :: post) = Ok u ->
  truthy (url_of x) = true -> fresh seen x ->
  (forall y, In y pre -> py_eqb (url_of x) (url_of y) = false) ->
  In x u.
Proof.
  induction pre as [|y pre IH]; intros seen x post u H T Fx Hp.
  - simpl app in H. rewrite from_cons, T in H.
    destruct (set_contains seen (url_of x)) as [known|e] eqn:C; [|discriminate].
    apply set_contains_ok in C as [-> N]. cbn [bind] in H.
    unfold fresh in Fx. rewrite Fx in H.
    destruct (remove_duplicates_from (url_of x :: seen) post) as [u'|e]; [|discriminate].
    cbn [bind] in H. injection H as <-. now left.
  - rewrite <- app_comm_cons, from_cons in H.
    assert (Hp' : forall z, In z pre -> py_eqb (url_of x) (url_of z) = false)
      by (intros z Iz; apply Hp; now right).
    destruct (truthy (url_of y)); [|now apply (IH seen x post)].
    destruct (set_contains seen (url_of y)) as [known|e]; [|discriminate].
    cbn [bind] in H. destruct known; [now apply (IH seen x post)|].
    destruct (remove_duplicates_from (url_of y :: seen) (pre ++ x :: post))
      as [u'|e] eqn:R; [|discriminate].
    cbn [bind] in H. injection H as <-. right.
    apply (IH (url_of y :: seen) x post u' R T); [|exact Hp'].
    unfold fresh in *. simpl. rewrite (Hp y (or_introl eq_refl)). exact Fx.
Qed.

(** The loop fails exactly on a non-empty list used as a URL. *)
Lemma from_result l : forall seen,
  match remove_duplicates_from seen l with
  | Ok _ => Forall (fun x => unhashable_url x = false) l
  | Raise e => e = TypeError /\ Exists (fun x => unhashable_url x = true) l
  end.
Proof.
  assert (tail : forall (x : pydict) t (r : res (list pydict)),
    unhashable_url x = false ->
    match r with
    | Ok _ => Forall (fun x => unhashable_url x = false) t
    | Raise e => e = TypeError /\ Exists (fun x => unhashable_url x = true) t
    end ->
    match r with
    | Ok _ => Forall (fun x => unhashable_url x = false) (x :: t)
    | Raise e => e = TypeError /\ Exists (fun x => unhashable_url x = true) (x :: t)
    end).
  { intros x t r Ux H. destruct r; [now constructor|].
    destruct H as [-> E]. split; [reflexivity | now apply Exists_cons_tl]. }
  induction l as [|x l IH]; intros seen; [constructor|].
  rewrite from_cons. destruct (unhashable_url x) eqn:Uh.
  - assert (Uh' := Uh). unfold unhashable_url in Uh'.
    destruct (url_of x) as [| | | | |[|]]; try discriminate.
    split; [reflexivity | now apply Exists_cons_hd].
  - destruct (truthy (url_of x)) eqn:T; [|apply tail; [exact Uh | apply IH]].
    rewrite set_contains_plain.
    + cbn [bind]. destruct (existsb (py_eqb (url_of x)) seen); [apply tail; [exact Uh | apply IH]|].
      specialize (IH (url_of x :: seen)).
      destruct (remove_duplicates_from (url_of x :: seen) l); cbn [bind].
      * now constructor.
      * destruct IH as [-> E]. split; [reflexivity | now apply Exists_cons_tl].
    + intros k E. unfold unhashable_url in Uh. rewrite E in Uh, T.
      destruct k; discriminate.
Qed.

End DedupFacts.

(** X13. What [remove_duplicates] returns is a sub-list of its argument, in
    the same order; every listing it keeps has a URL that is neither missing
    nor empty, and no two kept listings have equal URLs. *)
Theorem remove_duplicates_keeps (listings unique_listings : list pydict) :
  remove_duplicates listings = Ok unique_listings ->
  subseq unique_listings listings /\
  Forall (fun listing => truthy (url_of listing) = true) unique_listings /\
  distinct_urls unique_listings.
Proof.
  intros H. destruct (DedupFacts.from_inv _ _ _ H) as [S [F D]].
  split; [exact S|]. split; [|exact D].
  eapply Forall_impl; [|exact F]. now intros x [T _].
Qed.

Lemma remove_duplicates_keeps_witness :
  remove_duplicates standardized_batch = Ok final_batch /\
  subseq final_batch standardized_batch /\
  Forall (fun listing => truthy (url_of listing) = true) final_batch /\
  distinct_urls final_batch.
Proof.
  split; [reflexivity|].
  apply (remove_duplicates_keeps standardized_batch final_batch). reflexivity.
Defined.

(** X14. The first listing of a batch that carries a given URL is kept: a
    listing with a URL that no earlier listing has is in the result. *)
Theorem first_occurrence_kept (pre post unique_listings : list pydict) (listing : pydict) :
  remove_duplicates (pre ++ listing :: post) = Ok unique_listings ->
  truthy (url_of listing) = true ->
  (forall earlier, In earlier pre ->
     py_eqb (url_of listing) (url_of earlier) = false) ->
  In listing unique_listings.
Proof.
  intros H T Hp. now apply (DedupFacts.from_first pre [] listing post).
Qed.

Lemma first_occurrence_kept_witness :
  In (nth 3 standardized_batch []) final_batch.
Proof.
  apply (first_occurrence_kept (firstn 3 standardized_batch) [] final_batch).
  - reflexivity.
  - reflexivity.
  - intros earlier [<- | [<- | [<- | []]]]; reflexivity.
Defined.

(** X15. Removing duplicates twice changes nothing more. *)
Theorem remove_duplicates_idempotent (listings unique_listings : list pydict) :
  remove_duplicates listings = Ok unique_listings ->
  remove_duplicates unique_listings = Ok unique_listings.
Proof.
  intros H. destruct (DedupFacts.from_inv _ _ _ H) as [_ [F D]].
  now apply DedupFacts.from_fixed.
Qed.

Lemma remove_duplicates_idempotent_witness :
  remove_duplicates standardized_batch = Ok final_batch /\
  remove_duplicates final_batch = Ok final_batch.
Proof.
  split; [reflexivity|].
  apply (remove_duplicates_idempotent standardized_batch final_batch). reflexivity.
Defined.

(** X16. [remove_duplicates] is not guarded by a [try].  It returns when
    every URL is [None], a boolean, a number or a string; it raises a
    [TypeError] when some listing has a non-empty list as URL, which the
    membership test on the set cannot hash. *)
Theorem remove_duplicates_raises (listings : list pydict) :
  (Forall (fun listing => scalar (url_of listing) = true) listings ->
   exists unique_listings, remove_duplicates listings = Ok unique_listings) /\
  (Exists (fun listing => unhashable_url listing = true) listings ->
   remove_duplicates listings = Raise TypeError).
Proof.
  pose proof (DedupFacts.from_result listings []) as R.
  fold (remove_duplicates listings) in R.
  destruct (remove_duplicates listings) as [u|e].
  - split; [intros _; now exists u|].
    intros E. apply Exists_exists in E as [x [I U]].
    rewrite Forall_forall in R. rewrite (R x I) in U. discriminate.
  - destruct R as [-> E]. split; [|reflexivity].
    intros F. apply Exists_exists in E as [x [I U]].
    rewrite Forall_forall in F. specialize (F x I).
    unfold unhashable_url in U. destruct (url_of x) as [| | | | |[|v k]]; discriminate.
Qed.

(** ** Standardizing, then removing duplicates ([GPUScraper.run_scraper]) *)

Module PipelineFacts.

Lemma accepted_url raw out :
  standardize_listing raw = Ok (Some out) -> url_of out = dict_get raw "url" PNone.
Proof.
  intros H. apply OutputFacts.accepted_shape in H as [t [d [p [g [pr [c [-> _]]]]]]].
  reflexivity.
Qed.

Lemma subseq_in {A : Type} (u l : list A) : subseq u l -> forall x, In x u -> In x l.
Proof.
  induction 1 as [|y u l S IH|y u l S IH]; intros x I.
  - exact I.
  - right. now apply IH.
  - destruct I as [<- | I]; [now left | right; now apply IH].
Qed.

Lemma subseq_length {A : Type} (u l : list A) : subseq u l -> length u <= length l.
Proof. induction 1; simpl; lia. Qed.

Lemma unhashable_accepted raw out :
  standardize_listing raw = Ok (Some out) ->
  unhashable_url out = true <->
  exists v k, dict_get raw "url" PNone = PList (v :: k).
Proof.
  intros H. unfold unhashable_url. rewrite (accepted_url raw out H).
  destruct (dict_get raw "url" PNone) as [| | | | |[|v k]]; split;
    try discriminate; try (intros [v' [k' C]]; discriminate C).
  - intros _. now exists v, k.
  - reflexivity.
Qed.

End PipelineFacts.

(** X17. A listing of the final data set is the accepted output of a raw
    listing of the batch whose [url] is present and non-empty: a raw listing
    without URL never reaches the export, although the standardizer accepts
    it.  No two final listings have equal URLs, and there are at most as many
    of them as raw listings. *)
Theorem final_listings_have_urls (raw_listings final : list pydict) :
  final_listings raw_listings = Ok final ->
  Forall (fun out =>
            exists raw, In raw raw_listings /\
                        standardize_listing raw = Ok (Some out) /\
                        url_of out = dict_get raw "url" PNone /\
                        truthy (dict_get raw "url" PNone) = true) final /\
  distinct_urls final /\
  length final <= length raw_listings.
Proof.
  unfold final_listings. intros H.
  destruct (DedupFacts.from_inv _ _ _ H) as [S [F D]].
  split; [|split; [exact D|]].
  - apply Forall_forall. intros out I.
    rewrite Forall_forall in F. destruct (F out I) as [T _].
    apply (PipelineFacts.subseq_in _ _ S), BatchFacts.data_in in I as [raw [Ir A]].
    exists raw. pose proof (PipelineFacts.accepted_url raw out A) as U.
    repeat split; try assumption. now rewrite <- U.
  - pose proof (PipelineFacts.subseq_length _ _ S).
    pose proof (BatchFacts.data_length raw_listings). lia.
Qed.

Lemma final_listings_have_urls_witness :
  standardize_listing sample_listing = Ok (Some sample_output) /\
  In sample_listing raw_batch /\ ~ In sample_output final_batch /\
  Forall (fun out =>
            exists raw, In raw raw_batch /\
                        standardize_listing raw = Ok (Some out) /\
                        url_of out = dict_get raw "url" PNone /\
                        truthy (dict_get raw "url" PNone) = true) final_batch /\
  distinct_urls final_batch /\
  length final_batch <= length raw_batch.
Proof.
  split; [reflexivity|]. split; [right; now left|]. split.
  - intros [C | [C | []]]; discriminate C.
  - apply (final_listings_have_urls raw_batch final_batch). reflexivity.
Defined.

(** X18. The standardizer swallows every exception of its own, but a raw
    listing it accepts keeps its [url] as it is.  So the two steps together
    return when every raw [url] is [None], a boolean, a number or a string,
    and raise a [TypeError] when a raw listing that is accepted has a
    non-empty list as [url]. *)
Theorem final_listings_raises (raw_listings : list pydict) :
  (Forall (fun raw => scalar (dict_get raw "url" PNone) = true) raw_listings ->
   exists final, final_listings raw_listings = Ok final) /\
  (forall raw out v k,
     In raw raw_listings -> standardize_listing raw = Ok (Some out) ->
     dict_get raw "url" PNone = PList (v :: k) ->
     final_listings raw_listings = Raise TypeError).
Proof.
  unfold final_listings.
  pose proof (DedupFacts.from_result (standardize_data raw_listings) []) as R.
  fold (remove_duplicates (standardize_data raw_listings)) in R.
  destruct (remove_duplicates (standardize_data raw_listings)) as [u|e].
  - split; [intros _; now exists u|].
    intros raw out v k I A U. rewrite Forall_forall in R.
    assert (Io : In out (standardize_data raw_listings))
      by (apply BatchFacts.data_in; now exists raw).
    assert (C : unhashable_url out = true)
      by (apply (PipelineFacts.unhashable_accepted raw out A); now exists v, k).
    rewrite (R out Io) in C. discriminate.
  - destruct R as [-> E]. split; [|reflexivity].
    intros F. apply Exists_exists in E as [out [Io U]].
    apply BatchFacts.data_in in Io as [raw [I A]].
    apply (PipelineFacts.unhashable_accepted raw out A) in U as [v [k U]].
    rewrite Forall_forall in F. specialize (F raw I). rewrite U in F. discriminate.
Qed.

(** ** The scrapers' filter ([BaseScraper.is_gpu_listing]) *)

Module FilterFacts.
Import Re ReSpec ReShape.

Lemma lower_idem t : Str.lower (Str.lower t) = Str.lower t.
Proof.
  unfold Str.lower. rewrite map_map. apply map_ext, TitleFacts.lower_lower.
Qed.

(** A literal matches a text that is the literal up to letter case (and the
    literal itself when case is not ignored). *)
Lemma atom_lower ic c x :
  atom_matches ic (AChr c) x = true -> Str.lower_char x = Str.lower_char c.
Proof.
  destruct ic; simpl; intros M; apply Ascii.eqb_eq in M; now rewrite M.
Qed.

Lemma lit_step ic w : forall a s s',
  is_lit w a = true -> step ic a s s' ->
  exists w', rest s = w' ++ rest s' /\ Str.lower w' = Str.lower w.
Proof.
  induction w as [|c w IH]; intros a s s' L H; [discriminate|].
  destruct w as [|c2 w].
  - destruct a as [|[c'| |]| |a1 a2| | | |]; try discriminate.
    + simpl in L. apply Ascii.eqb_eq in L as <-.
      destruct H as [x [xs [R [M ->]]]]. apply atom_lower in M.
      exists [x]. split; [exact R|]. simpl. now rewrite M.
    + destruct a1 as [|[c'| |]| | | | | |]; try discriminate.
      simpl in L. apply andb_true_iff in L as [_ L]. destruct a2; discriminate.
  - destruct a as [| | |[|[c'| |]| | | | | |] b| | | |]; try discriminate.
    change ((Ascii.eqb c c' && is_lit (c2 :: w) b)%bool = true) in L.
    apply andb_true_iff in L as [Lc Lb].
    apply Ascii.eqb_eq in Lc as <-.
    destruct H as [t [[x [xs [R [M ->]]]] Hb]]. apply atom_lower in M.
    destruct (IH b (advance x xs s) s' Lb Hb) as [w' [E Lw]]. simpl in E.
    exists (x :: w'). split; [now rewrite R, E|].
    change (Str.lower_char x :: Str.lower w' = Str.lower_char c :: Str.lower (c2 :: w)).
    now rewrite M, Lw.
Qed.

Lemma contains_lower_part (pre w' post w t : text) :
  t = pre ++ w' ++ post -> Str.lower w' = Str.lower w ->
  Str.contains (Str.lower w) (Str.lower t) = true.
Proof.
  intros -> E. apply StrFacts.contains_spec.
  exists (Str.lower pre), (Str.lower post).
  unfold Str.lower in *. now rewrite !map_app, E.
Qed.

Lemma reads_step ic w r : forall s s',
  reads w r = true -> step ic r s s' ->
  exists pre w' post, rest s = pre ++ w' ++ post /\ Str.lower w' = Str.lower w.
Proof.
  induction r as [|a| |a IHa b IHb|a IHa b IHb|a IHa|a IHa|g a IHa];
    intros s s' R H; try discriminate.
  cbn [reads] in R. destruct H as [t [Ha Hb]].
  destruct (is_lit w a) eqn:La.
  - destruct (lit_step ic w a s t La Ha) as [w' [E Lw]].
    now exists [], w', (rest t).
  - destruct (ShapeFacts.step_rest _ _ _ _ Ha) as [w0 [E _]].
    destruct (is_lit w b) eqn:Lb.
    + destruct (lit_step ic w b t s' Lb Hb) as [w' [E' Lw]].
      exists w0, w', (rest s'). now rewrite E, E'.
    + simpl in R. destruct (IHb t s' R Hb) as [pre [w' [post [E' Lw]]]].
      exists (w0 ++ pre), w', post. now rewrite E, E', app_assoc.
Qed.

(** A pattern that reads the literal [w] only matches texts that contain
    [w], up to letter case. *)
Lemma search_reads ic w r t mo :
  reads w r = true -> search ic r t = Some mo ->
  Str.contains (Str.lower w) (Str.lower t) = true.
Proof.
  intros R S.
  apply ShapeFacts.search_steps in S as [pre [b [t' [s [E [St _]]]]]].
  apply (reads_step ic w _ (init b t') s R) in St as [p [w' [q [St Lw]]]].
  simpl in St. apply (contains_lower_part (pre ++ p) w' q); [|exact Lw].
  now rewrite E, St, app_assoc.
Qed.

Lemma table_reads w (table : list rule) t :
  forallb (fun r => reads w (fst r)) table = true ->
  some_match table (Str.lower t) ->
  Str.contains (Str.lower w) (Str.lower t) = true.
Proof.
  intros A [r [I M]]. rewrite forallb_forall in A. specialize (A r I).
  unfold rule_matches in M.
  destruct (search true (fst r) (Str.lower t)) as [mo|] eqn:S; [|now destruct M].
  rewrite <- (lower_idem t). exact (search_reads true w _ _ mo A S).
Qed.

Lemma indicator_found w title description :
  In w gpu_indicators ->
  Str.contains w (combined title description) = true ->
  is_gpu_listing title description = true.
Proof.
  intros I C. unfold is_gpu_listing. apply existsb_exists. now exists w.
Qed.

End FilterFacts.

(** X19. The scrapers' filter covers two of the three rule groups of the
    extractor: whenever the extractor finds an NVIDIA or an Intel card in a
    title and a description, [is_gpu_listing] accepts the same title and
    description.  An AMD card can be found in a text the filter turns down
    (the filter wants "rx" followed by a space, "radeon" or "amd"; the rules
    also match "rx7800xt"). *)
Theorem filter_covers_extractor (title description : text) (g : GPUInfo) :
  extract_gpu_info title description = Ok (Some g) ->
  is_gpu_listing title description = true \/
  (manufacturer g = "AMD" /\
   Str.contains "rx" (Str.lower (title ++ " " ++ description)) = true).
Proof.
  intros H. apply IdentityFacts.extract_cases in H as [_ H]. cbn zeta in H.
  destruct H as [[M _] | [[_ [M [A _]]] | [_ [_ [M _]]]]].
  - left. apply (FilterFacts.indicator_found "rtx"); [simpl; auto 12|].
    now apply (FilterFacts.table_reads "rtx" nvidia_patterns).
  - right. split; [exact A|].
    now apply (FilterFacts.table_reads "rx" amd_patterns).
  - left. apply (FilterFacts.indicator_found "arc"); [simpl; auto 12|].
    now apply (FilterFacts.table_reads "arc" intel_patterns).
Qed.

Lemma filter_covers_extractor_witness :
  exists g,
    extract_gpu_info arc_title [] = Ok (Some g) /\
    (is_gpu_listing arc_title [] = true \/
     (manufacturer g = "AMD" /\
      Str.contains "rx" (Str.lower (arc_title ++ " " ++ [])) = true)).
Proof.
  eexists. split; [vm_compute; reflexivity|].
  apply (filter_covers_extractor arc_title []). vm_compute; reflexivity.
Defined.

(** The AMD case of X19 does occur. *)
Example filter_misses_amd :
  exists g,
    extract_gpu_info "RX7800XT 16GB" [] = Ok (Some g) /\
    manufacturer g = "AMD" /\ is_gpu_listing "RX7800XT 16GB" [] = false.
Proof. eexists. split; [vm_compute; reflexivity|]. split; reflexivity. Qed.

(** ** What is accepted *)

Module AcceptFacts.
Import ListingFacts.

Lemma condition_ok v :
  (exists c, _standardize_condition v = Ok c) <->
  (truthy v = false \/ exists t, v = PStr t).
Proof.
  unfold _standardize_condition. split.
  - intros [c H]. destruct (truthy v) eqn:T; [right | now left].
    destruct v; try discriminate. eauto.
  - intros [T | [t ->]].
    + rewrite T. simpl. eauto.
    + apply standardize_condition_str.
Qed.

Lemma strip_field v t :
  method_strip v = Ok t <-> exists t0, v = PStr t0 /\ t = Str.strip t0.
Proof.
  split; [apply method_strip_inv|]. intros [t0 [-> ->]]. reflexivity.
Qed.

Lemma confident title description g :
  extract_gpu_info title description = Ok (Some g) ->
  Qlt_bool (confidence_score g) conf_threshold = false.
Proof.
  intros H. apply FieldFacts.identity_fields in H as [_ [_ [_ [C _]]]].
  rewrite C. reflexivity.
Qed.

End AcceptFacts.

(** X20. A raw listing whose [title], [description] and [price] are strings
    (or missing) and whose [condition] is a string or a false value is
    accepted exactly when the title is not blank and the extractor finds a GPU
    in the stripped title and description.  Neither the confidence threshold
    nor the price ever turns such a listing down. *)
Theorem acceptance (raw_listing : pydict) (title description price_text : text) :
  str_field raw_listing "title" title ->
  str_field raw_listing "description" description ->
  str_field raw_listing "price" price_text ->
  (truthy (dict_get raw_listing "condition" (PStr [])) = false \/
   exists c, dict_get raw_listing "condition" (PStr []) = PStr c) ->
  (exists out, standardize_listing raw_listing = Ok (Some out)) <->
  (Str.strip title <> [] /\
   exists g, extract_gpu_info (Str.strip title) (Str.strip description) = Ok (Some g)).
Proof.
  unfold str_field. intros Et Ed Ep Hc. split.
  - intros [out H]. apply ListingFacts.standardize_inv, ListingFacts.try_inv in H
      as [t [d [p [g [pr [c [Ht [Hd [Hp [Hn [Hg _]]]]]]]]]]].
    rewrite Et in Ht. rewrite Ed in Hd. injection Ht as <-. injection Hd as <-.
    split; [exact Hn | now exists g].
  - intros [Hn [g Hg]].
    apply AcceptFacts.condition_ok in Hc as [c Hc].
    destruct (PriceFacts.extract_price_total (Str.strip price_text)) as [pr Hpr].
    eexists. apply ListingFacts.standardize_of_try.
    apply (ListingFacts.try_accept raw_listing (Str.strip title)
             (Str.strip description) (Str.strip price_text) g pr c); try assumption.
    + now rewrite Et.
    + now rewrite Ed.
    + now rewrite Ep.
    + exact (AcceptFacts.confident _ _ _ Hg).
Qed.

Lemma acceptance_witness :
  (exists out, standardize_listing sample_listing = Ok (Some out)) <->
  (Str.strip "MSI RTX 4090 Gaming X Trio 24GB" <> [] /\
   exists g, extract_gpu_info (Str.strip "MSI RTX 4090 Gaming X Trio 24GB")
               (Str.strip []) = Ok (Some g)).
Proof.
  apply (acceptance sample_listing "MSI RTX 4090 Gaming X Trio 24GB" [] "£1,450.00");
    try reflexivity.
  right. now exists ("Used - Excellent" : text).
Defined.

(** ** Prices without a digit *)

Module DigitFacts.
Import Re ReSpec ReShape.

Lemma digit_lower c : Str.is_digit (Str.lower_char c) = Str.is_digit c.
Proof. destruct c as [[] [] [] [] [] [] [] []]; reflexivity. Qed.

Lemma needs_digit_step ic r : forall s s',
  needs_digit r = true -> step ic r s s' -> existsb Str.is_digit (rest s) = true.
Proof.
  induction r as [|a| |a IHa b IHb|a IHa b IHb|a IHa|a IHa|g a IHa];
    intros s s' N H; try discriminate.
  - destruct a; try discriminate. destruct H as [x [xs [R [M _]]]].
    rewrite R. simpl in *. now rewrite M.
  - cbn [needs_digit] in N. destruct H as [t [Ha Hb]].
    destruct (needs_digit a); [now apply (IHa s t)|].
    destruct (ShapeFacts.step_rest _ _ _ _ Ha) as [w [E _]].
    rewrite E, existsb_app, (IHb t s' N Hb). apply orb_true_r.
  - cbn [needs_digit] in N. apply andb_true_iff in N as [Na Nb].
    destruct H as [H | H]; [now apply (IHa s s') | now apply (IHb s s')].
  - destruct H as [t [H _]]. now apply (IHa s t).
Qed.

Lemma search_needs_digit ic r t :
  needs_digit r = true -> existsb Str.is_digit t = false -> search ic r t = None.
Proof.
  intros N D. destruct (search ic r t) as [mo|] eqn:S; [|reflexivity].
  apply ShapeFacts.search_steps in S as [pre [b [t' [s [E [St _]]]]]].
  apply (needs_digit_step ic r _ _ N) in St. simpl in St.
  rewrite E, existsb_app, St, orb_true_r in D. discriminate.
Qed.

Lemma sub_from_in r : forall t skip b x, In x (sub_from r skip b t) -> In x t.
Proof.
  induction t as [|c t IH]; intros skip b x I; [exact I|].
  cbn [sub_from] in I. destruct skip as [|n]; [|right; exact (IH _ _ _ I)].
  destruct (match_here false r b (c :: t)) as [s|].
  - destruct (length (seen s)); [|right; exact (IH _ _ _ I)].
    destruct I as [<- | I]; [now left | right; exact (IH _ _ _ I)].
  - destruct I as [<- | I]; [now left | right; exact (IH _ _ _ I)].
Qed.

Lemma clean_no_digit t :
  existsb Str.is_digit t = false -> existsb Str.is_digit (clean_price t) = false.
Proof.
  intros D. destruct (existsb Str.is_digit (clean_price t)) eqn:E; [|reflexivity].
  apply existsb_exists in E as [x [I Dx]]. unfold clean_price, sub_empty in I.
  apply sub_from_in in I. unfold Str.lower in I. apply in_map_iff in I as [y [<- Iy]].
  rewrite digit_lower in Dx.
  assert (C : existsb Str.is_digit t = true) by (apply existsb_exists; now exists y).
  rewrite C in D. discriminate.
Qed.

Lemma price_from_no_digit cleaned : forall patterns,
  forallb needs_digit patterns = true ->
  existsb Str.is_digit cleaned = false ->
  extract_price_from patterns cleaned = Ok None.
Proof.
  induction patterns as [|p l IH]; intros N D; [reflexivity|].
  cbn [forallb] in N. apply andb_true_iff in N as [Np Nl].
  cbn [extract_price_from]. rewrite (search_needs_digit false p cleaned Np D).
  now apply IH.
Qed.

End DigitFacts.

(** X21. A price text over ASCII and the pound sign without a digit has no
    price: [extract_price] returns [None] on it, whatever words it holds. *)
Theorem extract_price_needs_digit (price_text : text) :
  plain price_text = true ->
  existsb Str.is_digit price_text = false ->
  extract_price price_text = Ok None.
Proof.
  intros _ D. unfold extract_price. destruct price_text as [|c t]; [reflexivity|].
  apply DigitFacts.price_from_no_digit; [reflexivity|].
  now apply DigitFacts.clean_no_digit.
Qed.

Lemma extract_price_needs_digit_witness :
  extract_price "£ free, or best offer" = Ok None.
Proof. apply (extract_price_needs_digit "£ free, or best offer"); reflexivity. Defined.

(** ** Targets with capital letters *)

Module CapitalFacts.

Lemma upper_lower c : Str.is_upper (Str.lower_char c) = false.
Proof. destruct c as [[] [] [] [] [] [] [] []]; reflexivity. Qed.

(** No capital letter occurs in a lowered text. *)
Lemma contained_no_capital target t :
  Str.contains target (Str.lower t) = true -> no_capital target = true.
Proof.
  intros C. apply StrFacts.contains_spec in C as [pre [post E]].
  unfold no_capital. destruct (existsb Str.is_upper target) eqn:U; [|reflexivity].
  apply existsb_exists in U as [x [I Ux]].
  assert (Il : In x (Str.lower t))
    by (rewrite E; apply in_or_app; right; apply in_or_app; now left).
  unfold Str.lower in Il. apply in_map_iff in Il as [y [<- _]].
  rewrite upper_lower in Ux. discriminate.
Qed.

Lemma existsb_filter {A} (f p : A -> bool) l :
  (forall x, f x = true -> p x = true) ->
  existsb f (filter p l) = existsb f l.
Proof.
  intros H. induction l as [|x l IH]; [reflexivity|]. simpl.
  destruct (p x) eqn:P; simpl; [now rewrite IH|].
  destruct (f x) eqn:F; [|exact IH]. rewrite (H x F) in P. discriminate.
Qed.

End CapitalFacts.

(** X22. An NVIDIA or AMD target written with a capital letter is dead: the
    filter answers the same with and without it, because these two branches
    look the target up, as it is, in the lowered model.  (The Intel branch
    lowers its targets first.) *)
Theorem capital_targets_are_dead (gpu_info : option GPUInfo) (config : gpu_targets) :
  validate_gpu_targets gpu_info config =
  validate_gpu_targets gpu_info (without_capitals config).
Proof.
  destruct gpu_info as [g|]; [|reflexivity].
  unfold validate_gpu_targets, without_capitals. cbn [nvidia_series amd_series intel_models].
  rewrite !CapitalFacts.existsb_filter;
    [reflexivity | |]; intros s C; exact (CapitalFacts.contained_no_capital _ _ C).
Qed.

(** ** VRAM and the unit *)

Module UnitFacts.

Lemma vram_from_match txt v : forall patterns,
  _extract_vram_from patterns txt = Ok (Some v) ->
  exists p mo, In p patterns /\ Re.search true p txt = Some mo.
Proof.
  induction patterns as [|p l IH]; intros H; [discriminate|].
  cbn [_extract_vram_from] in H.
  destruct (Re.search true p txt) as [mo|] eqn:S.
  - exists p, mo. split; [now left | exact S].
  - destruct (IH H) as [q [mo [I Sq]]]. exists q, mo. split; [now right | exact Sq].
Qed.

End UnitFacts.

(** X23. A VRAM size is only ever read next to its unit: when [_extract_vram]
    returns a size, the text contains "gb" in some letter case. *)
Theorem vram_needs_unit (txt : text) (v : Z) :
  _extract_vram txt = Ok (Some v) ->
  Str.contains "gb" (Str.lower txt) = true.
Proof.
  intros H. apply UnitFacts.vram_from_match in H as [p [mo [I S]]].
  assert (R : forallb (ReShape.reads "gb") vram_patterns = true) by reflexivity.
  rewrite forallb_forall in R.
  exact (FilterFacts.search_reads true "gb" p txt mo (R p I) S).
Qed.

Lemma vram_needs_unit_witness :
  _extract_vram "Sapphire RX 7900 GRE 16GB Nitro+" = Ok (Some 16%Z) /\
  Str.contains "gb" (Str.lower "Sapphire RX 7900 GRE 16GB Nitro+") = true.
Proof.
  split; [vm_compute; reflexivity|].
  apply (vram_needs_unit "Sapphire RX 7900 GRE 16GB Nitro+" 16%Z).
  vm_compute; reflexivity.
Defined.

(** ** Letter case *)

Module CaseFacts.
Import Str.

Lemma title_char (c : ascii) (b : bool) :
  (if is_upper (lower_char c) || is_lower (lower_char c)
   then (if b then lower_char (lower_char c) else upper_char (lower_char c))
   else lower_char c) =
  (if is_upper c || is_lower c
   then (if b then lower_char c else upper_char c)
   else c).
Proof. destruct b; destruct c as [[] [] [] [] [] [] [] []]; reflexivity. Qed.

Lemma title_from_lower t : forall b, title_from b (lower t) = title_from b t.
Proof.
  induction t as [|c t IH]; intros b; [reflexivity|].
  cbn [lower map title_from]. fold (lower t).
  pose proof (title_char c b) as E. pose proof (TitleFacts.cased_lower c) as C.
  unfold cased in C. rewrite C in *.
  destruct (is_upper c || is_lower c); rewrite E; f_equal; apply IH.
Qed.

Lemma same_title a b : lower a = lower b -> title a = title b.
Proof.
  unfold title. intros E.
  now rewrite <- (title_from_lower a), <- (title_from_lower b), E.
Qed.

Lemma same_combined t t' d d' :
  lower t = lower t' -> lower d = lower d' -> combined t d = combined t' d'.
Proof.
  unfold combined, lower. intros Et Ed.
  rewrite !map_app. unfold lower in *. now rewrite Et, Ed.
Qed.

End CaseFacts.

(** X24. Letter case never matters to what is read from a listing: two
    titles, descriptions, price texts and conditions over ASCII and the pound
    sign that differ in letter case only give the same GPU identity, the same
    price, the same normalized condition and the same answer of the scrapers'
    filter. *)
Theorem letter_case_is_ignored
  (title title' description description' price_text price_text' c c' : text) :
  same_letters title title' -> same_letters description description' ->
  same_letters price_text price_text' -> same_letters c c' ->
  extract_gpu_info title description = extract_gpu_info title' description' /\
  is_gpu_listing title description = is_gpu_listing title' description' /\
  extract_price price_text = extract_price price_text' /\
  _standardize_condition (PStr c) = _standardize_condition (PStr c').
Proof.
  intros [_ [_ Et]] [_ [_ Ed]] [_ [_ Ep]] [_ [_ Ec]]. split; [|split; [|split]].
  - unfold extract_gpu_info. now rewrite (CaseFacts.same_combined _ _ _ _ Et Ed).
  - unfold is_gpu_listing.
    change (Str.lower (title ++ " " ++ description)) with (combined title description).
    change (Str.lower (title' ++ " " ++ description'))
      with (combined title' description').
    now rewrite (CaseFacts.same_combined _ _ _ _ Et Ed).
  - unfold extract_price, clean_price. rewrite Ep.
    destruct price_text, price_text'; try discriminate; reflexivity.
  - unfold _standardize_condition. rewrite Ec.
    rewrite (CaseFacts.same_title c c' Ec).
    destruct c, c'; try discriminate; reflexivity.
Qed.

Lemma letter_case_is_ignored_witness :
  extract_gpu_info "msi rtx 4070 ti 12gb" "boxed" =
    extract_gpu_info "MSI RTX 4070 Ti 12GB" "Boxed" /\
  is_gpu_listing "msi rtx 4070 ti 12gb" "boxed" =
    is_gpu_listing "MSI RTX 4070 Ti 12GB" "Boxed" /\
  extract_price "£450 ONO" = extract_price "£450 ono" /\
  _standardize_condition (PStr "BRAND NEW") = _standardize_condition (PStr "brand new").
Proof.
  apply (letter_case_is_ignored "msi rtx 4070 ti 12gb" "MSI RTX 4070 Ti 12GB"
           "boxed" "Boxed" "£450 ONO" "£450 ono" "BRAND NEW" "brand new");
    repeat split.
Defined.

(** ** Reading a price back *)

Module RoundTripFacts.
Import Re ReShape.

(** A starred digit takes every digit of a run that ends the text. *)
Lemma star_digits ic k x : forall ds b sn a1 a2 li,
  Str.all_digits ds = true ->
  k (MState b (rev ds ++ sn) [] a1 a2 li) = Some x ->
  m ic (Star d) k (MState b sn ds a1 a2 li) = Some x.
Proof.
  induction ds as [|c ds IH]; intros b sn a1 a2 li D K.
  - simpl in *. exact K.
  - cbn [Str.all_digits forallb] in D. apply andb_true_iff in D as [Dc D].
    specialize (IH b (c :: sn) a1 a2 li D).
    cbn [rev] in K. rewrite <- app_assoc in K. specialize (IH K).
    cbn [m rest length d]. cbn [atom_matches]. rewrite Dc.
    match goal with
    | |- orelse ?X _ = _ =>
        change X with (m ic (Star d) k (MState b (c :: sn) ds a1 a2 li))
    end.
    rewrite IH. reflexivity.
Qed.

(** The whole of a run of digits is an amount. *)
(** The whole of a run of digits is an amount. *)
Lemma amount_digits ic k x c ds b sn a1 a2 li :
  Str.all_digits (c :: ds) = true ->
  k (MState b (rev (c :: ds) ++ sn) [] a1 a2 li) = Some x ->
  m ic amount k (MState b sn (c :: ds) a1 a2 li) = Some x.
Proof.
  intros D K. cbn [Str.all_digits forallb] in D. apply andb_true_iff in D as [Dc D].
  unfold amount. cbn [seqs].
  match goal with
  | |- m ic (Seq (Plus d) ?r) k ?s = _ =>
      change (m ic d (m ic (Star d) (m ic r k)) s = Some x)
  end.
  change ((if Str.is_digit c
           then m ic (Star d)
                  (m ic (Seq (Star (Seq (Lit ",") (Rep 3 d)))
                             (Opt (Seq (Lit ".") (Rep 2 d)))) k)
                  (MState b (c :: sn) ds a1 a2 li)
           else None) = Some x).
  rewrite Dc. apply star_digits; [exact D|].
  cbn [rev] in K. rewrite <- app_assoc in K. exact K.
Qed.

Lemma group_digits ic c ds b :
  Str.all_digits (c :: ds) = true ->
  exists s, match_here ic (Group G1 amount) b (c :: ds) = Some s /\
            g1 s = Some (c :: ds).
Proof.
  intros D. eexists. split.
  - unfold match_here, init. cbn [m]. apply amount_digits; [exact D|]. reflexivity.
  - cbn [close g1]. f_equal. apply CaptureFacts.captured_eq. cbn [seen]. reflexivity.
Qed.

Lemma digit_plain c :
  Str.is_digit c = true ->
  Str.lower_char c = c /\ Ascii.eqb "o" c = false /\ Ascii.eqb "n" c = false /\
  Ascii.eqb c "," = false /\ Ascii.eqb c "." = false.
Proof. destruct c as [[] [] [] [] [] [] [] []]; try discriminate; repeat split. Qed.

Lemma digits_lower ds : Str.all_digits ds = true -> Str.lower ds = ds.
Proof.
  induction ds as [|c ds IH]; [reflexivity|]. cbn [Str.all_digits forallb].
  intros D. apply andb_true_iff in D as [Dc D]. simpl.
  destruct (digit_plain c Dc) as [-> _]. f_equal. now apply IH.
Qed.

Lemma digits_kept ds :
  Str.all_digits ds = true -> strip_words removable_modifiers 0 ds = ds.
Proof.
  induction ds as [|c ds IH]; [reflexivity|]. cbn [Str.all_digits forallb].
  intros D. apply andb_true_iff in D as [Dc D].
  destruct (digit_plain c Dc) as [_ [No [Nn _]]].
  cbn [strip_words removable_modifiers first_prefix Str.prefix lit list_ascii_of_string].
  rewrite No, Nn. cbn [andb]. f_equal. now apply IH.
Qed.

Lemma digits_float ds :
  ds <> [] -> Str.all_digits ds = true ->
  float_of (Str.remove_char ","%char ds) = Some (inject_Z (Str.digits_val ds)).
Proof.
  intros N D.
  assert (R : Str.remove_char ","%char ds = ds).
  { clear N. induction ds as [|c ds IH]; [reflexivity|].
    cbn [Str.all_digits forallb] in D. apply andb_true_iff in D as [Dc D].
    destruct (digit_plain c Dc) as [_ [_ [_ [C _]]]].
    unfold Str.remove_char in *. cbn [filter]. rewrite C. cbn [negb].
    f_equal. now apply IH. }
  assert (S : split_dot ds = (ds, None)).
  { clear N R. induction ds as [|c ds IH]; [reflexivity|].
    cbn [Str.all_digits forallb] in D. apply andb_true_iff in D as [Dc D].
    destruct (digit_plain c Dc) as [_ [_ [_ [_ C]]]].
    cbn [split_dot]. rewrite C, (IH D). reflexivity. }
  rewrite R. unfold float_of. rewrite S, D. destruct ds; [contradiction | reflexivity].
Qed.

Lemma band_of z : (10 <= z <= 10000)%Z -> in_band (inject_Z z) = true.
Proof.
  intros [L U]. unfold in_band, Qle_bool, inject_Z. simpl.
  apply andb_true_iff. split; apply Z.leb_le; lia.
Qed.

Lemma no_pound ds p :
  Str.all_digits ds = true -> reads "£" p = true -> search false p ds = None.
Proof.
  intros D R. destruct (search false p ds) as [mo|] eqn:S; [|reflexivity].
  apply (FilterFacts.search_reads false "£" p ds mo R) in S.
  rewrite (digits_lower ds D) in S.
  apply StrFacts.contains_spec in S as [pre [post E]].
  rewrite E in D. unfold Str.all_digits in D.
  rewrite forallb_app in D. apply andb_true_iff in D as [_ D]. discriminate D.
Qed.

Lemma bare_search c ds :
  Str.all_digits (c :: ds) = true ->
  exists mo, search false (Group G1 amount) (c :: ds) = Some mo /\
             group1 mo = Some (c :: ds).
Proof.
  intros D. destruct (group_digits false c ds None D) as [s [M G]].
  exists (to_match 0 s). split; [|exact G].
  unfold search. cbn [search_from]. now rewrite M.
Qed.

Lemma pound_here c ds b :
  Str.all_digits (c :: ds) = true ->
  exists s, match_here false (seqs [pound; Group G1 amount]) b ("£" ++ c :: ds) = Some s /\
            g1 s = Some (c :: ds).
Proof.
  intros D. eexists. split.
  - unfold match_here, init. cbn [seqs].
    match goal with
    | |- _ = ?R =>
        change (m false (Lit "£") (m false (Group G1 amount) Some)
                  (MState b [] ("£" ++ c :: ds) None None None) = R)
    end.
    rewrite ModifierFacts.lit_match.
    cbn [rest lit list_ascii_of_string app Str.prefix length skipn rev seen before g1 g2 lastindex].
    rewrite !Ascii.eqb_refl. cbn [andb].
    cbn [m]. apply amount_digits; [exact D|]. reflexivity.
  - cbn [close g1]. f_equal. apply CaptureFacts.captured_eq. cbn [seen].
    reflexivity.
Qed.

Lemma pound_search c ds :
  Str.all_digits (c :: ds) = true ->
  exists mo, search false (seqs [pound; Group G1 amount]) ("£" ++ c :: ds) = Some mo /\
             group1 mo = Some (c :: ds).
Proof.
  intros D. destruct (pound_here c ds None D) as [s [M G]].
  exists (to_match 0 s). split; [|exact G].
  unfold search. cbn [lit list_ascii_of_string app] in *.
  cbn [search_from]. now rewrite M.
Qed.

Lemma clean_digits ds :
  Str.all_digits ds = true ->
  clean_price ds = ds /\ clean_price ("£" ++ ds) = "£" ++ ds.
Proof.
  intros D. unfold clean_price, sub_empty. rewrite !ModifierFacts.sub_strip.
  split.
  - now rewrite (digits_lower ds D), (digits_kept ds D).
  - cbn [lit list_ascii_of_string app Str.lower map].
    fold (Str.lower ds). rewrite (digits_lower ds D).
    cbn [strip_words removable_modifiers first_prefix Str.prefix lit list_ascii_of_string].
    cbn. now rewrite (digits_kept ds D).
Qed.

End RoundTripFacts.

(** X25. A whole number of pounds between 10 and 10000, written in digits
    with or without the pound sign before it, is read back as that number. *)
Theorem whole_pounds_round_trip (ds : text) :
  ds <> [] -> Str.all_digits ds = true ->
  (10 <= Str.digits_val ds <= 10000)%Z ->
  extract_price ("£" ++ ds) = Ok (Some (inject_Z (Str.digits_val ds))) /\
  extract_price ds = Ok (Some (inject_Z (Str.digits_val ds))).
Proof.
  intros N D B. destruct ds as [|c ds]; [contradiction|].
  destruct (RoundTripFacts.clean_digits _ D) as [C0 C1].
  pose proof (RoundTripFacts.digits_float _ N D) as F.
  pose proof (RoundTripFacts.band_of _ B) as I.
  split.
  - change (extract_price ("£" ++ c :: ds))
      with (extract_price_from price_patterns (clean_price ("£" ++ c :: ds))).
    rewrite C1. unfold price_patterns. cbn [extract_price_from].
    destruct (RoundTripFacts.pound_search c ds D) as [mo [S G]]. now rewrite S, G, F, I.
  - change (extract_price (c :: ds))
      with (extract_price_from price_patterns (clean_price (c :: ds))).
    rewrite C0. unfold price_patterns. cbn [extract_price_from].
    rewrite !(RoundTripFacts.no_pound _ _ D) by reflexivity.
    destruct (RoundTripFacts.bare_search c ds D) as [mo [S G]]. now rewrite S, G, F, I.
Qed.

Lemma whole_pounds_round_trip_witness :
  extract_price "£450" = Ok (Some (inject_Z 450)) /\
  extract_price "450" = Ok (Some (inject_Z 450)).
Proof.
  apply (whole_pounds_round_trip "450"); [discriminate | reflexivity | vm_compute].
  split; discriminate.
Defined.
